(** * StockAnalysis: the indicator engine of [stock_analyzer.py]

    A shallow embedding of [StockAnalyzer] (src/stock_analyzer.py) and of
    [StockData] (src/stock_data.py), together with the numpy primitives
    they call, of the console loops of src/main.py, and of the numbers
    behind the scatter plot and the report of src/stock_visualizer.py.

    Numbers.  The functions are written once, over a numeric interface
    [Num]: the arithmetic of float64, and the cast [ncast] to the dtype of
    the price array, which a store into [np.zeros_like(prices)] performs.
    It is used at three instances:
    - [float], the binary64 numbers of the kernel, for a float64 price
      array: the functions run on it by computation;
    - [int64_Num], binary64 again, for an int64 price array (a file of
      whole numbers): the cast truncates;
    - [xreal], exact real numbers extended with the IEEE special values
      (two infinities and not-a-number) and the IEEE rules for them
      (x/0, 0/0, inf-inf, comparisons with NaN), for a float64 array.
      Rounding, overflow and the sign of zero are left out of [xreal];
      statements that need algebra are proved there.
    A sum is added from left to right; numpy adds 8 and more numbers in
    another order, which changes the last bits on binary64 and nothing in
    exact arithmetic.

    Errors.  A Python exception is a [Raise] in the [result] monad; the
    [None] that [calculate_correlation_matrix] returns is a value.  What
    the code prints and numpy's warnings are not modelled.

    The outside.  The read of a file is an argument of [load_data]: what
    [np.genfromtxt] returned.  The lines typed at a prompt are a list.
    Plots and the PDF are left out.

    The file has the embedding first, then the predicates and invariants
    the statements use, then the lemmas and theorems: the shape of each
    result for any arithmetic, the algebra over [xreal], runs on [float],
    and instances of the theorems. *)

From Stdlib Require Import Floats ZArith Reals Lra Lia.
From stdpp Require Import gmap strings list.
From Stdlib Require Import Ascii.

Set Default Proof Using "Type".

(** ** Exceptions and the error monad *)

Inductive exn : Set := IndexError | ValueError | KeyError | TypeError.

Inductive result (T : Type) : Type :=
| Ok (v : T)
| Raise (e : exn).
Arguments Ok {T} v.
Arguments Raise {T} e.

Definition rbind {T U : Type} (m : result T) (k : T -> result U) : result U :=
  match m with
  | Ok v => k v
  | Raise e => Raise e
  end.

Declare Scope result_scope.
Delimit Scope result_scope with result.
Notation "'let*' x ':=' m 'in' k" := (rbind m (fun x => k))
  (at level 10, x name, m at level 100, k at level 200) : result_scope.
Notation "'let*' ' p ':=' m 'in' k" := (rbind m (fun x => match x with p => k end))
  (at level 10, p strict pattern, m at level 100, k at level 200) : result_scope.
Local Open Scope result_scope.

(** [for x in xs: s = body(x, s)], the loop's variables threaded as [s] *)
Fixpoint for_each {I St : Type} (xs : list I) (body : I -> St -> result St) (s : St)
  : result St :=
  match xs with
  | [] => Ok s
  | x :: xs' => let* s' := body x s in for_each xs' body s'
  end.

(** [for i in range(lo, hi): s = body(i, s)] *)
Definition for_range {St : Type} (lo hi : nat) (body : nat -> St -> result St) (s : St)
  : result St :=
  for_each (seq lo (hi - lo)) body s.

(** ** The numeric interface *)

Class Num (A : Type) : Type := {
  of_Z : Z -> A;          (* an int where a float is expected *)
  nadd : A -> A -> A;
  nsub : A -> A -> A;
  nmul : A -> A -> A;
  ndiv : A -> A -> A;     (* true division, never raises on float64 *)
  nopp : A -> A;
  nsqrt : A -> A;
  nltb : A -> A -> bool;  (* [<], false when an argument is NaN *)
  neqb : A -> A -> bool;  (* [==], false when an argument is NaN *)
  ncast : A -> A          (* a float64 cast to the dtype of the price array *)
}.

Declare Scope num_scope.
Delimit Scope num_scope with num.
Infix "+^" := nadd (at level 50, left associativity) : num_scope.
Infix "-^" := nsub (at level 50, left associativity) : num_scope.
Infix "*^" := nmul (at level 40, left associativity) : num_scope.
Infix "/^" := ndiv (at level 40, left associativity) : num_scope.
Infix "<?^" := nltb (at level 70, no associativity) : num_scope.
Local Open Scope num_scope.

(** *** binary64 *)

(** an int as a float: exact below 2^53 in absolute value *)
Definition float_of_Z (z : Z) : float :=
  match z with
  | Z0 => PrimFloat.zero
  | Zpos _ => PrimFloat.of_uint63 (Uint63.of_Z z)
  | Zneg p => PrimFloat.opp (PrimFloat.of_uint63 (Uint63.of_Z (Zpos p)))
  end.

#[export] Instance float_Num : Num float := {|
  of_Z := float_of_Z;
  nadd := PrimFloat.add;
  nsub := PrimFloat.sub;
  nmul := PrimFloat.mul;
  ndiv := PrimFloat.div;
  nopp := PrimFloat.opp;
  nsqrt := PrimFloat.sqrt;
  nltb := PrimFloat.ltb;
  neqb := PrimFloat.eqb;
  ncast := fun x => x
|}.

(** *** binary64 arithmetic on an int64 price array

    [np.genfromtxt] with [dtype=None] reads a column of whole numbers as
    int64, and [np.column_stack] of five such columns is an int64 array:
    then the closing prices are int64.  The arithmetic on them is still
    that of binary64 (an int64 is converted on the way, exactly below
    2^53), but [np.zeros_like(prices)] is an int64 array, and a store into
    it casts. *)

(** the C cast of a double to int64, as a binary64 again: truncation
    toward zero; NaN, the infinities and the values out of range give
    -2^63, the integer indefinite of x86-64 *)
Definition float_to_int64 (x : float) : float :=
  let a := PrimFloat.abs x in
  if PrimFloat.ltb a 0x1p52 then
    let r := PrimFloat.sub (PrimFloat.add a 0x1p52) 0x1p52 in
    let t := if PrimFloat.ltb a r then PrimFloat.sub r 1 else r in
    if PrimFloat.ltb x 0 then PrimFloat.sub 0 t else t
  else if PrimFloat.ltb a 0x1p63 then x
  else (-0x1p63)%float.

Definition int64_Num : Num float := {|
  of_Z := float_of_Z;
  nadd := PrimFloat.add;
  nsub := PrimFloat.sub;
  nmul := PrimFloat.mul;
  ndiv := PrimFloat.div;
  nopp := PrimFloat.opp;
  nsqrt := PrimFloat.sqrt;
  nltb := PrimFloat.ltb;
  neqb := PrimFloat.eqb;
  ncast := float_to_int64
|}.

(** *** Exact reals with the IEEE special values *)

Inductive xreal : Type :=
| Fin (r : R)
| PInf
| NInf
| NaN.

Definition Rsign (r : R) : comparison :=
  if Rlt_dec 0 r then Gt else if Rlt_dec r 0 then Lt else Eq.

(** the infinity of a given sign; a zero sign is the invalid operation *)
Definition xinf (s : comparison) : xreal :=
  match s with
  | Gt => PInf
  | Lt => NInf
  | Eq => NaN
  end.

Definition sign_mul (s t : comparison) : comparison :=
  match s, t with
  | Eq, _ | _, Eq => Eq
  | Gt, Gt | Lt, Lt => Gt
  | _, _ => Lt
  end.

Definition xopp (x : xreal) : xreal :=
  match x with
  | Fin r => Fin (- r)
  | PInf => NInf
  | NInf => PInf
  | NaN => NaN
  end.

Definition xadd (x y : xreal) : xreal :=
  match x, y with
  | NaN, _ | _, NaN => NaN
  | Fin a, Fin b => Fin (a + b)
  | PInf, NInf | NInf, PInf => NaN
  | PInf, _ | _, PInf => PInf
  | NInf, _ | _, NInf => NInf
  end.

Definition xsub (x y : xreal) : xreal := xadd x (xopp y).

Definition xmul (x y : xreal) : xreal :=
  match x, y with
  | NaN, _ | _, NaN => NaN
  | Fin a, Fin b => Fin (a * b)
  | Fin a, PInf | PInf, Fin a => xinf (Rsign a)
  | Fin a, NInf | NInf, Fin a => xinf (sign_mul Lt (Rsign a))
  | PInf, PInf | NInf, NInf => PInf
  | PInf, NInf | NInf, PInf => NInf
  end.

(** a zero divisor counts as +0 *)
Definition xdiv (x y : xreal) : xreal :=
  match x, y with
  | NaN, _ | _, NaN => NaN
  | Fin a, Fin b => if Req_dec_T b 0 then xinf (Rsign a) else Fin (a / b)
  | Fin _, (PInf | NInf) => Fin 0
  | PInf, Fin b => if Rlt_dec b 0 then NInf else PInf
  | NInf, Fin b => if Rlt_dec b 0 then PInf else NInf
  | (PInf | NInf), (PInf | NInf) => NaN
  end.

Definition xsqrt (x : xreal) : xreal :=
  match x with
  | Fin r => if Rlt_dec r 0 then NaN else Fin (sqrt r)
  | PInf => PInf
  | NInf | NaN => NaN
  end.

Definition xltb (x y : xreal) : bool :=
  match x, y with
  | NaN, _ | _, NaN => false
  | Fin a, Fin b => if Rlt_dec a b then true else false
  | NInf, (Fin _ | PInf) => true
  | Fin _, PInf => true
  | _, _ => false
  end.

Definition xeqb (x y : xreal) : bool :=
  match x, y with
  | Fin a, Fin b => if Req_dec_T a b then true else false
  | PInf, PInf | NInf, NInf => true
  | _, _ => false
  end.

#[export] Instance xreal_Num : Num xreal := {|
  of_Z := fun z => Fin (IZR z);
  nadd := xadd;
  nsub := xsub;
  nmul := xmul;
  ndiv := xdiv;
  nopp := xopp;
  nsqrt := xsqrt;
  nltb := xltb;
  neqb := xeqb;
  ncast := fun x => x
|}.

(** ** Python sequences and the numpy primitives *)

Section PyList.
Context {A : Type}.

(** [l[i]] for an int [i], negative indices counted from the end *)
Definition py_index (n : nat) (i : Z) : option nat :=
  if (0 <=? i)%Z then
    (if (i <? Z.of_nat n)%Z then Some (Z.to_nat i) else None)
  else
    (if (- Z.of_nat n <=? i)%Z then Some (Z.to_nat (Z.of_nat n + i)) else None).

Definition py_get (l : list A) (i : Z) : result A :=
  match py_index (length l) i with
  | Some k => match l !! k with Some x => Ok x | None => Raise IndexError end
  | None => Raise IndexError
  end.

(** [l[i] = x] *)
Definition py_set (l : list A) (i : Z) (x : A) : result (list A) :=
  match py_index (length l) i with
  | Some k => Ok (<[k:=x]> l)
  | None => Raise IndexError
  end.

(** [l[:n] = x] for a scalar [x] and [n >= 0] *)
Definition py_fill_prefix (l : list A) (n : nat) (x : A) : list A :=
  replicate (Nat.min n (length l)) x ++ drop n l.

(** [l[i:i+n]] *)
Definition py_slice (l : list A) (i n : nat) : list A := take n (drop i l).

(** [l[-n:]] for [n >= 0]; [-0] is [0], so [l[-0:]] is all of [l] *)
Definition py_last (l : list A) (n : nat) : list A :=
  match n with
  | O => l
  | _ => drop (length l - n) l
  end.

End PyList.

(** a [dict] with string keys, in insertion order *)
Section Dict.
Context {V : Type}.

Definition dict : Type := list (string * V).

(** [d[k] = v]: a key already present keeps its place *)
Fixpoint dict_set (k : string) (v : V) (d : dict) : dict :=
  match d with
  | [] => [(k, v)]
  | (k', v') :: d' =>
      if decide (k = k') then (k, v) :: d' else (k', v') :: dict_set k v d'
  end.

(** [d[k]] *)
Fixpoint dict_get (k : string) (d : dict) : result V :=
  match d with
  | [] => Raise KeyError
  | (k', v') :: d' => if decide (k = k') then Ok v' else dict_get k d'
  end.

Definition dict_keys (d : dict) : list string := fst <$> d.

End Dict.
Arguments dict V : clear implicits.

Section Numpy.
Context {A : Type} `{Num A}.

(** [np.zeros_like(l)]: zeros of the dtype of [l]; what is then assigned
    to an entry is cast to that dtype, [ncast] *)
Definition np_zeros_like (l : list A) : list A := replicate (length l) (of_Z 0).

Definition np_ones (n : nat) : list A := replicate n (of_Z 1).

(** [np.add.reduce]: the empty sum is 0.  The elements are added from left
    to right; numpy adds arrays of 8 and more elements in blocks, which
    changes the rounding on binary64 and nothing in exact arithmetic. *)
Definition np_sum (l : list A) : A :=
  match l with
  | [] => of_Z 0
  | x :: l' => fold_left nadd l' x
  end.

(** [np.mean]: NaN (with a warning) on an empty array *)
Definition np_mean (l : list A) : A := np_sum l /^ of_Z (Z.of_nat (length l)).

(** [np.std], population standard deviation (ddof = 0) *)
Definition np_std (l : list A) : A :=
  let m := np_mean l in
  let sq := (fun x => (x -^ m) *^ (x -^ m)) <$> l in
  nsqrt (np_sum sq /^ of_Z (Z.of_nat (length l))).

(** [np.diff]: [a[1:] - a[:-1]] *)
Definition np_diff (l : list A) : list A := zip_with nsub (tail l) l.

(** [np.where(cond, x, 0)] with [cond] and [x] computed from the same array *)
Definition np_where0 (cond : A -> bool) (f : A -> A) (l : list A) : list A :=
  (fun d => if cond d then f d else of_Z 0) <$> l.

(** an elementwise binary operator on two 1-d arrays, with broadcasting:
    equal shapes, or one of them of length 1; anything else is a
    [ValueError] (operands could not be broadcast together) *)
Definition broadcast2 (f : A -> A -> A) (a b : list A) : result (list A) :=
  if decide (length a = length b) then Ok (zip_with f a b)
  else match a, b with
       | [x], _ => Ok (f x <$> b)
       | _, [y] => Ok ((fun x => f x y) <$> a)
       | _, _ => Raise ValueError
       end.

Definition np_dot (a b : list A) : A := np_sum (zip_with nmul a b).

(** [np.correlate(a, v, 'valid')] for [len(v) <= len(a)] *)
Definition np_correlate_valid (a v : list A) : list A :=
  (fun i => np_dot (py_slice a i (length v)) v)
    <$> seq 0 (length a - length v + 1).

(** [np.convolve(a, v, 'valid')] *)
Definition np_convolve_valid (a v : list A) : result (list A) :=
  let '(a, v) := if length a <? length v then (v, a) else (a, v) in
  match a, v with
  | [], _ => Raise ValueError
  | _, [] => Raise ValueError
  | _, _ => Ok (np_correlate_valid a (reverse v))
  end.

(** [np.isnan] *)
Definition np_isnan (x : A) : bool := negb (neqb x x).

(** [np.clip(x, lo, hi)], i.e. [minimum(maximum(x, lo), hi)]; a NaN stays *)
Definition np_clip (x lo hi : A) : A :=
  if np_isnan x then x
  else
    let y := if x <?^ lo then lo else x in
    if hi <?^ y then hi else y.

(** the entries of [np.cov(x, y)] (ddof = 1): rows centred, their dot
    product, times [1/fact] with [fact = N - 1], or [0.0] when that is
    not positive *)
Definition np_cov_entry (x y : list A) : A :=
  let xc := (fun a => a -^ np_mean x) <$> x in
  let yc := (fun a => a -^ np_mean y) <$> y in
  np_dot xc yc *^ (of_Z 1 /^ of_Z (Z.of_nat (length x - 1))).

(** [np.corrcoef(x, y)[0, 1]]: the covariance divided by the standard
    deviation of its row, then of its column, then clipped to [-1, 1];
    stacking arrays of different lengths is a [ValueError] *)
Definition np_corrcoef01 (x y : list A) : result A :=
  if decide (length x = length y) then
    let c01 := np_cov_entry x y in
    let stddev0 := nsqrt (np_cov_entry x x) in
    let stddev1 := nsqrt (np_cov_entry y y) in
    Ok (np_clip (c01 /^ stddev0 /^ stddev1) (of_Z (-1)) (of_Z 1))
  else Raise ValueError.

End Numpy.

(** ** [StockAnalyzer]

    The methods of the class, [self.stocks] passed as an argument where it
    is read.  A window is a count, a natural number; negative windows are
    outside the model. *)

Section Analyzer.
Context {A : Type} `{Num A}.

Definition calculate_sma (prices : list A) (window : nat) : result (list A) :=
  if length prices <? window then Ok []
  else np_convolve_valid prices
         ((fun x => x /^ of_Z (Z.of_nat window)) <$> np_ones window).

Definition calculate_ema (prices : list A) (window : nat) : result (list A) :=
  if length prices <? window then Ok []
  else
    let ema := np_zeros_like prices in
    let ema := py_fill_prefix ema window (ncast (np_mean (take window prices))) in
    let alpha := of_Z 2 /^ of_Z (Z.of_nat window + 1) in
    for_range window (length prices)
      (fun i ema =>
         let* p := py_get prices (Z.of_nat i) in
         let* e := py_get ema (Z.of_nat i - 1) in
         py_set ema (Z.of_nat i) (ncast (alpha *^ p +^ (of_Z 1 -^ alpha) *^ e)))
      ema.

(** [gains = np.where(deltas > 0, deltas, 0)] *)
Definition rsi_gains (deltas : list A) : list A :=
  np_where0 (fun d => of_Z 0 <?^ d) (fun d => d) deltas.

(** [losses = np.where(deltas < 0, -deltas, 0)] *)
Definition rsi_losses (deltas : list A) : list A :=
  np_where0 (fun d => d <?^ of_Z 0) nopp deltas.

(** [(prev * (window-1) + x) / window] *)
Definition wilder (window : nat) (prev x : A) : A :=
  (prev *^ of_Z (Z.of_nat window - 1) +^ x) /^ of_Z (Z.of_nat window).

(** lines 35-47 of [calculate_rsi]: the two smoothed averages *)
Definition rsi_averages (prices : list A) (window : nat)
  : result (list A * list A) :=
  let deltas := np_diff prices in
  let gains := rsi_gains deltas in
  let losses := rsi_losses deltas in
  let avg_gain := np_zeros_like prices in
  let avg_loss := np_zeros_like prices in
  let* avg_gain :=
    py_set avg_gain (Z.of_nat window) (ncast (np_mean (take window gains))) in
  let* avg_loss :=
    py_set avg_loss (Z.of_nat window) (ncast (np_mean (take window losses))) in
  for_range (window + 1) (length prices)
    (fun i '(avg_gain, avg_loss) =>
       let* g1 := py_get avg_gain (Z.of_nat i - 1) in
       let* g := py_get gains (Z.of_nat i - 1) in
       let* avg_gain := py_set avg_gain (Z.of_nat i) (ncast (wilder window g1 g)) in
       let* l1 := py_get avg_loss (Z.of_nat i - 1) in
       let* l := py_get losses (Z.of_nat i - 1) in
       let* avg_loss := py_set avg_loss (Z.of_nat i) (ncast (wilder window l1 l)) in
       Ok (avg_gain, avg_loss))
    (avg_gain, avg_loss).

(** [rsi = 100 - (100 / (1 + rs))], elementwise *)
Definition rsi_of_rs (rs : A) : A :=
  of_Z 100 -^ (of_Z 100 /^ (of_Z 1 +^ rs)).

Definition calculate_rsi (prices : list A) (window : nat) : result (list A) :=
  if length prices <? window then Ok []
  else
    let* '(avg_gain, avg_loss) := rsi_averages prices window in
    let* rs := broadcast2 ndiv avg_gain avg_loss in
    Ok (rsi_of_rs <$> rs).

Definition calculate_macd (prices : list A) (short_window long_window signal_window : nat)
  : result (list A * list A) :=
  let* ema_short := calculate_ema prices short_window in
  let* ema_long := calculate_ema prices long_window in
  let* macd := broadcast2 nsub ema_short ema_long in
  let* signal := calculate_ema macd signal_window in
  Ok (macd, signal).

Definition calculate_bollinger_bands (prices : list A) (window : nat) (num_std : A)
  : result (list A * list A * list A) :=
  if length prices <? window then Ok ([], [], [])
  else
    let* sma := calculate_sma prices window in
    let rolling_std :=
      (fun i => np_std (py_slice prices i window))
        <$> seq 0 (length prices - window + 1) in
    let* upper_band := broadcast2 nadd sma ((fun s => s *^ num_std) <$> rolling_std) in
    let* lower_band := broadcast2 nsub sma ((fun s => s *^ num_std) <$> rolling_std) in
    Ok (sma, upper_band, lower_band).

End Analyzer.

(** ** [StockData] and the correlation matrix *)

Section Correlation.
Context {A : Type} `{Num A}.

(** a row of [StockData.data]: Open, High, Low, Close, Volume *)
Record bar : Type := {
  bar_open : A; bar_high : A; bar_low : A; bar_close : A; bar_volume : A
}.

Record StockData : Type := {
  symbol : string;
  data : option (list bar)       (* [None] until [load_data] succeeds *)
}.

Definition get_closing_prices (sd : StockData) : list A :=
  match data sd with
  | Some rows => bar_close <$> rows
  | None => []
  end.

(** [min(min_length, n)], where [min_length] starts as [float('inf')] *)
Definition py_min_length (min_length : option nat) (n : nat) : option nat :=
  match min_length with
  | None => Some n
  | Some m => Some (Nat.min m n)
  end.

(** first pass; [None] is the early [return None] *)
Fixpoint first_pass (stocks : gmap string StockData) (symbols : list string)
    (price_data : dict (list A)) (min_length : option nat)
  : option (dict (list A) * option nat) :=
  match symbols with
  | [] => Some (price_data, min_length)
  | symbol :: symbols' =>
      match stocks !! symbol with
      | Some sd =>
          let prices := get_closing_prices sd in
          if 0 <? length prices then
            first_pass stocks symbols' (dict_set symbol prices price_data)
              (py_min_length min_length (length prices))
          else None
      | None => None
      end
  end.

(** [prices[-min_length:]]; slicing with [-inf] is a [TypeError] *)
Definition trim (prices : list A) (min_length : option nat) : result (list A) :=
  match min_length with
  | Some m => Ok (py_last prices m)
  | None => Raise TypeError
  end.

(** second pass *)
Definition second_pass (price_data : dict (list A)) (min_length : option nat)
  : result (dict (list A)) :=
  for_each price_data
    (fun '(symbol, prices) aligned_returns =>
       let* trimmed_prices := trim prices min_length in
       let* returns :=
         broadcast2 ndiv (np_diff trimmed_prices)
           (take (length trimmed_prices - 1) trimmed_prices) in
       Ok (dict_set symbol returns aligned_returns))
    [].

(** [corr_matrix[i, j] = corr] *)
Definition matrix_set (m : list (list A)) (i j : nat) (x : A) : result (list (list A)) :=
  let* row := py_get m (Z.of_nat i) in
  let* row := py_set row (Z.of_nat j) x in
  py_set m (Z.of_nat i) row.

Definition build_matrix (aligned_returns : dict (list A))
  : result (list string * list (list A)) :=
  let symbols_list := dict_keys aligned_returns in
  let n := length symbols_list in
  let corr_matrix := replicate n (replicate n (of_Z 0)) in
  let* corr_matrix :=
    for_range 0 n
      (fun i corr_matrix =>
         for_range 0 n
           (fun j corr_matrix =>
              let* sym1 := py_get symbols_list (Z.of_nat i) in
              let* sym2 := py_get symbols_list (Z.of_nat j) in
              let* r1 := dict_get sym1 aligned_returns in
              let* r2 := dict_get sym2 aligned_returns in
              let* corr := np_corrcoef01 r1 r2 in
              matrix_set corr_matrix i j corr)
           corr_matrix)
      corr_matrix in
  Ok (symbols_list, corr_matrix).

Definition calculate_correlation_matrix (stocks : gmap string StockData)
    (symbols : list string)
  : result (option (list string * list (list A))) :=
  if length symbols <? 2 then Ok None
  else
    match first_pass stocks symbols [] None with
    | None => Ok None
    | Some (price_data, min_length) =>
        let* aligned_returns := second_pass price_data min_length in
        let* r := build_matrix aligned_returns in
        Ok (Some r)
    end.

End Correlation.
Arguments bar A : clear implicits.
Arguments StockData A : clear implicits.

(** a loaded stock whose closing prices are [closes] *)
Definition stock_of_closes {A : Type} `{Num A} (s : string) (closes : list A)
  : StockData A :=
  {| symbol := s;
     data := Some ((fun c => {| bar_open := c; bar_high := c; bar_low := c;
                                bar_close := c; bar_volume := of_Z 0 |}) <$> closes) |}.

(** the arithmetic mean of real numbers, as the specification words it:
    the sum of the values divided by their count *)
Definition Rsum (l : list R) : R := foldr Rplus 0%R l.

Definition arith_mean (l : list R) : R := (Rsum l / INR (length l))%R.

(** the Pearson correlation coefficient of two series: their sample
    covariance normalized by the two standard deviations, kept in [-1, 1] *)
Definition Rcentered (l : list R) : list R := (fun a => a - arith_mean l)%R <$> l.

Definition Rcov (x y : list R) : R :=
  (Rsum (zip_with Rmult (Rcentered x) (Rcentered y)) * (1 / INR (length x - 1)))%R.

Definition Rclip (q : R) : R :=
  if Rlt_dec q (IZR (-1)) then IZR (-1) else if Rlt_dec 1 q then 1%R else q.

Definition pearson (x y : list R) : R :=
  Rclip (Rcov x y / sqrt (Rcov x x) / sqrt (Rcov y y)).

(** the population standard deviation: the root of the mean squared
    deviation from the mean *)
Definition pop_std (l : list R) : R :=
  sqrt (arith_mean ((fun x => (x - arith_mean l) * (x - arith_mean l))%R <$> l)).

(** ** [StockData]: the symbol of a path, loading, and [add_stock] *)

(** [s.split(sep)] for a separator of one character: the pieces between
    the separators, always at least one *)
Fixpoint py_split (sep : Ascii.ascii) (s : string) : list string :=
  match s with
  | EmptyString => [EmptyString]
  | String c s' =>
      if Ascii.eqb c sep then EmptyString :: py_split sep s'
      else match py_split sep s' with
           | [] => [String c EmptyString]
           | p :: ps => String c p :: ps
           end
  end.

(** [file_path.split('/')[-1].split('.')[0]] *)
Definition symbol_of_path (file_path : string) : result string :=
  let* name := py_get (py_split "/"%char file_path) (-1) in
  py_get (py_split "."%char name) 0.

(** the characters of a string *)
Definition chars (s : string) : list Ascii.ascii := String.list_ascii_of_string s.

Section Loading.
Context {A : Type} `{Num A}.
Context {D : Type} (strptime : string -> result D).

(** [StockData.__init__]; [file_path] is the argument of the read in
    [load_data], and [dates] is [load_data_dates] below *)
Definition StockData_init (file_path : string) : result (StockData A) :=
  let* symbol := symbol_of_path file_path in
  Ok {| symbol := symbol; data := None |}.

(** a record of the structured array that [np.genfromtxt] returns: the
    values of the six fields that [load_data] reads, the date as the text
    [str(date)] *)
Record csv_row : Type := { row_date : string; row_bar : bar A }.

(** the array: the names of its fields (the header of the file) and its
    records; it is 1-d, or 0-d (a single record, without a length).  A
    record has a place for each field that [load_data] reads, and the
    place of a field that the array does not have is never read.  Price
    fields that hold text are left out. *)
Inductive raw_array : Type :=
| Rows (names : list string) (rows : list csv_row)
| Scalar (names : list string) (row : csv_row).

Definition raw_names (raw_data : raw_array) : list string :=
  match raw_data with
  | Rows names _ | Scalar names _ => names
  end.

(** the records; the code reads them only after [len] has returned *)
Definition raw_rows (raw_data : raw_array) : list csv_row :=
  match raw_data with
  | Rows _ rows => rows
  | Scalar _ row => [row]
  end.

(** [len(raw_data)] *)
Definition np_len (raw_data : raw_array) : result nat :=
  match raw_data with
  | Rows _ rows => Ok (length rows)
  | Scalar _ _ => Raise TypeError
  end.

(** [raw_data[name]]; a name that is not a field is a [ValueError] *)
Definition np_field {T : Type} (raw_data : raw_array) (name : string)
    (value : csv_row -> T) : result (list T) :=
  if decide (name ∈ raw_names raw_data) then Ok (value <$> raw_rows raw_data)
  else Raise ValueError.

(** [np.column_stack] of five columns of one length *)
Fixpoint np_column_stack (opens highs lows closes volumes : list A) : list (bar A) :=
  match opens, highs, lows, closes, volumes with
  | o :: opens, h :: highs, l :: lows, c :: closes, v :: volumes =>
      {| bar_open := o; bar_high := h; bar_low := l; bar_close := c; bar_volume := v |}
      :: np_column_stack opens highs lows closes volumes
  | _, _, _, _, _ => []
  end.

(** the [try] block of [load_data] up to the assignment of [self.dates]:
    the array and the dates; [raw] is what the call of [np.genfromtxt] on
    [self.file_path] gave, a [Raise] of whatever class when the read
    failed: the handler catches every [Exception] *)
Definition load_dates (raw : result raw_array) : result (raw_array * list D) :=
  let* raw_data := raw in
  let* n := np_len raw_data in
  if n =? 0 then Raise ValueError
  else
    let* date_column := np_field raw_data "Date" row_date in
    let* dates :=
      for_each date_column
        (fun date dates => let* d := strptime date in Ok (dates ++ [d])) [] in
    Ok (raw_data, dates).

(** the price matrix [Open, High, Low, Close, Volume] *)
Definition load_prices (raw_data : raw_array) : result (list (bar A)) :=
  let* opens := np_field raw_data "Open" (fun r => bar_open (row_bar r)) in
  let* highs := np_field raw_data "High" (fun r => bar_high (row_bar r)) in
  let* lows := np_field raw_data "Low" (fun r => bar_low (row_bar r)) in
  let* closes := np_field raw_data "Close" (fun r => bar_close (row_bar r)) in
  let* volumes := np_field raw_data "Volume" (fun r => bar_volume (row_bar r)) in
  Ok (np_column_stack opens highs lows closes volumes).

(** the whole [try] block: the object when it reaches [return True] *)
Definition load_data_try (raw : result raw_array) (self : StockData A)
  : result (StockData A) :=
  let* '(raw_data, dates) := load_dates raw in
  let* prices := load_prices raw_data in
  Ok {| symbol := symbol self; data := Some prices |}.

(** what [self.dates] is assigned, if the [try] block gets that far, also
    when it fails afterwards; the program reads [dates] nowhere, and it is
    not a field of the record *)
Definition load_data_dates (raw : result raw_array) : option (list D) :=
  match load_dates raw with
  | Ok (_, dates) => Some dates
  | Raise _ => None
  end.

(** [load_data]: the flag it returns, and [symbol] and [data] afterwards *)
Definition load_data (raw : result raw_array) (self : StockData A)
  : bool * StockData A :=
  match load_data_try raw self with
  | Ok self' => (true, self')
  | Raise _ => (false, self)
  end.

(** [StockAnalyzer.add_stock] *)
Definition add_stock (raw : result raw_array) (stocks : gmap string (StockData A))
    (stock_data : StockData A) : gmap string (StockData A) :=
  let '(loaded, stock_data) := load_data raw stock_data in
  if loaded then <[symbol stock_data := stock_data]> stocks else stocks.

(** the loops of [main] that load a list of files; [genfromtxt] gives the
    outcome of the read of each path *)
Definition load_files (genfromtxt : string -> result raw_array) (stock_files : list string)
    (stocks : gmap string (StockData A)) : result (gmap string (StockData A)) :=
  for_each stock_files
    (fun stock_file stocks =>
       let* stock := StockData_init stock_file in
       Ok (add_stock (genfromtxt stock_file) stocks stock))
    stocks.

(** the fields that [load_data] reads after the dates *)
Definition price_fields : list string := ["Open"; "High"; "Low"; "Close"; "Volume"].

(** every stock of the analyzer is stored under its own symbol and has
    closing prices *)
Definition analyzer_ok (stocks : gmap string (StockData A)) : Prop :=
  forall s sd, stocks !! s = Some sd ->
    symbol sd = s /\ 1 <= length (get_closing_prices sd).

End Loading.
Arguments csv_row A : clear implicits.
Arguments raw_array A : clear implicits.

(** ** The console loops of [main.py]

    The lines typed at the prompts are a list, each the value of
    [int(input(...))]: an integer, or [None] when the text is not one
    ([ValueError]).  [stocks] enters through [list(stocks.keys())], the
    keys in insertion order. *)

Inductive console (T : Type) : Type :=
| Returned (x : T) (rest : list (option Z))   (* the value, and the lines not read *)
| Failed (e : exn)                            (* an exception that is not caught *)
| Waiting.                                    (* every line is read, the prompt is up *)
Arguments Returned {T} x rest.
Arguments Failed {T} e.
Arguments Waiting {T}.

Fixpoint show_stock_options (keys : list string) (inputs : list (option Z))
  : console string :=
  match inputs with
  | [] => Waiting
  | None :: inputs => show_stock_options keys inputs
  | Some choice :: inputs =>
      if ((1 <=? choice) && (choice <=? Z.of_nat (length keys)))%Z then
        match py_get keys (choice - 1) with
        | Ok symbol => Returned symbol inputs
        | Raise e => Failed e
        end
      else show_stock_options keys inputs
  end.

Fixpoint display_menu (inputs : list (option Z)) : console Z :=
  match inputs with
  | [] => Waiting
  | None :: inputs => display_menu inputs
  | Some choice :: inputs =>
      if ((1 <=? choice) && (choice <=? 7))%Z then Returned choice inputs
      else display_menu inputs
  end.

(** the [while] loop of [select_multiple_stocks] *)
Fixpoint select_loop (keys : list string) (min_count max_count : nat)
    (inputs : list (option Z)) (selected : list string) : console (list string) :=
  if length selected <? max_count then
    match inputs with
    | [] => Waiting
    | None :: inputs => select_loop keys min_count max_count inputs selected
    | Some choice :: inputs =>
        if (choice =? 0)%Z then
          if min_count <=? length selected then Returned selected inputs
          else select_loop keys min_count max_count inputs selected
        else if ((1 <=? choice) && (choice <=? Z.of_nat (length keys)))%Z then
          match py_get keys (choice - 1) with
          | Ok symbol =>
              if decide (symbol ∈ selected)
              then select_loop keys min_count max_count inputs selected
              else select_loop keys min_count max_count inputs (selected ++ [symbol])
          | Raise e => Failed e
          end
        else select_loop keys min_count max_count inputs selected
    end
  else Returned selected inputs.

Definition select_multiple_stocks (keys : list string) (min_count max_count : nat)
    (inputs : list (option Z)) : console (list string) :=
  if length keys <? min_count then Returned [] inputs
  else select_loop keys min_count max_count inputs [].

(** ** [StockVisualizer]: the numbers behind the scatter plot and the report *)

Section Visualizer.
Context {A : Type} `{Num A}.

(** lines 125-148 of [plot_correlation_scatter]: the coefficient in the
    title of the plot; [None] at the two early returns *)
Definition scatter_corr (stocks : gmap string (StockData A))
    (selected_symbols : list string) : result (option A) :=
  match selected_symbols with
  | [sym1; sym2] =>
      match stocks !! sym1, stocks !! sym2 with
      | Some stock1, Some stock2 =>
          let prices1 := get_closing_prices stock1 in
          let prices2 := get_closing_prices stock2 in
          let min_length := Nat.min (length prices1) (length prices2) in
          let prices1 := py_last prices1 min_length in
          let prices2 := py_last prices2 min_length in
          let* returns1 :=
            broadcast2 ndiv (np_diff prices1) (take (length prices1 - 1) prices1) in
          let* returns2 :=
            broadcast2 ndiv (np_diff prices2) (take (length prices2 - 1) prices2) in
          let* corr := np_corrcoef01 returns1 returns2 in
          Ok (Some corr)
      | _, _ => Ok None
      end
  | _ => Ok None
  end.

(** [l[-1] if len(l) > 0 else None] *)
Definition latest (l : list A) : result (option A) :=
  if 0 <? length l then let* v := py_get l (-1) in Ok (Some v) else Ok None.

(** the truth value of a float or [None]: [None] and zero are false, NaN
    is true *)
Definition truthy (x : option A) : bool :=
  match x with
  | Some v => negb (neqb v (of_Z 0))
  | None => false
  end.

Definition rsi_status (current_rsi : option A) : string :=
  match current_rsi with
  | Some r =>
      if truthy current_rsi && (of_Z 70 <?^ r) then "Overbought"
      else if truthy current_rsi && (r <?^ of_Z 30) then "Oversold"
      else "Neutral"
  | None => "Neutral"
  end.

Definition macd_trend (current_macd current_signal : option A) : string :=
  match current_macd, current_signal with
  | Some m, Some s =>
      if truthy current_macd && truthy current_signal && (s <?^ m)
      then "Bullish" else "Bearish"
  | _, _ => "Bearish"
  end.

(** [upper] and [lower] are the last entries of the bands, [None] for an
    empty band *)
Definition bollinger_status (current_price upper lower : option A) : string :=
  if match current_price, upper with
     | Some p, Some u => truthy current_price && (u <?^ p)
     | _, _ => false
     end
  then "Price above upper band (Potential overbought)"
  else if match current_price, lower with
          | Some p, Some l => truthy current_price && (p <?^ l)
          | _, _ => false
          end
  then "Price below lower band (Potential oversold)"
  else "Price within bands".

(** the three votes, each a pair (bullish, bearish) *)
Definition rsi_votes (current_rsi : option A) : nat * nat :=
  match current_rsi with
  | Some r =>
      if r <?^ of_Z 30 then (1, 0)
      else if of_Z 70 <?^ r then (0, 1) else (0, 0)
  | None => (0, 0)
  end.

Definition macd_votes (current_macd current_signal : option A) : nat * nat :=
  match current_macd, current_signal with
  | Some m, Some s => if s <?^ m then (1, 0) else (0, 1)
  | _, _ => (0, 0)
  end.

(** comparing [None] with a float is a [TypeError] *)
Definition bollinger_votes (current_price upper lower : option A) : result (nat * nat) :=
  match upper, lower with
  | Some u, Some l =>
      match current_price with
      | Some p =>
          if p <?^ l then Ok (1, 0)
          else if u <?^ p then Ok (0, 1) else Ok (0, 0)
      | None => Raise TypeError
      end
  | _, _ => Ok (0, 0)
  end.

Definition recommendation_of (bullish_signals bearish_signals : nat) : string :=
  if bearish_signals <? bullish_signals then "Bullish - Consider buying/holding"
  else if bullish_signals <? bearish_signals then "Bearish - Consider selling/waiting"
  else "Neutral - Monitor for clearer signals".

(** an entry of [report_data], without the charts *)
Record report_entry : Type := {
  report_symbol : string;
  report_price : option A;
  report_rsi : option A;
  report_rsi_status : string;
  report_macd : option A;
  report_signal : option A;
  report_trend : string;
  report_upper : option A;
  report_lower : option A;
  report_bollinger_status : string;
  report_recommendation : string
}.

(** the body of the loop of [generate_comprehensive_report] for a stock
    that is loaded *)
Definition stock_report (symbol : string) (prices : list A) : result report_entry :=
  let* rsi := calculate_rsi prices 14 in
  let* '(macd, signal) := calculate_macd prices 12 26 9 in
  let* '(sma, upper_band, lower_band) :=
    calculate_bollinger_bands prices 20 (of_Z 2) in
  let* current_rsi := latest rsi in
  let* current_macd := latest macd in
  let* current_signal := latest signal in
  let* current_price := latest prices in
  let* upper := latest upper_band in
  let* lower := latest lower_band in
  let '(b1, s1) := rsi_votes current_rsi in
  let '(b2, s2) := macd_votes current_macd current_signal in
  let* '(b3, s3) := bollinger_votes current_price upper lower in
  Ok {| report_symbol := symbol;
        report_price := current_price;
        report_rsi := current_rsi;
        report_rsi_status := rsi_status current_rsi;
        report_macd := current_macd;
        report_signal := current_signal;
        report_trend := macd_trend current_macd current_signal;
        report_upper := upper;
        report_lower := lower;
        report_bollinger_status := bollinger_status current_price upper lower;
        report_recommendation := recommendation_of (b1 + b2 + b3) (s1 + s2 + s3) |}.

(** [generate_comprehensive_report]: the dict it returns *)
Definition generate_comprehensive_report (stocks : gmap string (StockData A))
    (symbols : list string) : result (dict report_entry) :=
  for_each symbols
    (fun symbol report_data =>
       match stocks !! symbol with
       | None => Ok report_data
       | Some stock =>
           let* stock_data := stock_report symbol (get_closing_prices stock) in
           Ok (dict_set symbol stock_data report_data)
       end)
    [].

End Visualizer.
Arguments report_entry A : clear implicits.

(** ** Predicates of the statements and invariants of the loops *)

Section Predicates.
Context {A : Type} `{Num A}.
Implicit Types (prices ema : list A) (window : nat) (P : A -> Prop).
Implicit Types (stocks : gmap string (StockData A)).
Implicit Types (price_data aligned : dict (list A)) (min_length : option nat).

(** what the loop of [calculate_ema] has established when it is about
    to run iteration [k] *)
Definition ema_inv prices window (k : nat) ema : Prop :=
  let alpha := of_Z 2 /^ of_Z (Z.of_nat window + 1) in
  length ema = length prices /\
  (forall i, i < window -> ema !! i = Some (ncast (np_mean (take window prices)))) /\
  (forall i, window <= i < k ->
     exists p e, prices !! i = Some p /\ ema !! (i - 1) = Some e /\
       ema !! i = Some (ncast (alpha *^ p +^ (of_Z 1 -^ alpha) *^ e))).

(** an average array while the loop is about to run iteration [k]:
    entries [window..k-1] have been written and satisfy [P], the others
    are still the zeros of [np.zeros_like] *)
Definition avg_inv P prices window (k : nat) (avg : list A) : Prop :=
  length avg = length prices /\
  forall i v, avg !! i = Some v ->
    if decide (window <= i < k) then P v else v = of_Z 0.

(** a requested symbol with no usable price data: not in [stocks], or
    there with zero closing prices *)
Definition missing_data stocks (s : string) : Prop :=
  match stocks !! s with
  | Some sd => length (get_closing_prices sd) = 0
  | None => True
  end.

(** [min_length] is at least 1 once set, and every stored price array
    has at least [min_length] entries *)
Definition lengths_ok price_data min_length : Prop :=
  (forall m, min_length = Some m -> 1 <= m) /\
  Forall (fun kv : string * list A =>
            exists m, min_length = Some m /\ m <= length kv.2) price_data.

(** the computation of one matrix entry: lines 114-117 *)
Definition corr_at aligned (i j : nat) : result A :=
  let symbols_list := dict_keys aligned in
  let* sym1 := py_get symbols_list (Z.of_nat i) in
  let* sym2 := py_get symbols_list (Z.of_nat j) in
  let* r1 := dict_get sym1 aligned in
  let* r2 := dict_get sym2 aligned in
  np_corrcoef01 r1 r2.

(** the matrix while the loops are at row [i], column [j]: [n] rows of
    [n] entries, those before [(i, j)] in row-major order already set *)
Definition mat_inv (n : nat) (c : nat -> nat -> A) (i j : nat) (m : list (list A))
  : Prop :=
  length m = n /\
  forall i', i' < n ->
    exists row, m !! i' = Some row /\ length row = n /\
      forall j', j' < n -> i' < i \/ (i' = i /\ j' < j) -> row !! j' = Some (c i' j').

End Predicates.

(** zero or more, possibly infinite, or undefined: what a smoothed average
    of gains (or of losses) can be *)
Definition nonneg_ext (v : xreal) : Prop :=
  match v with
  | Fin r => (0 <= r)%R
  | PInf | NaN => True
  | NInf => False
  end.

(** the Wilder step keeps an average non-negative (or undefined); with
    [window = 0] the seed is the mean of an empty slice, NaN, and stays *)
Definition avg_ok window v : Prop := nonneg_ext v /\ (window = 0%nat -> v = NaN).

(** a return series whose sample variance is a finite, nonzero number *)
Definition nondegenerate (r : list xreal) : Prop :=
  exists v, np_cov_entry r r = Fin v /\ v <> 0%R.

(** the day-over-day differences of a price series *)
Definition Rdiff (ps : list R) : list R := zip_with Rminus (tail ps) ps.

(** a finite, positive value *)
Definition posfin (v : xreal) : Prop := exists r, v = Fin r /\ (0 < r)%R.

(** a finite value between two bounds *)
Definition within (lo hi : R) (v : xreal) : Prop :=
  exists r, v = Fin r /\ (lo <= r <= hi)%R.

(** the keys of a dict after assigning to [k]: an old key keeps its place,
    a new one goes to the end *)
Definition add_key (keys : list string) (k : string) : list string :=
  if decide (k ∈ keys) then keys else keys ++ [k].

(** a loaded stock the report cannot be made for: its price count is
    between the short and the long MACD window *)
Definition unreportable {A : Type} `{Num A} (stocks : gmap string (StockData A))
    (s : string) : Prop :=
  exists sd, stocks !! s = Some sd /\ 12 <= length (get_closing_prices sd) <= 25.

(** ** Sample data *)

Definition two_stocks : gmap string (StockData float) :=
  <["A" := stock_of_closes "A" [1; 2; 4; 3; 5]%float]>
    (<["B" := stock_of_closes "B" [9; 7; 8; 7; 6; 2]%float]> ∅).

Definition identical_returns : gmap string (StockData float) :=
  <["A" := stock_of_closes "A" [1; 2; 3]%float]>
    (<["B" := stock_of_closes "B" [4; 8; 12]%float]> ∅).

Definition exact_stocks : gmap string (StockData xreal) :=
  <["A" := stock_of_closes "A" [Fin 1; Fin 2; Fin 3]]>
    (<["B" := stock_of_closes "B" [Fin 2; Fin 1; Fin 2]]> ∅).

Definition one_stock : gmap string (StockData float) :=
  <["A" := stock_of_closes "A" [1; 2; 4]%float]>
    (<["C" := {| symbol := "C"; data := None |}]> ∅).

(** twenty-six prices, each one less than the one before *)
Definition falling_prices : list R := (fun k => (100 - INR k)%R) <$> seq 0 26.

(** a date parser that accepts every string *)
Definition any_date (date : string) : result unit := Ok tt.

Definition sample_row : csv_row float :=
  {| row_date := "2024-01-02";
     row_bar := {| bar_open := 1; bar_high := 3; bar_low := 1; bar_close := 2;
                   bar_volume := 10 |}%float |}.

(** a file system in which every path holds the same two rows *)
Definition two_rows (file_path : string) : result (raw_array float) :=
  Ok (Rows ["Date"; "Open"; "High"; "Low"; "Close"; "Volume"] [sample_row; sample_row]).

(** ** Tactics for the exact model *)

(** case analysis on the comparisons of reals in sight *)
Ltac xreal_dec :=
  repeat match goal with
    | |- context [Rlt_dec ?a ?b] => destruct (Rlt_dec a b)
    | |- context [Req_dec_T ?a ?b] => destruct (Req_dec_T a b)
    | H : context [Rlt_dec ?a ?b] |- _ => destruct (Rlt_dec a b)
    | H : context [Req_dec_T ?a ?b] |- _ => destruct (Req_dec_T a b)
    end.

(** evaluation of the exact model on concrete numbers: compute, and settle
    each comparison of reals by linear arithmetic *)
Ltac xreal_cbv :=
  cbv -[Rplus Rminus Rmult Rdiv Rinv Ropp IZR Rlt_dec Req_dec_T sqrt Rlt Rle Rgt Rge].

Ltac xreal_step :=
  match goal with
  | |- context [Rlt_dec ?a ?b] =>
      destruct (Rlt_dec a b); [try (exfalso; lra) | try (exfalso; lra)]
  | |- context [Req_dec_T ?a ?b] =>
      destruct (Req_dec_T a b); [try (exfalso; lra) | try (exfalso; lra)]
  end.

Ltac xreal_eq :=
  repeat lazymatch goal with
    | |- Fin _ = Fin _ => apply (f_equal Fin); lra
    | |- @eq xreal ?a ?a => reflexivity
    | |- @eq (list _) (_ :: _) (_ :: _) => apply f_equal2
    | |- @eq (list _) [] [] => reflexivity
    | |- Ok _ = Ok _ => apply f_equal
    | |- Some _ = Some _ => apply f_equal
    | |- (_, _) = (_, _) => apply f_equal2
    | |- @eq string _ _ => reflexivity
    end.

Ltac xreal_run := repeat first [progress xreal_cbv | xreal_step]; xreal_eq.

(** a character that a string does not contain *)
Ltac no_char :=
  unfold chars; simpl;
  repeat (apply not_elem_of_cons; split; [done|]); apply not_elem_of_nil.

(** ** Basic facts about the Python and numpy primitives *)

Section PyListFacts.
Context {A : Type}.
Implicit Types (l : list A) (x : A) (k n : nat).

Lemma py_index_nat n k : k < n -> py_index n (Z.of_nat k) = Some k.
Proof.
  intros Hk. unfold py_index.
  destruct (Z.leb_spec 0 (Z.of_nat k)); [|lia].
  destruct (Z.ltb_spec (Z.of_nat k) (Z.of_nat n)); [|lia].
  by rewrite Nat2Z.id.
Qed.

Lemma py_index_nat_ge n k : n <= k -> py_index n (Z.of_nat k) = None.
Proof.
  intros Hk. unfold py_index.
  destruct (Z.leb_spec 0 (Z.of_nat k)); [|lia].
  destruct (Z.ltb_spec (Z.of_nat k) (Z.of_nat n)); [lia|done].
Qed.

Lemma py_get_nat l k x : l !! k = Some x -> py_get l (Z.of_nat k) = Ok x.
Proof.
  intros Hx. unfold py_get.
  rewrite py_index_nat; [by rewrite Hx|]. by eapply lookup_lt_Some.
Qed.

Lemma py_get_pred l k x :
  1 <= k -> l !! (k - 1) = Some x -> py_get l (Z.of_nat k - 1) = Ok x.
Proof.
  intros Hk Hx. replace (Z.of_nat k - 1)%Z with (Z.of_nat (k - 1)) by lia.
  by apply py_get_nat.
Qed.

Lemma py_set_nat l k x : k < length l -> py_set l (Z.of_nat k) x = Ok (<[k:=x]> l).
Proof. intros Hk. unfold py_set. by rewrite py_index_nat. Qed.

Lemma py_set_nat_ge l k x : length l <= k -> py_set l (Z.of_nat k) x = Raise IndexError.
Proof. intros Hk. unfold py_set. by rewrite py_index_nat_ge. Qed.

Lemma length_py_fill_prefix l n x : length (py_fill_prefix l n x) = length l.
Proof.
  unfold py_fill_prefix. rewrite length_app, length_replicate, length_drop. lia.
Qed.

Lemma lookup_py_fill_prefix_lt l n x i :
  i < n -> n <= length l -> py_fill_prefix l n x !! i = Some x.
Proof.
  intros Hi Hn. unfold py_fill_prefix.
  rewrite lookup_app_l by (rewrite length_replicate; lia).
  apply lookup_replicate_2. lia.
Qed.

Lemma length_py_slice l i n : i + n <= length l -> length (py_slice l i n) = n.
Proof. intros Hi. unfold py_slice. rewrite length_take, length_drop. lia. Qed.

Lemma length_py_last l n : 1 <= n <= length l -> length (py_last l n) = n.
Proof.
  intros Hn. unfold py_last. destruct n as [|n]; [lia|]. rewrite length_drop. lia.
Qed.

End PyListFacts.

(** the invariant rule of [for i in range(lo, hi)] *)
Lemma for_range_inv {St : Type} (Inv : nat -> St -> Prop) (lo hi : nat)
    (body : nat -> St -> result St) (s : St) :
  lo <= hi ->
  Inv lo s ->
  (forall i t, lo <= i < hi -> Inv i t -> exists t', body i t = Ok t' /\ Inv (i + 1) t') ->
  exists t, for_range lo hi body s = Ok t /\ Inv hi t.
Proof.
  unfold for_range. intros Hle H0 Hstep.
  remember (hi - lo) as d eqn:Hd.
  revert lo s Hle H0 Hstep Hd.
  induction d as [|d IH]; intros lo s Hle H0 Hstep Hd; simpl.
  - exists s. by replace hi with lo by lia.
  - destruct (Hstep lo s) as (t' & -> & Ht'); [lia | done |]. simpl.
    replace (S lo) with (lo + 1) by lia.
    apply IH; [lia | done | | lia].
    intros i t Hi. apply Hstep. lia.
Qed.

Lemma for_range_empty {St : Type} (lo hi : nat) (body : nat -> St -> result St) (s : St) :
  hi <= lo -> for_range lo hi body s = Ok s.
Proof. intros Hle. unfold for_range. by replace (hi - lo) with 0 by lia. Qed.

Section NumpyFacts.
Context {A : Type} `{Num A}.
Implicit Types (l a b : list A) (f : A -> A -> A).

Lemma length_np_zeros_like l : length (np_zeros_like l) = length l.
Proof. apply length_replicate. Qed.

Lemma length_np_diff l : length (np_diff l) = length l - 1.
Proof.
  unfold np_diff. rewrite length_zip_with.
  destruct l; simpl; lia.
Qed.

Lemma length_np_where0 c (g : A -> A) l : length (np_where0 c g l) = length l.
Proof. apply length_fmap. Qed.

Lemma broadcast2_same f a b :
  length a = length b -> broadcast2 f a b = Ok (zip_with f a b).
Proof. intros Hl. unfold broadcast2. by rewrite decide_True. Qed.

Lemma broadcast2_nil f : broadcast2 f [] [] = Ok [].
Proof. done. Qed.

(** shapes (n,) and (0,) with n >= 2 do not broadcast *)
Lemma broadcast2_nil_r f a : 2 <= length a -> broadcast2 f a [] = Raise ValueError.
Proof.
  intros Hl. unfold broadcast2.
  destruct a as [|x [|y a]]; simpl in Hl; try lia.
  case_decide; [simpl in *; lia | done].
Qed.

Lemma np_convolve_valid_ok a b :
  1 <= length b <= length a ->
  np_convolve_valid a b = Ok (np_correlate_valid a (reverse b)).
Proof.
  intros Hl. unfold np_convolve_valid.
  destruct (Nat.ltb_spec (length a) (length b)); [lia|].
  destruct a; [simpl in *; lia|]. destruct b; [simpl in *; lia|]. done.
Qed.

End NumpyFacts.

(** ** The moving averages: shape and recurrence *)

Section EmaFacts.
Context {A : Type} `{Num A}.
Implicit Types (prices ema : list A) (window : nat).

Lemma calculate_ema_short prices window :
  length prices < window -> calculate_ema prices window = Ok [].
Proof.
  intros Hlt. unfold calculate_ema.
  destruct (Nat.ltb_spec (length prices) window); [done | lia].
Qed.

Lemma calculate_ema_long prices window :
  1 <= window <= length prices ->
  exists ema, calculate_ema prices window = Ok ema /\
    ema_inv prices window (length prices) ema.
Proof.
  intros [Hw Hlen]. unfold calculate_ema.
  destruct (Nat.ltb_spec (length prices) window) as [|_]; [lia|].
  apply for_range_inv; [done | |].
  - repeat split.
    + by rewrite length_py_fill_prefix, length_np_zeros_like.
    + intros i Hi. apply lookup_py_fill_prefix_lt; [done|].
      by rewrite length_np_zeros_like.
    + intros i Hi. lia.
  - intros i ema Hi (Hl & Hseed & Hrec).
    destruct (lookup_lt_is_Some_2 prices i) as [p Hp]; [lia|].
    destruct (lookup_lt_is_Some_2 ema (i - 1)) as [e He]; [lia|].
    rewrite (py_get_nat _ _ _ Hp). simpl.
    rewrite (py_get_pred ema i e); [|lia|done]. simpl.
    rewrite py_set_nat by lia.
    eexists; split; [done|]. repeat split.
    + by rewrite length_insert.
    + intros j Hj. rewrite list_lookup_insert_ne by lia. by apply Hseed.
    + intros j Hj. destruct (decide (j = i)) as [->|Hne].
      * exists p, e. repeat split; [done | |].
        -- by rewrite list_lookup_insert_ne by lia.
        -- by rewrite list_lookup_insert_eq by lia.
      * destruct (Hrec j) as (p' & e' & Hp' & He' & Hj'); [lia|].
        exists p', e'. repeat split; [done | |].
        -- by rewrite list_lookup_insert_ne by lia.
        -- by rewrite list_lookup_insert_ne by lia.
Qed.

(** On a price array whose dtype holds every float64 (a float64 array),
    and for [len(prices) >= window >= 1], [calculate_ema] returns an array
    as long as [prices]; its first [window] entries all equal the mean of
    [prices[:window]], and every later entry [i] is
    [alpha*prices[i] + (1-alpha)*ema[i-1]] with [alpha = 2/(window+1)].
    For [len(prices) < window] it returns the empty array.  The mean is
    [np_mean]: on binary64 it is numpy's up to the order of the additions. *)
Lemma calculate_ema_float64 prices window :
  (forall x : A, ncast x = x) ->
  1 <= window ->
  (length prices < window -> calculate_ema prices window = Ok []) /\
  (window <= length prices ->
     let alpha := of_Z 2 /^ of_Z (Z.of_nat window + 1) in
     exists ema, calculate_ema prices window = Ok ema /\
       length ema = length prices /\
       (forall i, i < window -> ema !! i = Some (np_mean (take window prices))) /\
       (forall i, window <= i < length prices ->
          exists p e, prices !! i = Some p /\ ema !! (i - 1) = Some e /\
            ema !! i = Some (alpha *^ p +^ (of_Z 1 -^ alpha) *^ e))).
Proof.
  intros Hcast Hw. split; [apply calculate_ema_short|].
  intros Hlen.
  destruct (calculate_ema_long prices window) as (ema & Hema & Hl & Hseed & Hrec); [lia|].
  exists ema. split; [done|]. split; [done|]. split.
  - intros i Hi. rewrite (Hseed i Hi). by rewrite Hcast.
  - intros i Hi. destruct (Hrec i Hi) as (p & e & Hp & He & Hv).
    exists p, e. rewrite Hcast in Hv. done.
Qed.

End EmaFacts.

(** ** MACD on short inputs *)

Section MacdFacts.
Context {A : Type} `{Num A}.
Implicit Types (prices : list A).

Lemma calculate_ema_nil window : calculate_ema ([] : list A) window = Ok [].
Proof. by destruct window. Qed.

(** shorter than both windows: two empty lines *)
Lemma calculate_macd_shorter_than_both prices short_window long_window signal_window :
  length prices < short_window -> length prices < long_window ->
  calculate_macd prices short_window long_window signal_window = Ok ([], []).
Proof.
  intros Hs Hl. unfold calculate_macd.
  rewrite !calculate_ema_short by done. simpl.
  by rewrite calculate_ema_nil.
Qed.

(** between the two windows: the subtraction of a full-length array and
    an empty one does not broadcast *)
Lemma calculate_macd_between prices short_window long_window signal_window :
  1 <= short_window <= length prices -> length prices < long_window ->
  2 <= length prices ->
  calculate_macd prices short_window long_window signal_window = Raise ValueError.
Proof.
  intros Hs Hl Hn. unfold calculate_macd.
  destruct (calculate_ema_long prices short_window) as (ema & -> & Hlen & _); [done|].
  rewrite calculate_ema_short by done. simpl.
  rewrite broadcast2_nil_r by lia. done.
Qed.

End MacdFacts.

(** ** RSI: shape, and an invariant of the two smoothed averages *)

Section RsiFacts.
Context {A : Type} `{Num A}.
Implicit Types (prices : list A) (window : nat) (P : A -> Prop).

Lemma calculate_rsi_short prices window :
  length prices < window -> calculate_rsi prices window = Ok [].
Proof.
  intros Hlt. unfold calculate_rsi.
  destruct (Nat.ltb_spec (length prices) window); [done | lia].
Qed.

(** the guard lets [len(prices) == window] through, and the store
    [avg_gain[window] = ...] is then out of bounds *)
Lemma rsi_averages_IndexError prices window :
  length prices <= window -> rsi_averages prices window = Raise IndexError.
Proof.
  intros Hle. unfold rsi_averages.
  rewrite py_set_nat_ge; [done|]. by rewrite length_np_zeros_like.
Qed.

Lemma calculate_rsi_IndexError prices window :
  length prices = window -> calculate_rsi prices window = Raise IndexError.
Proof.
  intros Heq. unfold calculate_rsi.
  destruct (Nat.ltb_spec (length prices) window); [lia|].
  rewrite rsi_averages_IndexError by lia. done.
Qed.

Lemma avg_inv_init P prices window m :
  window < length prices -> P m ->
  avg_inv P prices window (window + 1) (<[window:=m]> (np_zeros_like prices)).
Proof.
  intros Hlen Hm. split.
  - by rewrite length_insert, length_np_zeros_like.
  - intros i v Hv. destruct (decide (i = window)) as [->|Hne].
    + rewrite list_lookup_insert_eq in Hv by (rewrite length_np_zeros_like; lia).
      rewrite decide_True by lia. congruence.
    + rewrite list_lookup_insert_ne in Hv by done.
      rewrite decide_False by lia.
      unfold np_zeros_like in Hv. apply lookup_replicate in Hv. tauto.
Qed.

Lemma avg_inv_step P prices window i avg x :
  window + 1 <= i < length prices -> P x ->
  avg_inv P prices window i avg ->
  avg_inv P prices window (i + 1) (<[i:=x]> avg).
Proof.
  intros Hi Hx [Hl Hv]. split; [by rewrite length_insert|].
  intros j v Hj. destruct (decide (j = i)) as [->|Hne].
  - rewrite list_lookup_insert_eq in Hj by lia.
    rewrite decide_True by lia. congruence.
  - rewrite list_lookup_insert_ne in Hj by done.
    specialize (Hv j v Hj).
    destruct (decide (window <= j < i)); [rewrite decide_True by lia|
                                          rewrite decide_False by lia]; done.
Qed.

Lemma avg_inv_prev P prices window i avg :
  window + 1 <= i < length prices ->
  avg_inv P prices window i avg ->
  exists v, avg !! (i - 1) = Some v /\ P v.
Proof.
  intros Hi [Hl Hv].
  destruct (lookup_lt_is_Some_2 avg (i - 1)) as [v Hlk]; [lia|].
  exists v. split; [done|]. specialize (Hv _ _ Hlk).
  by rewrite decide_True in Hv by lia.
Qed.

(** [rsi_averages] returns when [window < len(prices)], and a property
    [P] that the seed has and the Wilder step keeps holds of every entry
    from [window] on; the entries before are zero *)
Lemma rsi_averages_inv P prices window :
  window < length prices ->
  let gains := rsi_gains (np_diff prices) in
  let losses := rsi_losses (np_diff prices) in
  P (ncast (np_mean (take window gains))) ->
  P (ncast (np_mean (take window losses))) ->
  (forall g1 g, P g1 -> g ∈ gains -> P (ncast (wilder window g1 g))) ->
  (forall l1 l, P l1 -> l ∈ losses -> P (ncast (wilder window l1 l))) ->
  exists avg_gain avg_loss,
    rsi_averages prices window = Ok (avg_gain, avg_loss) /\
    avg_inv P prices window (length prices) avg_gain /\
    avg_inv P prices window (length prices) avg_loss.
Proof.
  intros Hlen gains losses Hg0 Hl0 Hgs Hls. unfold rsi_averages.
  rewrite !py_set_nat by (rewrite length_np_zeros_like; lia). simpl.
  fold gains losses.
  destruct (for_range_inv
    (fun k st => avg_inv P prices window k st.1 /\ avg_inv P prices window k st.2)
    (window + 1) (length prices)
    (fun i '(avg_gain, avg_loss) =>
       let* g1 := py_get avg_gain (Z.of_nat i - 1) in
       let* g := py_get gains (Z.of_nat i - 1) in
       let* avg_gain := py_set avg_gain (Z.of_nat i) (ncast (wilder window g1 g)) in
       let* l1 := py_get avg_loss (Z.of_nat i - 1) in
       let* l := py_get losses (Z.of_nat i - 1) in
       let* avg_loss := py_set avg_loss (Z.of_nat i) (ncast (wilder window l1 l)) in
       Ok (avg_gain, avg_loss))
    (<[window:=ncast (np_mean (take window gains))]> (np_zeros_like prices),
     <[window:=ncast (np_mean (take window losses))]> (np_zeros_like prices)))
    as ([ag al] & Hrun & Hag & Hal).
  - lia.
  - split; by apply avg_inv_init.
  - intros i [ag al] Hi [Hag Hal]; simpl in Hag, Hal.
    destruct (avg_inv_prev _ _ _ _ _ Hi Hag) as (g1 & Hg1 & HPg1).
    destruct (avg_inv_prev _ _ _ _ _ Hi Hal) as (l1 & Hl1 & HPl1).
    destruct (lookup_lt_is_Some_2 gains (i - 1)) as [g Hg].
    { unfold gains, rsi_gains. rewrite length_np_where0, length_np_diff. lia. }
    destruct (lookup_lt_is_Some_2 losses (i - 1)) as [l Hl].
    { unfold losses, rsi_losses. rewrite length_np_where0, length_np_diff. lia. }
    rewrite (py_get_pred ag i g1); [|lia|done]. simpl.
    rewrite (py_get_pred gains i g); [|lia|done]. simpl.
    rewrite py_set_nat by (destruct Hag; lia). simpl.
    rewrite (py_get_pred al i l1); [|lia|done]. simpl.
    rewrite (py_get_pred losses i l); [|lia|done]. simpl.
    rewrite py_set_nat by (destruct Hal; lia). simpl.
    eexists; split; [done|]. simpl. split.
    + apply avg_inv_step; [done | | done].
      apply Hgs; [done|]. by eapply list_elem_of_lookup_2.
    + apply avg_inv_step; [done | | done].
      apply Hls; [done|]. by eapply list_elem_of_lookup_2.
  - exists ag, al. done.
Qed.

Lemma rsi_averages_length prices window avg_gain avg_loss :
  rsi_averages prices window = Ok (avg_gain, avg_loss) ->
  window < length prices /\
  length avg_gain = length prices /\ length avg_loss = length prices.
Proof.
  intros Hrun.
  destruct (decide (window < length prices)) as [Hlt|Hge].
  - destruct (rsi_averages_inv (fun _ => True) prices window Hlt)
      as (ag & al & Hrun' & [Hag _] & [Hal _]); try done.
    rewrite Hrun in Hrun'. by simplify_eq.
  - rewrite rsi_averages_IndexError in Hrun by lia. done.
Qed.

(** above the guard's off-by-one the function is total and keeps the length *)
Lemma calculate_rsi_long prices window :
  window < length prices ->
  exists rsi, calculate_rsi prices window = Ok rsi /\ length rsi = length prices.
Proof.
  intros Hlen. unfold calculate_rsi.
  destruct (Nat.ltb_spec (length prices) window); [lia|].
  destruct (rsi_averages_inv (fun _ => True) prices window Hlen)
    as (ag & al & -> & [Hag _] & [Hal _]); try done.
  simpl. rewrite broadcast2_same by congruence. simpl.
  eexists; split; [done|].
  rewrite length_fmap, length_zip_with. lia.
Qed.

End RsiFacts.

(** ** The correlation matrix: the failure value *)

Section CorrelationFailure.
Context {A : Type} `{Num A}.
Implicit Types (stocks : gmap string (StockData A)) (symbols : list string).

Lemma first_pass_missing stocks symbols s price_data min_length :
  s ∈ symbols -> missing_data stocks s ->
  first_pass stocks symbols price_data min_length = None.
Proof.
  intros Hin Hmiss. revert price_data min_length.
  induction symbols as [|s' symbols IH]; intros price_data min_length.
  - by apply elem_of_nil in Hin.
  - simpl. apply elem_of_cons in Hin as [<-|Hin].
    + unfold missing_data in Hmiss. destruct (stocks !! s) as [sd|]; [|done].
      by rewrite Hmiss.
    + destruct (stocks !! s') as [sd|]; [|done].
      destruct (0 <? length (get_closing_prices sd)); [|done].
      by apply IH.
Qed.

(** C9. When some requested symbol is absent from [stocks] or has zero
    price observations, [calculate_correlation_matrix] gives up on the
    whole request: it returns the failure value [None], never a symbol
    list or a (partial) matrix. *)
Theorem correlation_missing_data_is_None stocks symbols s :
  s ∈ symbols -> missing_data stocks s ->
  calculate_correlation_matrix stocks symbols = Ok None.
Proof.
  intros Hin Hmiss. unfold calculate_correlation_matrix.
  destruct (length symbols <? 2); [done|].
  by rewrite (first_pass_missing _ _ s).
Qed.

(** C10. With fewer than two symbols [calculate_correlation_matrix]
    returns the failure value [None]: no symbol list, no matrix. *)
Theorem correlation_fewer_than_two_is_None stocks symbols :
  length symbols < 2 ->
  calculate_correlation_matrix stocks symbols = Ok None.
Proof.
  intros Hlen. unfold calculate_correlation_matrix.
  destruct (Nat.ltb_spec (length symbols) 2); [done | lia].
Qed.

End CorrelationFailure.

(** ** Exact arithmetic: finite values stay finite *)

Section XrealFacts.
Implicit Types (a b c : R) (l : list R).

Lemma of_nat_xreal (n : nat) : of_Z (Z.of_nat n) = Fin (INR n).
Proof. simpl. by rewrite INR_IZR_INZ. Qed.

Lemma xdiv_Fin a b : b <> 0%R -> Fin a /^ Fin b = Fin (a / b).
Proof. intros Hb. simpl. by destruct (Req_dec_T b 0). Qed.

Lemma xdiv_Fin_nat a (n : nat) :
  1 <= n -> Fin a /^ of_Z (Z.of_nat n) = Fin (a / INR n).
Proof.
  intros Hn. rewrite of_nat_xreal. apply xdiv_Fin.
  apply not_0_INR. lia.
Qed.

Lemma xsqrt_Fin a : (0 <= a)%R -> nsqrt (Fin a) = Fin (sqrt a).
Proof. intros Ha. simpl. destruct (Rlt_dec a 0); [lra | done]. Qed.

Lemma fold_left_xadd_Fin l a :
  fold_left nadd (Fin <$> l) (Fin a) = Fin (a + Rsum l).
Proof.
  revert a. induction l as [|x l IH]; intros a; simpl.
  - f_equal. lra.
  - rewrite IH. f_equal. lra.
Qed.

Lemma np_sum_Fin l : np_sum (Fin <$> l) = Fin (Rsum l).
Proof.
  destruct l as [|x l]; [done|]. unfold np_sum. simpl.
  apply fold_left_xadd_Fin.
Qed.

Lemma np_mean_Fin l : l <> [] -> np_mean (Fin <$> l) = Fin (arith_mean l).
Proof.
  intros Hl. unfold np_mean. rewrite np_sum_Fin, length_fmap.
  apply xdiv_Fin_nat. destruct l; simpl; [done | lia].
Qed.

Lemma Rsum_scale l c : Rsum ((fun x => x * c)%R <$> l) = (Rsum l * c)%R.
Proof. induction l as [|x l IH]; csimpl; [lra | rewrite IH; lra]. Qed.

Lemma Rsum_nonneg l : Forall (fun x => 0 <= x)%R l -> (0 <= Rsum l)%R.
Proof. induction 1; simpl; lra. Qed.

Lemma py_slice_fmap {T U : Type} (f : T -> U) (l : list T) i n :
  py_slice (f <$> l) i n = f <$> py_slice l i n.
Proof. unfold py_slice. by rewrite fmap_take, fmap_drop. Qed.

(** a dot product with a constant kernel *)
Lemma np_dot_replicate l c :
  np_dot (Fin <$> l) (replicate (length l) (Fin c)) = Fin (Rsum l * c).
Proof.
  unfold np_dot.
  replace (zip_with nmul (Fin <$> l) (replicate (length l) (Fin c)))
    with (Fin <$> ((fun x => x * c)%R <$> l)).
  - by rewrite np_sum_Fin, Rsum_scale.
  - induction l as [|x l IH]; csimpl; [done | by rewrite IH].
Qed.

End XrealFacts.

(** ** SMA over exact arithmetic *)

Section SmaFacts.
Implicit Types (ps : list R) (window : nat).

Lemma sma_kernel window :
  1 <= window ->
  (fun x : xreal => x /^ of_Z (Z.of_nat window)) <$> np_ones window
  = replicate window (Fin (1 / INR window)).
Proof.
  intros Hw. unfold np_ones. rewrite fmap_replicate.
  f_equal. by apply (xdiv_Fin_nat 1).
Qed.

(** with [window = 0] the kernel is empty and [np.convolve] refuses it *)
Lemma calculate_sma_window_zero {A : Type} `{Num A} (prices : list A) :
  calculate_sma prices 0 = Raise ValueError.
Proof. unfold calculate_sma. by destruct prices. Qed.

Lemma calculate_bollinger_bands_window_zero {A : Type} `{Num A}
    (prices : list A) (num_std : A) :
  calculate_bollinger_bands prices 0 num_std = Raise ValueError.
Proof.
  unfold calculate_bollinger_bands. cbn [Nat.ltb Nat.leb].
  by rewrite calculate_sma_window_zero.
Qed.

Lemma calculate_sma_long ps window :
  1 <= window <= length ps ->
  calculate_sma (Fin <$> ps) window
  = Ok ((fun i => Fin (arith_mean (py_slice ps i window)))
          <$> seq 0 (length ps - window + 1)).
Proof.
  intros [Hw Hlen]. unfold calculate_sma. rewrite length_fmap.
  destruct (Nat.ltb_spec (length ps) window); [lia|].
  rewrite sma_kernel by done.
  rewrite np_convolve_valid_ok by (rewrite length_fmap, length_replicate; lia).
  f_equal. unfold np_correlate_valid.
  rewrite reverse_replicate, length_replicate, length_fmap.
  apply list_fmap_ext. intros k i Hi. apply lookup_seq in Hi as [-> Hk].
  simpl. rewrite py_slice_fmap.
  assert (length (py_slice ps k window) = window) as Hsl
    by (apply length_py_slice; lia).
  rewrite <- Hsl at 2. rewrite np_dot_replicate.
  f_equal. unfold arith_mean. rewrite Hsl. lra.
Qed.

(** C1. For every window >= 1, [calculate_sma] returns
    [max(0, len(prices) - window + 1)] values, the one at each start
    offset [i] being the arithmetic mean of [prices[i:i+window]]; when
    [len(prices) < window] the result is the empty array, not an
    error.  (Exact arithmetic on finite prices.) *)
Theorem calculate_sma_spec ps window :
  1 <= window ->
  exists sma, calculate_sma (Fin <$> ps) window = Ok sma /\
    Z.of_nat (length sma)
    = Z.max 0 (Z.of_nat (length ps) - Z.of_nat window + 1) /\
    (forall i, i + window <= length ps ->
       sma !! i = Some (Fin (arith_mean (py_slice ps i window)))) /\
    (length ps < window -> sma = []).
Proof.
  intros Hw. destruct (decide (length ps < window)) as [Hlt|Hge].
  - exists []. unfold calculate_sma. rewrite length_fmap.
    destruct (Nat.ltb_spec (length ps) window); [|lia].
    repeat split; [simpl; lia | intros i Hi; lia].
  - eexists. split; [apply calculate_sma_long; lia|].
    rewrite length_fmap, length_seq. repeat split; [lia | | lia].
    intros i Hi. rewrite list_lookup_fmap, lookup_seq_lt by lia. done.
Qed.

End SmaFacts.

(** ** Bollinger bands over exact arithmetic *)

Section BollingerFacts.
Implicit Types (ps : list R) (window : nat) (k : R).
Local Arguments np_std : simpl never.
Local Arguments py_slice : simpl never.

Lemma mean_sq_nonneg (l : list R) (m : R) :
  (0 <= arith_mean ((fun x => (x - m) * (x - m))%R <$> l))%R.
Proof.
  unfold arith_mean. rewrite length_fmap.
  assert (0 <= Rsum ((fun x => (x - m) * (x - m))%R <$> l))%R as Hs.
  { apply Rsum_nonneg, Forall_fmap, Forall_forall. intros x _. apply (Rle_0_sqr (x - m)). }
  destruct l as [|x l].
  - simpl. unfold Rdiv. rewrite Rmult_0_l. lra.
  - apply Rmult_le_pos; [done|]. apply Rlt_le, Rinv_0_lt_compat, lt_0_INR.
    simpl. lia.
Qed.

Lemma pop_std_nonneg (l : list R) : (0 <= pop_std l)%R.
Proof. apply sqrt_pos. Qed.

Lemma np_std_Fin (l : list R) : l <> [] -> np_std (Fin <$> l) = Fin (pop_std l).
Proof.
  intros Hl. unfold np_std. rewrite np_mean_Fin by done.
  replace ((fun x : xreal => (x -^ Fin (arith_mean l)) *^ (x -^ Fin (arith_mean l)))
             <$> (Fin <$> l))
    with (Fin <$> ((fun x => (x - arith_mean l) * (x - arith_mean l))%R <$> l)).
  - rewrite np_sum_Fin, length_fmap.
    rewrite xdiv_Fin_nat by (destruct l; simpl; [done | lia]).
    rewrite xsqrt_Fin; [unfold pop_std, arith_mean; by rewrite !length_fmap|].
    pose proof (mean_sq_nonneg l (arith_mean l)) as Hm.
    unfold arith_mean at 1 in Hm. by rewrite length_fmap in Hm.
  - by rewrite <- !list_fmap_compose.
Qed.

(** the three bands, entry by entry *)
Lemma calculate_bollinger_bands_long ps window k :
  1 <= window <= length ps ->
  let idx := seq 0 (length ps - window + 1) in
  let m i := arith_mean (py_slice ps i window) in
  let sd i := pop_std (py_slice ps i window) in
  calculate_bollinger_bands (Fin <$> ps) window (Fin k)
  = Ok ((fun i => Fin (m i)) <$> idx,
        (fun i => Fin (m i + sd i * k)) <$> idx,
        (fun i => Fin (m i - sd i * k)) <$> idx).
Proof.
  intros Hw idx m sd. unfold calculate_bollinger_bands.
  rewrite length_fmap.
  destruct (Nat.ltb_spec (length ps) window); [lia|].
  rewrite calculate_sma_long by done. cbn [rbind]. fold idx.
  assert ((fun s : xreal => s *^ Fin k)
            <$> ((fun i => np_std (py_slice (Fin <$> ps) i window)) <$> idx)
          = (fun i => Fin (sd i * k)) <$> idx) as ->.
  { rewrite <- list_fmap_compose. apply list_fmap_ext.
    intros j i Hi. apply lookup_seq in Hi as [-> Hj]. unfold compose.
    rewrite py_slice_fmap, np_std_Fin; [done|].
    intros Hnil. apply (f_equal length) in Hnil.
    rewrite length_py_slice in Hnil by lia. simpl in Hnil. lia. }
  rewrite !broadcast2_same by (by rewrite !length_fmap). cbn [rbind].
  rewrite !zip_with_fmap_l, !zip_with_fmap_r, !zip_with_diag. done.
Qed.

(** C7 (amended). For [len(prices) >= window >= 1] and [num_std >= 0],
    [calculate_bollinger_bands] returns three arrays of the same length
    with [lower[i] <= sma[i] <= upper[i]] at every index; a band touches
    the average only when [num_std] times the rolling standard deviation
    is zero, that is when the deviation of [prices[i:i+window]] is 0 or
    [num_std] is 0.  This is for exact arithmetic on finite prices; on
    binary64 the sums are rounded and a band also touches the average when
    that product is too small to change it. *)
Theorem bollinger_bands_ordered ps window k :
  1 <= window <= length ps -> (0 <= k)%R ->
  exists sma upper lower,
    calculate_bollinger_bands (Fin <$> ps) window (Fin k) = Ok (sma, upper, lower) /\
    length sma = length ps - window + 1 /\
    length upper = length sma /\ length lower = length sma /\
    forall i, i < length sma ->
      exists m u lo,
        sma !! i = Some (Fin m) /\ upper !! i = Some (Fin u) /\
        lower !! i = Some (Fin lo) /\
        (lo <= m <= u)%R /\
        (lo = m \/ m = u ->
         np_std (py_slice (Fin <$> ps) i window) = Fin 0 \/ k = 0%R).
Proof.
  intros Hw Hk. eexists _, _, _.
  split; [by apply calculate_bollinger_bands_long|].
  rewrite !length_fmap, !length_seq. repeat split.
  intros i Hi. eexists _, _, _.
  rewrite !list_lookup_fmap, !lookup_seq_lt by done. simpl.
  repeat split.
  - pose proof (pop_std_nonneg (py_slice ps i window)). nra.
  - pose proof (pop_std_nonneg (py_slice ps i window)). nra.
  - intros Heq. rewrite py_slice_fmap, np_std_Fin.
    + assert (pop_std (py_slice ps i window) * k = 0)%R as Hz
        by (destruct Heq; lra).
      apply Rmult_integral in Hz as [Hz|Hz]; [left; by rewrite Hz | by right].
    + intros Hnil. apply (f_equal length) in Hnil.
      rewrite length_py_slice in Hnil by lia. simpl in Hnil. lia.
Qed.

End BollingerFacts.

(** ** RSI over exact arithmetic *)

Section RsiExact.
Implicit Types (prices : list xreal) (window : nat) (v g : xreal).
Local Open Scope R_scope.

Lemma nonneg_ext_mul v c : nonneg_ext v -> 0 <= c -> nonneg_ext (v *^ Fin c).
Proof.
  destruct v as [r| | |]; simpl; try done.
  - intros. by apply Rmult_le_pos.
  - intros _ Hc. unfold Rsign. xreal_dec; simpl; try done. lra.
Qed.

Lemma nonneg_ext_add v g : nonneg_ext v -> nonneg_ext g -> nonneg_ext (v +^ g).
Proof. destruct v, g; simpl; try done. intros. lra. Qed.

Lemma nonneg_ext_div v g : nonneg_ext v -> nonneg_ext g -> nonneg_ext (v /^ g).
Proof.
  destruct v as [a| | |], g as [b| | |]; simpl; try done; try lra.
  - intros Ha Hb. unfold Rsign. xreal_dec; simpl; try done; try lra.
    all: apply Rmult_le_pos; [done|]; apply Rlt_le, Rinv_0_lt_compat; lra.
  - intros _ Hb. xreal_dec; simpl; [lra | done].
Qed.

Lemma nonneg_ext_sum (l : list xreal) : Forall nonneg_ext l -> nonneg_ext (np_sum l).
Proof.
  destruct 1 as [|x l Hx Hl]; simpl; [lra|].
  revert x Hx. induction Hl as [|y l Hy Hl IH]; intros x Hx; simpl; [done|].
  apply IH. by apply nonneg_ext_add.
Qed.

Lemma nonneg_ext_mean (l : list xreal) : Forall nonneg_ext l -> nonneg_ext (np_mean l).
Proof.
  intros Hl. unfold np_mean. apply nonneg_ext_div; [by apply nonneg_ext_sum|].
  simpl. apply IZR_le. lia.
Qed.

Lemma np_mean_nil_xreal : np_mean ([] : list xreal) = NaN.
Proof. unfold np_mean. simpl. unfold Rsign. xreal_dec; try done; lra. Qed.

Lemma rsi_gains_nonneg (deltas : list xreal) : Forall nonneg_ext (rsi_gains deltas).
Proof.
  unfold rsi_gains, np_where0. apply Forall_fmap, Forall_forall. intros d _. simpl.
  destruct d as [r| | |]; simpl; xreal_dec; simpl; lra.
Qed.

Lemma rsi_losses_nonneg (deltas : list xreal) : Forall nonneg_ext (rsi_losses deltas).
Proof.
  unfold rsi_losses, np_where0. apply Forall_fmap, Forall_forall. intros d _. simpl.
  destruct d as [r| | |]; simpl; xreal_dec; simpl; lra.
Qed.

Lemma avg_ok_seed window (l : list xreal) :
  Forall nonneg_ext l -> avg_ok window (np_mean (take window l)).
Proof.
  intros Hl. split.
  - apply nonneg_ext_mean. by apply Forall_take.
  - intros ->. apply np_mean_nil_xreal.
Qed.

Lemma avg_ok_wilder window v g :
  avg_ok window v -> nonneg_ext g -> avg_ok window (wilder window v g).
Proof.
  intros [Hv Hnan] Hg. unfold wilder. split.
  - destruct window as [|w]; [by rewrite Hnan|].
    apply nonneg_ext_div; [apply nonneg_ext_add; [|done]|].
    + apply nonneg_ext_mul; [done|]. apply IZR_le. lia.
    + simpl. apply IZR_le. lia.
  - intros ->. by rewrite Hnan.
Qed.

Lemma rsi_of_rs_range v :
  nonneg_ext v ->
  match rsi_of_rs v with
  | Fin r => 0 <= r <= 100
  | NaN => True
  | _ => False
  end.
Proof.
  destruct v as [q| | |]; simpl; try done.
  - intros Hq. xreal_dec; [lra|]. simpl.
    assert (0 < 100 / (1 + q) <= 100) as Hb; [|lra].
    split.
    + apply Rdiv_lt_0_compat; lra.
    + apply (Rmult_le_reg_r (1 + q)); [lra|]. field_simplify; [nra | lra].
  - intros _. lra.
Qed.

Lemma xdiv_pos_zero g : (Fin 0 <?^ g) = true -> g /^ Fin 0 = PInf.
Proof.
  destruct g as [r| | |]; simpl; try done.
  - unfold Rsign. xreal_dec; try done; lra.
  - xreal_dec; [lra | done].
Qed.

Lemma rsi_of_rs_PInf : rsi_of_rs PInf = Fin 100.
Proof. simpl. f_equal. lra. Qed.

Lemma avg_inv_nonneg prices window k (avg : list xreal) i v :
  avg_inv (avg_ok window) prices window k avg ->
  avg !! i = Some v -> nonneg_ext v.
Proof.
  intros [_ Hall] Hv. specialize (Hall i v Hv).
  destruct (decide (window <= i < k)%nat); [by destruct Hall|].
  subst v. simpl. lra.
Qed.

(** the invariant behind the range of RSI: both smoothed averages stay
    non-negative (or undefined) through the Wilder recurrence *)
Lemma rsi_averages_nonneg prices window :
  (window < length prices)%nat ->
  exists avg_gain avg_loss,
    rsi_averages prices window = Ok (avg_gain, avg_loss) /\
    avg_inv (avg_ok window) prices window (length prices) avg_gain /\
    avg_inv (avg_ok window) prices window (length prices) avg_loss.
Proof.
  intros Hlen. apply rsi_averages_inv; [done | | | |].
  - apply avg_ok_seed, rsi_gains_nonneg.
  - apply avg_ok_seed, rsi_losses_nonneg.
  - intros g1 g Hg1 Hg. apply avg_ok_wilder; [done|].
    by eapply Forall_forall; [apply rsi_gains_nonneg|].
  - intros l1 l Hl1 Hl. apply avg_ok_wilder; [done|].
    by eapply Forall_forall; [apply rsi_losses_nonneg|].
Qed.

Lemma calculate_rsi_lookup prices window avg_gain avg_loss :
  rsi_averages prices window = Ok (avg_gain, avg_loss) ->
  exists rsi, calculate_rsi prices window = Ok rsi /\
    length rsi = length prices /\
    forall i, rsi !! i
              = (a ← avg_gain !! i; b ← avg_loss !! i; Some (rsi_of_rs (a /^ b))).
Proof.
  intros Hrun. destruct (rsi_averages_length _ _ _ _ Hrun) as (Hlen & Hag & Hal).
  unfold calculate_rsi.
  destruct (Nat.ltb_spec (length prices) window); [lia|].
  rewrite Hrun. cbn [rbind]. rewrite broadcast2_same by congruence. cbn [rbind].
  eexists; split; [done|]. split.
  - rewrite length_fmap, length_zip_with. lia.
  - intros i. rewrite list_lookup_fmap, lookup_zip_with.
    destruct (avg_gain !! i); [|done]. by destruct (avg_loss !! i).
Qed.

(** C5. Every defined entry of the RSI array (one that is not NaN) lies
    in the closed interval [0, 100].  The function returns, with an
    array as long as [prices], whenever [window < len(prices)].  (Exact
    arithmetic; the prices may be any values, infinite or NaN included.) *)
Theorem calculate_rsi_in_range prices window :
  (window < length prices)%nat ->
  exists rsi, calculate_rsi prices window = Ok rsi /\
    length rsi = length prices /\
    forall i v, rsi !! i = Some v -> v <> NaN ->
      exists r, v = Fin r /\ 0 <= r <= 100.
Proof.
  intros Hlen.
  destruct (rsi_averages_nonneg prices window Hlen) as (ag & al & Hrun & Hag & Hal).
  destruct (calculate_rsi_lookup _ _ _ _ Hrun) as (rsi & Hrsi & Hl & Hlk).
  exists rsi. split; [done|]. split; [done|].
  intros i v Hv Hdef. rewrite Hlk in Hv.
  destruct (ag !! i) as [a|] eqn:Ha; [|done].
  destruct (al !! i) as [b|] eqn:Hb; [|done].
  change (Some (rsi_of_rs (a /^ b)) = Some v) in Hv.
  assert (v = rsi_of_rs (a /^ b)) as -> by congruence. clear Hv.
  assert (nonneg_ext (a /^ b)) as Hab.
  { apply nonneg_ext_div.
    - exact (avg_inv_nonneg _ _ _ _ _ _ Hag Ha).
    - exact (avg_inv_nonneg _ _ _ _ _ _ Hal Hb). }
  apply rsi_of_rs_range in Hab.
  destruct (rsi_of_rs (a /^ b)) as [r| | |]; [|done..].
  exists r. split; [reflexivity | exact Hab].
Qed.

(** C4 (amended). Where the smoothed average loss is 0 and the smoothed
    average gain is positive, RSI is exactly 100: the ratio is the
    infinity of the division by zero, and [100 - 100/(1 + inf)] is 100.
    Nothing in the code treats the zero divisor specially. *)
Theorem rsi_zero_loss_positive_gain prices window avg_gain avg_loss i g :
  rsi_averages prices window = Ok (avg_gain, avg_loss) ->
  avg_loss !! i = Some (of_Z 0) ->
  avg_gain !! i = Some g ->
  (of_Z 0 <?^ g) = true ->
  exists rsi, calculate_rsi prices window = Ok rsi /\
    rsi !! i = Some (of_Z 100).
Proof.
  intros Hrun Hl Hg Hpos.
  destruct (calculate_rsi_lookup _ _ _ _ Hrun) as (rsi & Hrsi & _ & Hlk).
  exists rsi. split; [done|]. rewrite Hlk, Hg, Hl.
  cbn [mbind option_bind]. f_equal.
  change (of_Z 0 : xreal) with (Fin 0) in *.
  rewrite xdiv_pos_zero by done. apply rsi_of_rs_PInf.
Qed.

(** with both averages 0 the ratio is 0/0, and RSI is undefined *)
Lemma rsi_zero_loss_zero_gain prices window avg_gain avg_loss i :
  rsi_averages prices window = Ok (avg_gain, avg_loss) ->
  avg_loss !! i = Some (of_Z 0) ->
  avg_gain !! i = Some (of_Z 0) ->
  exists rsi, calculate_rsi prices window = Ok rsi /\ rsi !! i = Some NaN.
Proof.
  intros Hrun Hl Hg.
  destruct (calculate_rsi_lookup _ _ _ _ Hrun) as (rsi & Hrsi & _ & Hlk).
  exists rsi. split; [done|]. rewrite Hlk, Hg, Hl. simpl. f_equal.
  unfold Rsign. xreal_dec; try done; lra.
Qed.

End RsiExact.

(** ** The correlation matrix: the two passes and the matrix loop *)

Lemma for_each_inv {I St : Type} (Inv : St -> Prop) (xs : list I)
    (body : I -> St -> result St) (s : St) :
  Inv s ->
  (forall x t, x ∈ xs -> Inv t -> exists t', body x t = Ok t' /\ Inv t') ->
  exists t, for_each xs body s = Ok t /\ Inv t.
Proof.
  revert s. induction xs as [|x xs IH]; intros s Hs Hstep; simpl.
  - by exists s.
  - destruct (Hstep x s) as (t' & -> & Ht'); [by left | done |]. cbn [rbind].
    apply IH; [done|]. intros y t Hy. apply Hstep. by right.
Qed.

Section DictFacts.
Context {V : Type}.
Implicit Types (d : dict V) (k : string) (v : V).

Lemma Forall_dict_set (P : string * V -> Prop) k v d :
  P (k, v) -> Forall P d -> Forall P (dict_set k v d).
Proof.
  intros Hkv. induction 1 as [|[k' v'] d Hx Hd IH]; simpl.
  - by constructor.
  - case_decide; by constructor.
Qed.

Lemma dict_get_ok k d :
  k ∈ dict_keys d -> exists v, dict_get k d = Ok v /\ (k, v) ∈ d.
Proof.
  unfold dict_keys. induction d as [|[k' v'] d IH]; csimpl; intros Hin.
  - by apply elem_of_nil in Hin.
  - case_decide as Hk.
    + subst k'. exists v'. split; [done | by left].
    + apply elem_of_cons in Hin as [?|Hin]; [done|].
      destruct (IH Hin) as (v & Hv & Hvd). exists v. split; [done | by right].
Qed.

(** assigning to a key keeps the keys that were there, in their order,
    and appends a new one *)
Lemma dict_keys_set k v d :
  dict_keys (dict_set k v d)
  = if decide (k ∈ dict_keys d) then dict_keys d else dict_keys d ++ [k].
Proof.
  unfold dict_keys. induction d as [|[k' v'] d IH]; csimpl.
  - done.
  - destruct (decide (k = k')) as [->|Hk]; csimpl.
    + rewrite decide_True; [done | by left].
    + rewrite IH. destruct (decide (k ∈ fst <$> d)) as [Hin|Hnin].
      * rewrite decide_True; [done | by right].
      * rewrite decide_False; [done|]. rewrite elem_of_cons. tauto.
Qed.

End DictFacts.

Section CorrelationShape.
Context {A : Type} `{Num A}.
Implicit Types (stocks : gmap string (StockData A)) (symbols : list string).
Implicit Types (price_data aligned : dict (list A)) (min_length : option nat).

Lemma lengths_ok_init : lengths_ok ([] : dict (list A)) None.
Proof. split; [done | by constructor]. Qed.

Lemma lengths_ok_step price_data min_length symbol (prices : list A) :
  1 <= length prices ->
  lengths_ok price_data min_length ->
  lengths_ok (dict_set symbol prices price_data)
    (py_min_length min_length (length prices)).
Proof.
  intros Hlen [Hpos Hok]. split.
  - destruct min_length as [m|]; simpl; intros m' [= <-]; [|done].
    specialize (Hpos m eq_refl). lia.
  - apply Forall_dict_set.
    + destruct min_length as [m|]; simpl; eexists; (split; [done|]); lia.
    + eapply Forall_impl; [exact Hok|]. intros [k v] (m & -> & Hm). simpl in *.
      eexists; split; [done|]. lia.
Qed.

Lemma first_pass_lengths_ok stocks symbols price_data min_length pd ml :
  first_pass stocks symbols price_data min_length = Some (pd, ml) ->
  lengths_ok price_data min_length -> lengths_ok pd ml.
Proof.
  revert price_data min_length.
  induction symbols as [|s symbols IH]; intros price_data min_length; simpl.
  - intros [= <- <-]. done.
  - destruct (stocks !! s) as [sd|]; [|done].
    destruct (Nat.ltb_spec 0 (length (get_closing_prices sd))); [|done].
    intros Hrun Hok. eapply IH; [exact Hrun|]. by apply lengths_ok_step.
Qed.

(** with every requested symbol present and non-empty, the first pass
    does not take its early return *)
Lemma first_pass_present stocks symbols price_data min_length :
  (forall s, s ∈ symbols -> ~ missing_data stocks s) ->
  exists pd ml, first_pass stocks symbols price_data min_length = Some (pd, ml).
Proof.
  revert price_data min_length.
  induction symbols as [|s symbols IH]; intros price_data min_length Hall; simpl.
  - by eexists _, _.
  - assert (~ missing_data stocks s) as Hs by (apply Hall; by left).
    unfold missing_data in Hs. destruct (stocks !! s) as [sd|]; [|done].
    destruct (Nat.ltb_spec 0 (length (get_closing_prices sd))); [|lia].
    apply IH. intros s' Hs'. apply Hall. by right.
Qed.

(** the second pass returns, and every return series has
    [min_length - 1] entries *)
Lemma second_pass_ok price_data min_length :
  lengths_ok price_data min_length ->
  exists aligned, second_pass price_data min_length = Ok aligned /\
    Forall (fun kv : string * list A =>
              exists m, min_length = Some m /\ length kv.2 = m - 1) aligned.
Proof.
  intros Hok. unfold second_pass. apply for_each_inv; [by constructor|].
  intros [symbol prices] aligned Hin Hal.
  destruct Hok as [Hpos Hok].
  eapply Forall_forall in Hok as (m & -> & Hm); [|exact Hin]. simpl in Hm.
  specialize (Hpos m eq_refl). cbn [trim rbind].
  assert (length (py_last prices m) = m) as Hlast by (apply length_py_last; lia).
  rewrite broadcast2_same
    by (rewrite length_np_diff, length_take, Hlast; lia).
  cbn [rbind]. eexists; split; [done|].
  apply Forall_dict_set; [|done]. simpl. exists m. split; [done|].
  rewrite length_zip_with, length_np_diff, length_take, Hlast. lia.
Qed.

Lemma matrix_set_ok (m : list (list A)) i j x row :
  m !! i = Some row -> j < length row ->
  matrix_set m i j x = Ok (<[i:=<[j:=x]> row]> m).
Proof.
  intros Hrow Hj. unfold matrix_set.
  rewrite (py_get_nat _ _ _ Hrow). cbn [rbind].
  rewrite py_set_nat by done. cbn [rbind].
  apply py_set_nat. by eapply lookup_lt_Some.
Qed.

Lemma mat_inv_step n (c : nat -> nat -> A) i j (m : list (list A)) :
  i < n -> j < n -> mat_inv n c i j m ->
  exists m', matrix_set m i j (c i j) = Ok m' /\ mat_inv n c i (j + 1) m'.
Proof.
  intros Hi Hj [Hlen Hrows].
  destruct (Hrows i Hi) as (row & Hrow & Hrl & Hset).
  rewrite (matrix_set_ok _ _ _ _ row) by (done || lia).
  eexists; split; [done|]. split; [by rewrite length_insert|].
  intros i' Hi'. destruct (decide (i' = i)) as [->|Hne].
  - exists (<[j:=c i j]> row). rewrite list_lookup_insert_eq by lia.
    split; [done|]. split; [by rewrite length_insert|].
    intros j' Hj' Hbefore. destruct (decide (j' = j)) as [->|Hnej].
    + by rewrite list_lookup_insert_eq by lia.
    + rewrite list_lookup_insert_ne by done. apply Hset; [done|]. lia.
  - destruct (Hrows i' Hi') as (row' & Hrow' & Hrl' & Hset').
    exists row'. rewrite list_lookup_insert_ne by done.
    split; [done|]. split; [done|].
    intros j' Hj' Hbefore. apply Hset'; [done|]. lia.
Qed.

(** if every entry's computation succeeds, the loops return the matrix
    of these entries *)
Lemma build_matrix_entries aligned (c : nat -> nat -> A) :
  let n := length aligned in
  (forall i j, i < n -> j < n -> corr_at aligned i j = Ok (c i j)) ->
  exists m, build_matrix aligned = Ok (dict_keys aligned, m) /\
    length m = n /\
    forall i, i < n ->
      exists row, m !! i = Some row /\ length row = n /\
        forall j, j < n -> row !! j = Some (c i j).
Proof.
  intros n Hc. unfold build_matrix.
  assert (length (dict_keys aligned) = n) as -> by apply length_fmap.
  destruct (for_range_inv (fun i m => mat_inv n c i 0 m) 0 n
    (fun i corr_matrix =>
       for_range 0 n
         (fun j corr_matrix =>
            let* sym1 := py_get (dict_keys aligned) (Z.of_nat i) in
            let* sym2 := py_get (dict_keys aligned) (Z.of_nat j) in
            let* r1 := dict_get sym1 aligned in
            let* r2 := dict_get sym2 aligned in
            let* corr := np_corrcoef01 r1 r2 in
            matrix_set corr_matrix i j corr)
         corr_matrix)
    (replicate n (replicate n (of_Z 0)))) as (m & -> & Hm).
  - lia.
  - split; [by rewrite length_replicate|]. intros i' Hi'.
    exists (replicate n (of_Z 0)). rewrite lookup_replicate_2 by done.
    split; [done|]. split; [by rewrite length_replicate|]. intros j' _ Hb. lia.
  - intros i m [_ Hi] Hinv.
    destruct (for_range_inv (fun j m => mat_inv n c i j m) 0 n
      (fun j corr_matrix =>
         let* sym1 := py_get (dict_keys aligned) (Z.of_nat i) in
         let* sym2 := py_get (dict_keys aligned) (Z.of_nat j) in
         let* r1 := dict_get sym1 aligned in
         let* r2 := dict_get sym2 aligned in
         let* corr := np_corrcoef01 r1 r2 in
         matrix_set corr_matrix i j corr)
      m) as (m' & -> & Hm'); [lia | done | |].
    + intros j m0 [_ Hj] Hinv0.
      specialize (Hc i j Hi Hj). unfold corr_at in Hc.
      destruct (py_get (dict_keys aligned) (Z.of_nat i)) as [sym1|]; [|done].
      destruct (py_get (dict_keys aligned) (Z.of_nat j)) as [sym2|]; [|done].
      cbn [rbind] in *.
      destruct (dict_get sym1 aligned) as [r1|]; [|done].
      destruct (dict_get sym2 aligned) as [r2|]; [|done].
      cbn [rbind] in *. rewrite Hc. cbn [rbind].
      by apply mat_inv_step.
    + eexists; split; [done|]. destruct Hm' as [Hlen Hrows].
      split; [done|]. intros i' Hi'.
      destruct (Hrows i' Hi') as (row & Hrow & Hrl & Hset).
      exists row. split; [done|]. split; [done|].
      intros j' Hj' Hb. apply Hset; [done|]. lia.
  - cbn [rbind]. exists m. split; [done|]. destruct Hm as [Hlen Hrows].
    split; [done|]. intros i Hi.
    destruct (Hrows i Hi) as (row & Hrow & Hrl & Hset).
    exists row. split; [done|]. split; [done|].
    intros j Hj. apply Hset; [done|]. lia.
Qed.

End CorrelationShape.

(** ** Pearson correlation over exact arithmetic *)

Section CorrExact.
Implicit Types (x y : list R) (r : list xreal).
Local Open Scope R_scope.

Lemma np_dot_Fin x y :
  np_dot (Fin <$> x) (Fin <$> y) = Fin (Rsum (zip_with Rmult x y)).
Proof.
  unfold np_dot. rewrite <- np_sum_Fin. f_equal.
  revert y. induction x as [|a x IH]; intros [|b y]; csimpl; [done..|].
  by rewrite IH.
Qed.

Lemma np_cov_entry_Fin x y :
  (2 <= length x)%nat -> length x = length y ->
  np_cov_entry (Fin <$> x) (Fin <$> y) = Fin (Rcov x y).
Proof.
  intros Hx Hxy. unfold np_cov_entry.
  rewrite !np_mean_Fin by (intros ->; simpl in *; lia).
  rewrite <- !list_fmap_compose.
  change ((fun a : xreal => a -^ Fin (arith_mean x)) ∘ Fin)
    with (Fin ∘ (fun a => a - arith_mean x)).
  change ((fun a : xreal => a -^ Fin (arith_mean y)) ∘ Fin)
    with (Fin ∘ (fun a => a - arith_mean y)).
  rewrite !list_fmap_compose, np_dot_Fin, length_fmap.
  rewrite (xdiv_Fin_nat 1) by lia. done.
Qed.

Lemma zip_with_Rmult_comm x y : zip_with Rmult x y = zip_with Rmult y x.
Proof.
  revert y. induction x as [|a x IH]; intros [|b y]; simpl; [done..|].
  rewrite IH. f_equal. lra.
Qed.

Lemma Rcov_sym x y : length x = length y -> Rcov x y = Rcov y x.
Proof.
  intros Hxy. unfold Rcov. by rewrite zip_with_Rmult_comm, Hxy.
Qed.

Lemma Rcov_self_nonneg x : (2 <= length x)%nat -> 0 <= Rcov x x.
Proof.
  intros Hx. unfold Rcov. apply Rmult_le_pos.
  - apply Rsum_nonneg. rewrite zip_with_diag. apply Forall_fmap, Forall_forall.
    intros a _. apply (Rle_0_sqr a).
  - apply Rlt_le, Rdiv_lt_0_compat; [lra|]. apply lt_0_INR. lia.
Qed.

Lemma np_clip_Fin q : np_clip (Fin q) (of_Z (-1)) (of_Z 1) = Fin (Rclip q).
Proof.
  unfold np_clip, np_isnan, Rclip. simpl.
  destruct (Req_dec_T q q); [|done]. simpl.
  destruct (Rlt_dec q (-1)); simpl; xreal_dec; try done; lra.
Qed.

Lemma np_corrcoef01_Fin x y :
  (2 <= length x)%nat -> length x = length y ->
  Rcov x x <> 0 -> Rcov y y <> 0 ->
  np_corrcoef01 (Fin <$> x) (Fin <$> y) = Ok (Fin (pearson x y)).
Proof.
  intros Hx Hxy Hvx Hvy. unfold np_corrcoef01.
  rewrite decide_True by (by rewrite !length_fmap).
  pose proof (Rcov_self_nonneg x Hx) as Hx0.
  pose proof (Rcov_self_nonneg y ltac:(lia)) as Hy0.
  rewrite !np_cov_entry_Fin by (done || lia).
  rewrite !xsqrt_Fin by done.
  rewrite !xdiv_Fin by (apply Rgt_not_eq, sqrt_lt_R0; lra).
  by rewrite np_clip_Fin.
Qed.

Lemma pearson_sym x y : length x = length y -> pearson x y = pearson y x.
Proof.
  intros Hxy. unfold pearson. rewrite (Rcov_sym x y Hxy). f_equal.
  unfold Rdiv. ring.
Qed.

Lemma pearson_diag x : (2 <= length x)%nat -> Rcov x x <> 0 -> pearson x x = 1.
Proof.
  intros Hx Hv. pose proof (Rcov_self_nonneg x Hx) as Hv0.
  unfold pearson.
  assert (0 < sqrt (Rcov x x)) as Hs by (apply sqrt_lt_R0; lra).
  assert (Rcov x x / sqrt (Rcov x x) / sqrt (Rcov x x) = 1) as ->.
  { rewrite <- (sqrt_sqrt (Rcov x x)) at 1 by done. field. lra. }
  unfold Rclip. xreal_dec; lra.
Qed.

(** a finite variance needs finite values, and at least two of them *)
Lemma xadd_Fin_inv (a b : xreal) c :
  a +^ b = Fin c -> exists a' b', a = Fin a' /\ b = Fin b'.
Proof. destruct a, b; simpl; try done. by eexists _, _. Qed.

Lemma xmul_Fin_inv (a b : xreal) c :
  a *^ b = Fin c -> exists a' b', a = Fin a' /\ b = Fin b'.
Proof.
  destruct a as [a| | |], b as [b| | |]; simpl; try done;
    try (by eexists _, _); unfold Rsign; xreal_dec; done.
Qed.

Lemma np_sum_Fin_inv r c :
  np_sum r = Fin c -> Forall (fun a => exists a', a = Fin a') r.
Proof.
  destruct r as [|a r]; [by constructor|]. simpl. revert a.
  induction r as [|b r IH]; intros a; simpl.
  - intros ->. constructor; [by eexists | constructor].
  - intros Hsum. apply IH in Hsum. apply Forall_cons in Hsum as [[ab Hab] Hr].
    apply xadd_Fin_inv in Hab as (a' & b' & -> & ->).
    repeat constructor; by eauto.
Qed.

Lemma Forall_Fin_fmap r :
  Forall (fun a => exists a', a = Fin a') r -> exists x, r = Fin <$> x.
Proof.
  induction 1 as [|a r [a' ->] _ [x ->]].
  - by exists [].
  - by exists (a' :: x).
Qed.

Lemma nondegenerate_finite r :
  nondegenerate r ->
  exists x, r = Fin <$> x /\ (2 <= length x)%nat /\ Rcov x x <> 0.
Proof.
  intros (v & Hv & Hv0).
  assert (exists x, r = Fin <$> x /\ (2 <= length x)%nat) as (x & -> & Hx).
  { unfold np_cov_entry in Hv.
    apply xmul_Fin_inv in Hv as (d & c & Hd & Hc).
    apply np_sum_Fin_inv in Hd. rewrite zip_with_diag in Hd.
    rewrite <- list_fmap_compose in Hd.
    apply (proj1 (Forall_fmap _ _ _)) in Hd.
    assert (Forall (fun a => exists a', a = Fin a') r) as Hfin.
    { eapply Forall_impl; [exact Hd|]. intros a [aa Haa].
      unfold compose in Haa.
      apply xmul_Fin_inv in Haa as (d1 & _ & Hd1 & _).
      unfold nsub in Hd1. simpl in Hd1. unfold xsub in Hd1.
      apply xadd_Fin_inv in Hd1 as (a' & _ & -> & _). by eexists. }
    apply Forall_Fin_fmap in Hfin as [x ->]. exists x. split; [done|].
    rewrite length_fmap in Hc. simpl in Hc.
    destruct (Req_dec_T (IZR (Z.of_nat (length x - 1))) 0) as [Hz|Hnz].
    - unfold Rsign in Hc. xreal_dec; simpl in Hc; try done; lra.
    - destruct (decide (2 <= length x)%nat); [done|].
      exfalso. apply Hnz. by replace (length x - 1)%nat with 0%nat by lia. }
  exists x. split; [done|]. split; [done|].
  rewrite np_cov_entry_Fin in Hv by done. congruence.
Qed.

End CorrExact.

(** ** The symbols of the result *)

Section CorrelationKeys.
Context {A : Type} `{Num A}.
Implicit Types (stocks : gmap string (StockData A)) (symbols : list string).
Implicit Types (price_data aligned : dict (list A)) (min_length : option nat).

Lemma elem_of_dict_keys_set {V : Type} (s k : string) (v : V) (d : dict V) :
  s ∈ dict_keys (dict_set k v d) <-> s = k \/ s ∈ dict_keys d.
Proof.
  rewrite dict_keys_set. case_decide as Hk.
  - split; [by right|]. by intros [->|?].
  - rewrite elem_of_app, list_elem_of_singleton. tauto.
Qed.

Lemma first_pass_keys stocks symbols price_data min_length pd ml :
  first_pass stocks symbols price_data min_length = Some (pd, ml) ->
  forall s, s ∈ dict_keys pd <-> s ∈ dict_keys price_data \/ s ∈ symbols.
Proof.
  revert price_data min_length.
  induction symbols as [|s' symbols IH]; intros price_data min_length; simpl.
  - intros [= <- <-] s. rewrite elem_of_nil. tauto.
  - destruct (stocks !! s') as [sd|]; [|done].
    destruct (0 <? length (get_closing_prices sd)); [|done].
    intros Hrun s. rewrite (IH _ _ Hrun s), elem_of_dict_keys_set, elem_of_cons.
    tauto.
Qed.

Lemma second_pass_keys price_data min_length aligned :
  second_pass price_data min_length = Ok aligned ->
  forall s, s ∈ dict_keys aligned <-> s ∈ dict_keys price_data.
Proof.
  unfold second_pass.
  assert (forall acc : dict (list A),
    for_each price_data
      (fun '(symbol, prices) aligned_returns =>
         let* trimmed_prices := trim prices min_length in
         let* returns :=
           broadcast2 ndiv (np_diff trimmed_prices)
             (take (length trimmed_prices - 1) trimmed_prices) in
         Ok (dict_set symbol returns aligned_returns))
      acc = Ok aligned ->
    forall s, s ∈ dict_keys aligned <-> s ∈ dict_keys acc \/ s ∈ dict_keys price_data)
    as Hgen.
  { induction price_data as [|[symbol prices] pd IH]; intros acc; cbn [for_each].
    - intros [= <-] s. change (dict_keys []) with (@nil string).
      rewrite elem_of_nil. tauto.
    - destruct (trim prices min_length) as [t|]; [|done]. cbn [rbind].
      destruct (broadcast2 ndiv (np_diff t) (take (length t - 1) t)) as [r|]; [|done].
      cbn [rbind]. intros Hrun s.
      rewrite (IH _ Hrun s), elem_of_dict_keys_set.
      change (dict_keys ((symbol, prices) :: pd)) with (symbol :: dict_keys pd).
      rewrite elem_of_cons. tauto. }
  intros Hrun s. rewrite (Hgen [] Hrun s). change (dict_keys []) with (@nil string).
  rewrite elem_of_nil. tauto.
Qed.

End CorrelationKeys.

(** ** The correlation matrix over exact arithmetic *)

Section CorrMatrixExact.
Implicit Types (stocks : gmap string (StockData xreal)) (symbols : list string).
Implicit Types (aligned : dict (list xreal)) (x y : list R).

(** each row of the matrix stands for one finite return series *)
Lemma aligned_series aligned (L i : nat) :
  Forall (fun kv : string * list xreal => length kv.2 = L) aligned ->
  Forall (fun kv : string * list xreal => nondegenerate kv.2) aligned ->
  i < length aligned ->
  exists sym x,
    dict_keys aligned !! i = Some sym /\
    dict_get sym aligned = Ok (Fin <$> x) /\
    length x = L /\ 2 <= L /\ Rcov x x <> 0%R.
Proof.
  intros HL Hnd Hi.
  destruct (lookup_lt_is_Some_2 (dict_keys aligned) i) as [sym Hsym].
  { unfold dict_keys. by rewrite length_fmap. }
  destruct (dict_get_ok sym aligned) as (r & Hr & Hin).
  { by eapply list_elem_of_lookup_2. }
  eapply Forall_forall in HL; [|exact Hin].
  eapply Forall_forall in Hnd; [|exact Hin]. simpl in HL, Hnd.
  apply nondegenerate_finite in Hnd as (x & -> & Hx & Hv).
  rewrite length_fmap in HL.
  exists sym, x. repeat split; (done || lia).
Qed.

Lemma corr_at_Fin aligned i j sym1 sym2 x y :
  dict_keys aligned !! i = Some sym1 -> dict_keys aligned !! j = Some sym2 ->
  dict_get sym1 aligned = Ok (Fin <$> x) -> dict_get sym2 aligned = Ok (Fin <$> y) ->
  2 <= length x -> length x = length y ->
  Rcov x x <> 0%R -> Rcov y y <> 0%R ->
  corr_at aligned i j = Ok (Fin (pearson x y)).
Proof.
  intros Hi Hj Hx Hy Hlen Hxy Hvx Hvy. unfold corr_at.
  rewrite (py_get_nat _ _ _ Hi), (py_get_nat _ _ _ Hj). cbn [rbind].
  rewrite Hx, Hy. cbn [rbind]. by apply np_corrcoef01_Fin.
Qed.

(** C8 (amended). For at least two requested symbols, all present with
    price data, whose trimmed return series are non-degenerate (a finite,
    nonzero variance), [calculate_correlation_matrix] returns the list of
    the requested symbols and an n x n matrix over it that, in exact
    arithmetic, is symmetric and has 1 on its diagonal.  On binary64 the
    entries carry the rounding of [np.corrcoef]. *)
Theorem correlation_matrix_symmetric_unit_diagonal stocks symbols :
  2 <= length symbols ->
  (forall s, s ∈ symbols -> ~ missing_data stocks s) ->
  (forall price_data min_length aligned,
     first_pass stocks symbols [] None = Some (price_data, min_length) ->
     second_pass price_data min_length = Ok aligned ->
     Forall (fun kv : string * list xreal => nondegenerate kv.2) aligned) ->
  exists symbols_list m,
    calculate_correlation_matrix stocks symbols = Ok (Some (symbols_list, m)) /\
    (forall s, s ∈ symbols_list <-> s ∈ symbols) /\
    length m = length symbols_list /\
    forall i j, i < length symbols_list -> j < length symbols_list ->
      exists row_i row_j c,
        m !! i = Some row_i /\ m !! j = Some row_j /\
        length row_i = length symbols_list /\
        row_i !! j = Some c /\ row_j !! i = Some c /\
        row_i !! i = Some (Fin 1).
Proof.
  intros Hn Hpresent Hnondeg.
  destruct (first_pass_present stocks symbols [] None Hpresent) as (pd & ml & Hfirst).
  pose proof (first_pass_lengths_ok _ _ _ _ _ _ Hfirst lengths_ok_init) as Hok.
  destruct (second_pass_ok pd ml Hok) as (aligned & Hsecond & Hlens).
  pose proof (Hnondeg _ _ _ Hfirst Hsecond) as Hnd.
  set (L := match ml with Some k => k - 1 | None => 0 end).
  assert (Forall (fun kv : string * list xreal => length kv.2 = L) aligned) as HL.
  { eapply Forall_impl; [exact Hlens|]. intros kv (k & -> & Hk). done. }
  set (c := fun i j => match corr_at aligned i j with Ok v => v | Raise _ => NaN end).
  assert (forall i j, i < length aligned -> j < length aligned ->
            exists x y, corr_at aligned i j = Ok (Fin (pearson x y)) /\
                        corr_at aligned j i = Ok (Fin (pearson y x)) /\
                        corr_at aligned i i = Ok (Fin (pearson x x)) /\
                        length x = length y /\ 2 <= length x /\ Rcov x x <> 0%R)
    as Hcorr.
  { intros i j Hi Hj.
    destruct (aligned_series aligned L i HL Hnd Hi) as (s1 & x & Hs1 & Hx & Hlx & HL2 & Hvx).
    destruct (aligned_series aligned L j HL Hnd Hj) as (s2 & y & Hs2 & Hy & Hly & _ & Hvy).
    exists x, y. split; [|split; [|split]].
    - apply (corr_at_Fin _ _ _ s1 s2); (done || lia).
    - apply (corr_at_Fin _ _ _ s2 s1); (done || lia).
    - apply (corr_at_Fin _ _ _ s1 s1); (done || lia).
    - repeat split; (done || lia). }
  destruct (build_matrix_entries aligned c) as (m & Hbuild & Hm & Hrows).
  { intros i j Hi Hj. destruct (Hcorr i j Hi Hj) as (x & y & Hij & _).
    unfold c. by rewrite Hij. }
  exists (dict_keys aligned), m. split; [|split; [|split]].
  - unfold calculate_correlation_matrix.
    destruct (Nat.ltb_spec (length symbols) 2); [lia|].
    rewrite Hfirst, Hsecond. cbn [rbind]. by rewrite Hbuild.
  - intros s. rewrite (second_pass_keys _ _ _ Hsecond s), (first_pass_keys _ _ _ _ _ _ Hfirst s).
    change (dict_keys []) with (@nil string). rewrite elem_of_nil. tauto.
  - unfold dict_keys. by rewrite length_fmap.
  - unfold dict_keys. rewrite length_fmap. intros i j Hi Hj.
    destruct (Hrows i Hi) as (row_i & Hri & Hli & Hci).
    destruct (Hrows j Hj) as (row_j & Hrj & Hlj & Hcj).
    destruct (Hcorr i j Hi Hj) as (x & y & Hij & Hji & Hii & Hxy & Hx & Hvx).
    exists row_i, row_j, (c i j). repeat split; try done.
    + by apply Hci.
    + rewrite (Hcj i Hi). f_equal. unfold c. rewrite Hij, Hji.
      f_equal. by apply eq_sym, pearson_sym.
    + rewrite (Hci i Hi). f_equal. unfold c. rewrite Hii.
      f_equal. by apply pearson_diag.
Qed.

End CorrMatrixExact.

(** ** The code on binary64 inputs *)

Example calculate_sma_run :
  calculate_sma [1; 2; 3; 4]%float 2 = Ok [1.5; 2.5; 3.5]%float.
Proof. vm_compute. reflexivity. Qed.

Example calculate_sma_short_run :
  calculate_sma [1; 2]%float 3 = Ok [].
Proof. vm_compute. reflexivity. Qed.

(** the example of the specification: a constant series has a constant EMA *)
Example calculate_ema_constant_run :
  calculate_ema [10; 10; 10; 10; 10]%float 3 = Ok [10; 10; 10; 10; 10]%float.
Proof. vm_compute. reflexivity. Qed.

Example calculate_rsi_run :
  calculate_rsi [1; 2; 3; 2; 5; 5]%float 2
  = Ok [nan; nan; 100; 50; 87.5; 87.5]%float.
Proof. vm_compute. reflexivity. Qed.

Example calculate_macd_run :
  calculate_macd [3; 3; 6; 8; 4]%float 1 3 3
  = Ok ([-1; -1; 2; 2; -1], [0; 0; 0; 1; 0])%float.
Proof. vm_compute. reflexivity. Qed.

Example calculate_bollinger_bands_run :
  calculate_bollinger_bands [1; 3; 5; 9]%float 2 2%float
  = Ok ([2; 4; 7], [4; 6; 11], [0; 2; 3])%float.
Proof. vm_compute. reflexivity. Qed.

(** the longer series is trimmed to its last five prices; the correlation
    is about 0.1456 *)
Example calculate_correlation_matrix_run :
  calculate_correlation_matrix two_stocks ["A"; "B"]
  = Ok (Some (["A"; "B"],
              [[1; 0x1.2a460111ce407p-3]; [0x1.2a460111ce407p-3; 1]]%float)).
Proof. vm_compute. reflexivity. Qed.

(** on an int64 array every average of [calculate_rsi] is truncated when
    it is stored: the average gain 0.5 and the average loss 0.5 at index 3
    both become 0, and the RSI there is NaN, not 50 *)
Example calculate_rsi_int64_run :
  @calculate_rsi float int64_Num [1; 2; 3; 2]%float 2 = Ok [nan; nan; 100; nan]%float /\
  calculate_rsi [1; 2; 3; 2]%float 2 = Ok [nan; nan; 100; 50]%float.
Proof. split; vm_compute; reflexivity. Qed.

(** C2 (code bug). The loader gives an int64 price array for a file of
    whole numbers; [np.zeros_like(prices)] is then an int64 array too, and
    every store into it truncates.  For the prices 10, 11, 12, 11, 10 and
    window 3 the recurrence gives 0.5*10 + 0.5*11 = 10.5 at index 4, and
    [calculate_ema] returns 10 there; for 10, 11, 11 and window 2 the mean
    of the first two prices is 10.5, and the seed that is stored is 10. *)
Theorem calculate_ema_int64_prices_truncate :
  @calculate_ema float int64_Num [10; 11; 12; 11; 10]%float 3
  = Ok [11; 11; 11; 11; 10]%float /\
  of_Z 2 /^ of_Z (Z.of_nat 3 + 1) *^ 10%float
    +^ (of_Z 1 -^ of_Z 2 /^ of_Z (Z.of_nat 3 + 1)) *^ 11%float = 10.5%float /\
  @calculate_ema float int64_Num [10; 11; 11]%float 2 = Ok [10; 10; 10]%float /\
  np_mean (take 2 [10; 11; 11]%float) = 10.5%float /\
  PrimFloat.eqb 10 10.5 = false.
Proof. repeat split; vm_compute; reflexivity. Qed.

(** C3 (code bug). With exactly [window] prices (here the default 14) the
    guard [len(prices) < window] lets the input through and the store
    [avg_gain[window] = ...] is out of bounds: [calculate_rsi] raises
    [IndexError] instead of returning an array as long as [prices]. *)
Theorem calculate_rsi_fourteen_prices_IndexError :
  calculate_rsi
    [44; 44.5; 43.5; 44.5; 44; 43.5; 44; 44.5; 44; 43.5; 44; 44.5; 45; 44.5]%float
    14
  = Raise IndexError.
Proof. vm_compute. reflexivity. Qed.

(** C6 (code bug). With 20 prices and the default windows (12, 26, 9) the
    short EMA has 20 entries and the long EMA is empty; their difference
    does not broadcast, and [calculate_macd] raises [ValueError] instead
    of returning two empty lines. *)
Theorem calculate_macd_twenty_prices_ValueError :
  calculate_macd
    [10; 11; 12; 11; 10; 11; 12; 13; 12; 11;
     10; 11; 12; 11; 10; 11; 12; 13; 12; 11]%float
    12 26 9
  = Raise ValueError.
Proof. vm_compute. reflexivity. Qed.

(** C4 (counterexample). On the flat series [5, 5, 5] with window 1 the
    average loss at index 1 is 0 and so is the average gain: the ratio is
    0/0 and the RSI there is NaN, not 100. *)
Lemma calculate_rsi_flat_prices_nan :
  rsi_averages [5; 5; 5]%float 1 = Ok ([0; 0; 0], [0; 0; 0])%float /\
  calculate_rsi [5; 5; 5]%float 1 = Ok [nan; nan; nan].
Proof. split; vm_compute; reflexivity. Qed.

(** C7 (counterexample). With [num_std = 0] both bands equal the average
    although the standard deviation of the window [1, 3] is 1, not 0. *)
Lemma bollinger_bands_touch_with_nonzero_std :
  calculate_bollinger_bands [1; 3]%float 2 0%float = Ok ([2], [2], [2])%float /\
  np_std (py_slice [1; 3]%float 0 2) = 1%float.
Proof. split; vm_compute; reflexivity. Qed.

(** on binary64 the sums of the bands are rounded, and a product that is
    not zero can be absorbed: with [num_std = 2^-60] and the deviation 1 of
    the window [1, 3] the product is 2^-60, and both bands are the average *)
Lemma bollinger_bands_absorb_small_product :
  calculate_bollinger_bands [1; 3]%float 2 0x1p-60%float = Ok ([2], [2], [2])%float /\
  np_std (py_slice [1; 3]%float 0 2) *^ 0x1p-60%float = 0x1p-60%float /\
  PrimFloat.eqb 0x1p-60 0 = false.
Proof. repeat split; vm_compute; reflexivity. Qed.

(** C8 (counterexample). Both stocks have the returns [1, 0.5], of
    variance 0.125.  In binary64 0.125 / sqrt(0.125) / sqrt(0.125) is
    1 - 2^-53, so no entry of the matrix, the diagonal included, is 1.0. *)
Lemma correlation_diagonal_below_one :
  calculate_correlation_matrix identical_returns ["A"; "B"]
  = Ok (Some (["A"; "B"],
              [[0x1.fffffffffffffp-1; 0x1.fffffffffffffp-1];
               [0x1.fffffffffffffp-1; 0x1.fffffffffffffp-1]]%float)) /\
  PrimFloat.eqb 0x1.fffffffffffffp-1 1 = false.
Proof. split; vm_compute; reflexivity. Qed.

(** ** Instances of the theorems *)

(** C1 at the prices 1, 2, 4 and window 2, and at a single price *)
Lemma calculate_sma_spec_witness :
  (1 <= 2 /\
   exists sma, calculate_sma (Fin <$> [1; 2; 4]%R) 2 = Ok sma /\
     Z.of_nat (length sma)
     = Z.max 0 (Z.of_nat (length [1; 2; 4]%R) - Z.of_nat 2 + 1) /\
     (forall i, i + 2 <= length [1; 2; 4]%R ->
        sma !! i = Some (Fin (arith_mean (py_slice [1; 2; 4]%R i 2)))) /\
     (length [1; 2; 4]%R < 2 -> sma = [])) /\
  (1 <= 2 /\ length [1%R] < 2 /\ calculate_sma (Fin <$> [1%R]) 2 = Ok []).
Proof.
  split.
  - split; [lia | apply (calculate_sma_spec [1; 2; 4]%R 2); lia].
  - split; [lia|]. split; [simpl; lia|].
    destruct (calculate_sma_spec [1%R] 2) as (sma & Hrun & _ & _ & Hshort); [lia|].
    rewrite Hrun. f_equal. apply Hshort. simpl. lia.
Defined.

(** the float64 case of the EMA on binary64: two prices against window 3,
    and five prices *)
Lemma calculate_ema_float64_witness :
  (forall x : float, ncast x = x) /\
  (1 <= 3 /\ length [10; 11]%float < 3 /\
   calculate_ema [10; 11]%float 3 = Ok []) /\
  (1 <= 3 /\ 3 <= length [10; 11; 12; 11; 10]%float /\
   exists ema, calculate_ema [10; 11; 12; 11; 10]%float 3 = Ok ema /\
     length ema = length [10; 11; 12; 11; 10]%float /\
     (forall i, i < 3 ->
        ema !! i = Some (np_mean (take 3 [10; 11; 12; 11; 10]%float))) /\
     (forall i, 3 <= i < length [10; 11; 12; 11; 10]%float ->
        exists p e, [10; 11; 12; 11; 10]%float !! i = Some p /\
          ema !! (i - 1) = Some e /\
          ema !! i = Some (of_Z 2 /^ of_Z (Z.of_nat 3 + 1) *^ p
                           +^ (of_Z 1 -^ of_Z 2 /^ of_Z (Z.of_nat 3 + 1)) *^ e))).
Proof.
  assert (forall x : float, ncast x = x) as Hcast by reflexivity.
  split; [exact Hcast|]. split.
  - split; [lia|]. split; [simpl; lia|].
    apply (calculate_ema_float64 [10; 11]%float 3 Hcast); [lia | simpl; lia].
  - split; [lia|]. split; [simpl; lia|].
    apply (calculate_ema_float64 [10; 11; 12; 11; 10]%float 3 Hcast); [lia | simpl; lia].
Defined.

Lemma rsi_averages_rising :
  rsi_averages [Fin 1; Fin 2; Fin 3] 1
  = Ok ([Fin 0; Fin 1; Fin 1], [Fin 0; Fin 0; Fin 0]).
Proof. xreal_run. Qed.

(** C4 (amended) on the rising prices 1, 2, 3 with window 1: at index 1 the
    average loss is 0 and the average gain 1 *)
Lemma rsi_zero_loss_positive_gain_witness :
  rsi_averages [Fin 1; Fin 2; Fin 3] 1
  = Ok ([Fin 0; Fin 1; Fin 1], [Fin 0; Fin 0; Fin 0]) /\
  [Fin 0; Fin 0; Fin 0] !! 1 = Some (of_Z 0) /\
  [Fin 0; Fin 1; Fin 1] !! 1 = Some (Fin 1) /\
  (of_Z 0 <?^ Fin 1) = true /\
  exists rsi, calculate_rsi [Fin 1; Fin 2; Fin 3] 1 = Ok rsi /\
    rsi !! 1 = Some (of_Z 100).
Proof.
  assert ((of_Z 0 <?^ Fin 1) = true) as Hpos.
  { simpl. destruct (Rlt_dec 0 1); [reflexivity | lra]. }
  split; [apply rsi_averages_rising|]. split; [reflexivity|].
  split; [reflexivity|]. split; [exact Hpos|].
  apply (rsi_zero_loss_positive_gain [Fin 1; Fin 2; Fin 3] 1
           [Fin 0; Fin 1; Fin 1] [Fin 0; Fin 0; Fin 0] 1 (Fin 1));
    [apply rsi_averages_rising | reflexivity | reflexivity | exact Hpos].
Defined.

(** C5 on four prices with window 2 *)
Lemma calculate_rsi_in_range_witness :
  2 < length [Fin 1; Fin 2; Fin 3; Fin 2] /\
  exists rsi, calculate_rsi [Fin 1; Fin 2; Fin 3; Fin 2] 2 = Ok rsi /\
    length rsi = length [Fin 1; Fin 2; Fin 3; Fin 2] /\
    forall i v, rsi !! i = Some v -> v <> NaN ->
      exists r, v = Fin r /\ (0 <= r <= 100)%R.
Proof.
  split; [simpl; lia|].
  apply (calculate_rsi_in_range [Fin 1; Fin 2; Fin 3; Fin 2] 2). simpl. lia.
Defined.

(** C7 (amended) on the prices 1, 3, 5, 9 with window 2 and two deviations *)
Lemma bollinger_bands_ordered_witness :
  1 <= 2 <= length [1; 3; 5; 9]%R /\ (0 <= 2)%R /\
  exists sma upper lower,
    calculate_bollinger_bands (Fin <$> [1; 3; 5; 9]%R) 2 (Fin 2)
    = Ok (sma, upper, lower) /\
    length sma = length [1; 3; 5; 9]%R - 2 + 1 /\
    length upper = length sma /\ length lower = length sma /\
    forall i, i < length sma ->
      exists m u lo,
        sma !! i = Some (Fin m) /\ upper !! i = Some (Fin u) /\
        lower !! i = Some (Fin lo) /\
        (lo <= m <= u)%R /\
        (lo = m \/ m = u ->
         np_std (py_slice (Fin <$> [1; 3; 5; 9]%R) i 2) = Fin 0 \/ 2%R = 0%R).
Proof.
  split; [simpl; lia|]. split; [lra|].
  apply (bollinger_bands_ordered [1; 3; 5; 9]%R 2 2); [simpl; lia | lra].
Defined.

Lemma exact_stocks_first_pass :
  first_pass exact_stocks ["A"; "B"] [] None
  = Some ([("A", [Fin 1; Fin 2; Fin 3]); ("B", [Fin 2; Fin 1; Fin 2])], Some 3).
Proof. reflexivity. Qed.

Lemma exact_stocks_second_pass :
  second_pass [("A", [Fin 1; Fin 2; Fin 3]); ("B", [Fin 2; Fin 1; Fin 2])] (Some 3)
  = Ok [("A", [Fin 1; Fin (1 / 2)]); ("B", [Fin (- (1 / 2)); Fin 1])].
Proof. xreal_run. Qed.

Lemma exact_stocks_present s : s ∈ ["A"; "B"] -> ~ missing_data exact_stocks s.
Proof.
  intros Hs. unfold missing_data.
  apply elem_of_cons in Hs as [->|Hs]; [|apply list_elem_of_singleton in Hs as ->].
  - change (exact_stocks !! "A")
      with (Some (stock_of_closes "A" [Fin 1; Fin 2; Fin 3])). simpl. lia.
  - change (exact_stocks !! "B")
      with (Some (stock_of_closes "B" [Fin 2; Fin 1; Fin 2])). simpl. lia.
Qed.

Lemma exact_stocks_nondegenerate :
  Forall (fun kv : string * list xreal => nondegenerate kv.2)
    [("A", [Fin 1; Fin (1 / 2)]); ("B", [Fin (- (1 / 2)); Fin 1])].
Proof.
  repeat constructor; simpl.
  - exists (Rcov [1; 1 / 2] [1; 1 / 2])%R. split.
    + by apply (np_cov_entry_Fin [1; 1 / 2]%R [1; 1 / 2]%R).
    + unfold Rcov, Rcentered, arith_mean. simpl. lra.
  - exists (Rcov [- (1 / 2); 1] [- (1 / 2); 1])%R. split.
    + by apply (np_cov_entry_Fin [- (1 / 2); 1]%R [- (1 / 2); 1]%R).
    + unfold Rcov, Rcentered, arith_mean. simpl. lra.
Qed.

(** C8 (amended) on two stocks of three prices each, with the returns
    1, 1/2 and -1/2, 1 *)
Lemma correlation_matrix_symmetric_unit_diagonal_witness :
  2 <= length ["A"; "B"] /\
  (forall s, s ∈ ["A"; "B"] -> ~ missing_data exact_stocks s) /\
  (forall price_data min_length aligned,
     first_pass exact_stocks ["A"; "B"] [] None = Some (price_data, min_length) ->
     second_pass price_data min_length = Ok aligned ->
     Forall (fun kv : string * list xreal => nondegenerate kv.2) aligned) /\
  exists symbols_list m,
    calculate_correlation_matrix exact_stocks ["A"; "B"]
    = Ok (Some (symbols_list, m)) /\
    (forall s, s ∈ symbols_list <-> s ∈ ["A"; "B"]) /\
    length m = length symbols_list /\
    forall i j, i < length symbols_list -> j < length symbols_list ->
      exists row_i row_j c,
        m !! i = Some row_i /\ m !! j = Some row_j /\
        length row_i = length symbols_list /\
        row_i !! j = Some c /\ row_j !! i = Some c /\
        row_i !! i = Some (Fin 1).
Proof.
  assert (forall price_data min_length aligned,
     first_pass exact_stocks ["A"; "B"] [] None = Some (price_data, min_length) ->
     second_pass price_data min_length = Ok aligned ->
     Forall (fun kv : string * list xreal => nondegenerate kv.2) aligned) as Hnd.
  { intros price_data min_length aligned Hfirst Hsecond.
    rewrite exact_stocks_first_pass in Hfirst. injection Hfirst as <- <-.
    rewrite exact_stocks_second_pass in Hsecond. injection Hsecond as <-.
    exact exact_stocks_nondegenerate. }
  split; [simpl; lia|]. split; [exact exact_stocks_present|]. split; [exact Hnd|].
  apply (correlation_matrix_symmetric_unit_diagonal exact_stocks ["A"; "B"]);
    [simpl; lia | exact exact_stocks_present | exact Hnd].
Defined.

(** C9 with a symbol that is not loaded, and with one that has no rows *)
Lemma correlation_missing_data_is_None_witness :
  ("B" ∈ ["A"; "B"] /\ missing_data one_stock "B" /\
   calculate_correlation_matrix one_stock ["A"; "B"] = Ok None) /\
  ("C" ∈ ["A"; "C"] /\ missing_data one_stock "C" /\
   calculate_correlation_matrix one_stock ["A"; "C"] = Ok None).
Proof.
  assert ("B" ∈ ["A"; "B"]) as HB by (right; left).
  assert ("C" ∈ ["A"; "C"]) as HC by (right; left).
  assert (missing_data one_stock "B") as HmB by exact I.
  assert (missing_data one_stock "C") as HmC by reflexivity.
  split.
  - split; [exact HB|]. split; [exact HmB|].
    apply (correlation_missing_data_is_None one_stock ["A"; "B"] "B" HB HmB).
  - split; [exact HC|]. split; [exact HmC|].
    apply (correlation_missing_data_is_None one_stock ["A"; "C"] "C" HC HmC).
Defined.

(** C10 with a single symbol, and with none *)
Lemma correlation_fewer_than_two_is_None_witness :
  (length ["A"] < 2 /\ calculate_correlation_matrix one_stock ["A"] = Ok None) /\
  (length ([] : list string) < 2 /\
   calculate_correlation_matrix one_stock [] = Ok None).
Proof.
  split.
  - split; [simpl; lia|].
    apply (correlation_fewer_than_two_is_None one_stock ["A"]). simpl. lia.
  - split; [simpl; lia|].
    apply (correlation_fewer_than_two_is_None one_stock []). simpl. lia.
Defined.

(** ** RSI: the cases of the length, and monotone prices *)

Section RsiShape.
Context {A : Type} `{Num A}.
Implicit Types (prices : list A) (window : nat).

(** X1. [calculate_rsi] by the length of its input, for any arithmetic:
    fewer prices than the window give the empty array, exactly [window]
    prices raise [IndexError] (the store [avg_gain[window]] is out of
    range), more prices give an array as long as the input. *)
Theorem calculate_rsi_cases prices window :
  (length prices < window -> calculate_rsi prices window = Ok []) /\
  (length prices = window -> calculate_rsi prices window = Raise IndexError) /\
  (window < length prices ->
     exists rsi, calculate_rsi prices window = Ok rsi /\ length rsi = length prices).
Proof.
  split; [apply calculate_rsi_short|].
  split; [apply calculate_rsi_IndexError | apply calculate_rsi_long].
Qed.

Lemma rsi_averages_inv2 (Pg Pl : A -> Prop) prices window :
  window < length prices ->
  let gains := rsi_gains (np_diff prices) in
  let losses := rsi_losses (np_diff prices) in
  Pg (ncast (np_mean (take window gains))) ->
  Pl (ncast (np_mean (take window losses))) ->
  (forall g1 g, Pg g1 -> g ∈ gains -> Pg (ncast (wilder window g1 g))) ->
  (forall l1 l, Pl l1 -> l ∈ losses -> Pl (ncast (wilder window l1 l))) ->
  exists avg_gain avg_loss,
    rsi_averages prices window = Ok (avg_gain, avg_loss) /\
    avg_inv Pg prices window (length prices) avg_gain /\
    avg_inv Pl prices window (length prices) avg_loss.
Proof.
  intros Hlen gains losses Hg0 Hl0 Hgs Hls. unfold rsi_averages.
  rewrite !py_set_nat by (rewrite length_np_zeros_like; lia). simpl.
  fold gains losses.
  destruct (for_range_inv
    (fun k st => avg_inv Pg prices window k st.1 /\ avg_inv Pl prices window k st.2)
    (window + 1) (length prices)
    (fun i '(avg_gain, avg_loss) =>
       let* g1 := py_get avg_gain (Z.of_nat i - 1) in
       let* g := py_get gains (Z.of_nat i - 1) in
       let* avg_gain := py_set avg_gain (Z.of_nat i) (ncast (wilder window g1 g)) in
       let* l1 := py_get avg_loss (Z.of_nat i - 1) in
       let* l := py_get losses (Z.of_nat i - 1) in
       let* avg_loss := py_set avg_loss (Z.of_nat i) (ncast (wilder window l1 l)) in
       Ok (avg_gain, avg_loss))
    (<[window:=ncast (np_mean (take window gains))]> (np_zeros_like prices),
     <[window:=ncast (np_mean (take window losses))]> (np_zeros_like prices)))
    as ([ag al] & Hrun & Hag & Hal).
  - lia.
  - split; by apply avg_inv_init.
  - intros i [ag al] Hi [Hag Hal]; simpl in Hag, Hal.
    destruct (avg_inv_prev _ _ _ _ _ Hi Hag) as (g1 & Hg1 & HPg1).
    destruct (avg_inv_prev _ _ _ _ _ Hi Hal) as (l1 & Hl1 & HPl1).
    destruct (lookup_lt_is_Some_2 gains (i - 1)) as [g Hg].
    { unfold gains, rsi_gains. rewrite length_np_where0, length_np_diff. lia. }
    destruct (lookup_lt_is_Some_2 losses (i - 1)) as [l Hl].
    { unfold losses, rsi_losses. rewrite length_np_where0, length_np_diff. lia. }
    rewrite (py_get_pred ag i g1); [|lia|done]. simpl.
    rewrite (py_get_pred gains i g); [|lia|done]. simpl.
    rewrite py_set_nat by (destruct Hag; lia). simpl.
    rewrite (py_get_pred al i l1); [|lia|done]. simpl.
    rewrite (py_get_pred losses i l); [|lia|done]. simpl.
    rewrite py_set_nat by (destruct Hal; lia). simpl.
    eexists; split; [done|]. simpl. split.
    + apply avg_inv_step; [done | | done].
      apply Hgs; [done|]. by eapply list_elem_of_lookup_2.
    + apply avg_inv_step; [done | | done].
      apply Hls; [done|]. by eapply list_elem_of_lookup_2.
  - exists ag, al. done.
Qed.

End RsiShape.

Section RsiMonotone.
Implicit Types (ps : list R) (window : nat).
Local Open Scope R_scope.

Lemma zip_with_nsub_Fin (a b : list R) :
  zip_with nsub (Fin <$> a) (Fin <$> b) = Fin <$> zip_with Rminus a b.
Proof.
  revert b. induction a as [|x a IH]; intros [|y b]; csimpl; [done..|].
  by rewrite IH.
Qed.

Lemma np_diff_Fin ps : np_diff (Fin <$> ps) = Fin <$> Rdiff ps.
Proof.
  unfold np_diff, Rdiff. rewrite <- zip_with_nsub_Fin. f_equal.
  by destruct ps.
Qed.

Lemma length_Rdiff ps : length (Rdiff ps) = (length ps - 1)%nat.
Proof. unfold Rdiff. rewrite length_zip_with. destruct ps; simpl; lia. Qed.


Lemma Forall_Rdiff (Q : R -> Prop) ps :
  (forall i a b, ps !! i = Some a -> ps !! S i = Some b -> Q (b - a)) ->
  Forall Q (Rdiff ps).
Proof.
  intros Hstep. apply Forall_lookup. intros i d Hd. unfold Rdiff in Hd.
  apply lookup_zip_with_Some in Hd as (b & a & -> & Hb & Ha).
  rewrite lookup_tail in Hb. by eapply Hstep.
Qed.

Lemma rsi_gains_pos (ds : list R) :
  Forall (fun d => 0 < d) ds -> Forall posfin (rsi_gains (Fin <$> ds)).
Proof.
  intros Hds. unfold rsi_gains, np_where0. rewrite <- list_fmap_compose.
  apply Forall_fmap. eapply Forall_impl; [exact Hds|]. intros d Hd.
  unfold compose. simpl. destruct (Rlt_dec 0 d); [|lra]. by exists d.
Qed.

Lemma rsi_gains_zero (ds : list R) :
  Forall (fun d => d <= 0) ds -> Forall (eq (Fin 0)) (rsi_gains (Fin <$> ds)).
Proof.
  intros Hds. unfold rsi_gains, np_where0. rewrite <- list_fmap_compose.
  apply Forall_fmap. eapply Forall_impl; [exact Hds|]. intros d Hd.
  unfold compose. simpl. destruct (Rlt_dec 0 d); [lra | done].
Qed.

Lemma rsi_losses_pos (ds : list R) :
  Forall (fun d => d < 0) ds -> Forall posfin (rsi_losses (Fin <$> ds)).
Proof.
  intros Hds. unfold rsi_losses, np_where0. rewrite <- list_fmap_compose.
  apply Forall_fmap. eapply Forall_impl; [exact Hds|]. intros d Hd.
  unfold compose. simpl. destruct (Rlt_dec d 0); [|lra]. exists (- d). split; [done | lra].
Qed.

Lemma rsi_losses_zero (ds : list R) :
  Forall (fun d => 0 <= d) ds -> Forall (eq (Fin 0)) (rsi_losses (Fin <$> ds)).
Proof.
  intros Hds. unfold rsi_losses, np_where0. rewrite <- list_fmap_compose.
  apply Forall_fmap. eapply Forall_impl; [exact Hds|]. intros d Hd.
  unfold compose. simpl. destruct (Rlt_dec d 0); [lra | done].
Qed.

Lemma xadd_zero : Fin 0 +^ Fin 0 = Fin 0.
Proof. simpl. f_equal. lra. Qed.

Lemma fold_left_xadd_zero (l : list xreal) :
  Forall (eq (Fin 0)) l -> fold_left nadd l (Fin 0) = Fin 0.
Proof.
  induction 1 as [|y l <- Hl IH]; cbn [fold_left]; [done|].
  by rewrite xadd_zero.
Qed.

Lemma np_sum_zero (l : list xreal) : Forall (eq (Fin 0)) l -> np_sum l = Fin 0.
Proof.
  destruct 1 as [|x l <- Hl]; [done|]. cbn [np_sum]. by apply fold_left_xadd_zero.
Qed.

Lemma fold_left_xadd_pos (l : list xreal) x :
  posfin x -> Forall posfin l -> posfin (fold_left nadd l x).
Proof.
  intros Hx Hl. revert x Hx.
  induction Hl as [|y l Hy Hl IH]; intros x Hx; cbn [fold_left]; [done|].
  apply IH. destruct Hx as (a & -> & Ha), Hy as (b & -> & Hb).
  exists (a + b). split; [done | lra].
Qed.

Lemma np_sum_pos (l : list xreal) : l <> [] -> Forall posfin l -> posfin (np_sum l).
Proof.
  intros Hne Hl. destruct Hl as [|x l Hx Hl]; [done|]. cbn [np_sum].
  by apply fold_left_xadd_pos.
Qed.

Lemma np_mean_zero (l : list xreal) :
  l <> [] -> Forall (eq (Fin 0)) l -> np_mean l = Fin 0.
Proof.
  intros Hne Hl. unfold np_mean. rewrite np_sum_zero by done.
  rewrite xdiv_Fin_nat by (destruct l; simpl; [done | lia]).
  f_equal. unfold Rdiv. apply Rmult_0_l.
Qed.

Lemma np_mean_pos (l : list xreal) : l <> [] -> Forall posfin l -> posfin (np_mean l).
Proof.
  intros Hne Hl. unfold np_mean.
  destruct (np_sum_pos l Hne Hl) as (s & -> & Hs).
  assert (1 <= length l)%nat as Hlen by (destruct l; simpl; [done | lia]).
  rewrite xdiv_Fin_nat by done. eexists; split; [done|].
  apply Rdiv_lt_0_compat; [done|]. apply lt_0_INR. lia.
Qed.

Lemma wilder_zero window : (1 <= window)%nat -> wilder window (Fin 0) (Fin 0) = Fin 0.
Proof.
  intros Hw. unfold wilder. simpl.
  destruct (Req_dec_T (IZR (Z.of_nat window)) 0) as [Hz|_].
  - apply eq_IZR in Hz. lia.
  - f_equal. unfold Rdiv. rewrite Rmult_0_l, Rplus_0_l. apply Rmult_0_l.
Qed.

Lemma wilder_pos window v g :
  (1 <= window)%nat -> posfin v -> posfin g -> posfin (wilder window v g).
Proof.
  intros Hw (a & -> & Ha) (b & -> & Hb). unfold wilder. simpl.
  assert (0 < IZR (Z.of_nat window)) as Hwz by (apply IZR_lt; lia).
  assert (0 <= IZR (Z.of_nat window - 1)) as Hw1 by (apply IZR_le; lia).
  destruct (Req_dec_T (IZR (Z.of_nat window)) 0) as [Hz|_]; [lra|].
  eexists; split; [done|]. apply Rdiv_lt_0_compat; [|done]. nra.
Qed.

Lemma take_nonempty {T : Type} (l : list T) n : (1 <= n)%nat -> l <> [] -> take n l <> [].
Proof. destruct n, l; simpl; (done || lia). Qed.

Lemma rsi_of_rs_zero : rsi_of_rs (Fin 0) = Fin 0.
Proof. simpl. destruct (Req_dec_T (1 + 0) 0); [lra|]. f_equal. lra. Qed.

Lemma xdiv_zero_pos r : 0 < r -> Fin 0 /^ Fin r = Fin 0.
Proof.
  intros Hr. rewrite xdiv_Fin by lra. f_equal. unfold Rdiv. apply Rmult_0_l.
Qed.

Lemma rsi_of_rs_nan : rsi_of_rs (Fin 0 /^ Fin 0) = NaN.
Proof. simpl. unfold Rsign. xreal_dec; try done; lra. Qed.

(** the two averages of a series whose differences all satisfy a sign
    condition *)
Lemma rsi_averages_signs (Pg Pl : xreal -> Prop) ps window :
  (window < length ps)%nat ->
  Forall Pg (rsi_gains (Fin <$> Rdiff ps)) ->
  Forall Pl (rsi_losses (Fin <$> Rdiff ps)) ->
  (forall l : list xreal, l <> [] -> Forall Pg l -> Pg (np_mean l)) ->
  (forall l : list xreal, l <> [] -> Forall Pl l -> Pl (np_mean l)) ->
  (forall v g, Pg v -> Pg g -> Pg (wilder window v g)) ->
  (forall v g, Pl v -> Pl g -> Pl (wilder window v g)) ->
  (1 <= window)%nat ->
  exists avg_gain avg_loss,
    rsi_averages (Fin <$> ps) window = Ok (avg_gain, avg_loss) /\
    avg_inv Pg (Fin <$> ps) window (length (Fin <$> ps)) avg_gain /\
    avg_inv Pl (Fin <$> ps) window (length (Fin <$> ps)) avg_loss.
Proof.
  intros Hlen Hg Hl Hmg Hml Hwg Hwl Hw.
  assert (rsi_gains (Fin <$> Rdiff ps) <> []) as Hgne.
  { intros Hnil. apply (f_equal length) in Hnil.
    unfold rsi_gains in Hnil.
    rewrite length_np_where0, length_fmap, length_Rdiff in Hnil. simpl in Hnil. lia. }
  assert (rsi_losses (Fin <$> Rdiff ps) <> []) as Hlne.
  { intros Hnil. apply (f_equal length) in Hnil.
    unfold rsi_losses in Hnil.
    rewrite length_np_where0, length_fmap, length_Rdiff in Hnil. simpl in Hnil. lia. }
  apply rsi_averages_inv2; rewrite ?length_fmap, ?np_diff_Fin; try done.
  - apply Hmg; [by apply take_nonempty | by apply Forall_take].
  - apply Hml; [by apply take_nonempty | by apply Forall_take].
  - intros g1 g Hg1 Hin. apply Hwg; [done|]. by eapply Forall_forall.
  - intros l1 l Hl1 Hin. apply Hwl; [done|]. by eapply Forall_forall.
Qed.

Lemma zero_mean (l : list xreal) : l <> [] -> Forall (eq (Fin 0)) l -> Fin 0 = np_mean l.
Proof. intros. by rewrite np_mean_zero. Qed.

Lemma zero_wilder window v g :
  (1 <= window)%nat -> Fin 0 = v -> Fin 0 = g -> Fin 0 = wilder window v g.
Proof. intros Hw <- <-. by rewrite wilder_zero. Qed.

(** X3. On finite prices that rise at every step the RSI is 100 at
    every index from [window] on: the average loss stays 0 and the average
    gain positive. *)
Theorem calculate_rsi_rising ps window :
  (1 <= window < length ps)%nat ->
  (forall i a b, ps !! i = Some a -> ps !! S i = Some b -> a < b) ->
  exists rsi, calculate_rsi (Fin <$> ps) window = Ok rsi /\
    forall i, (window <= i < length ps)%nat -> rsi !! i = Some (Fin 100).
Proof.
  intros [Hw Hlen] Hup.
  assert (Forall (fun d => 0 < d) (Rdiff ps)) as Hds.
  { apply Forall_Rdiff. intros i a b Ha Hb. specialize (Hup i a b Ha Hb). lra. }
  destruct (rsi_averages_signs posfin (eq (Fin 0)) ps window)
    as (ag & al & Hrun & [Hag1 Hag] & [Hal1 Hal]); try done.
  - by apply rsi_gains_pos.
  - apply rsi_losses_zero. eapply Forall_impl; [exact Hds|]. intros d Hd. simpl in *. lra.
  - apply np_mean_pos.
  - apply zero_mean.
  - intros v g. by apply wilder_pos.
  - intros v g. by apply zero_wilder.
  - destruct (calculate_rsi_lookup _ _ _ _ Hrun) as (rsi & Hrsi & _ & Hlk).
    exists rsi. split; [done|]. intros i Hi. rewrite Hlk.
    rewrite length_fmap in *.
    destruct (lookup_lt_is_Some_2 ag i) as [a Ha]; [lia|].
    destruct (lookup_lt_is_Some_2 al i) as [b Hb]; [lia|].
    rewrite Ha, Hb. cbn [mbind option_bind]. f_equal.
    specialize (Hag i a Ha). specialize (Hal i b Hb).
    rewrite decide_True in Hag, Hal by lia.
    destruct Hag as (r & -> & Hr). subst b.
    rewrite xdiv_pos_zero; [apply rsi_of_rs_PInf|].
    simpl. by destruct (Rlt_dec 0 r).
Qed.

Lemma rsi_falling_entries ps window :
  (1 <= window < length ps)%nat ->
  (forall i a b, ps !! i = Some a -> ps !! S i = Some b -> b < a) ->
  exists rsi, calculate_rsi (Fin <$> ps) window = Ok rsi /\
    forall i, (window <= i < length ps)%nat -> rsi !! i = Some (Fin 0).
Proof.
  intros [Hw Hlen] Hdown.
  assert (Forall (fun d => d < 0) (Rdiff ps)) as Hds.
  { apply Forall_Rdiff. intros i a b Ha Hb. specialize (Hdown i a b Ha Hb). lra. }
  destruct (rsi_averages_signs (eq (Fin 0)) posfin ps window)
    as (ag & al & Hrun & [Hag1 Hag] & [Hal1 Hal]); try done.
  - apply rsi_gains_zero. eapply Forall_impl; [exact Hds|]. intros d Hd. simpl in *. lra.
  - by apply rsi_losses_pos.
  - apply zero_mean.
  - apply np_mean_pos.
  - intros v g. by apply zero_wilder.
  - intros v g. by apply wilder_pos.
  - destruct (calculate_rsi_lookup _ _ _ _ Hrun) as (rsi & Hrsi & _ & Hlk).
    exists rsi. split; [done|]. intros i Hi. rewrite Hlk.
    rewrite length_fmap in *.
    destruct (lookup_lt_is_Some_2 ag i) as [a Ha]; [lia|].
    destruct (lookup_lt_is_Some_2 al i) as [b Hb]; [lia|].
    rewrite Ha, Hb. cbn [mbind option_bind]. f_equal.
    specialize (Hag i a Ha). specialize (Hal i b Hb).
    rewrite decide_True in Hag, Hal by lia.
    destruct Hal as (r & -> & Hr). subst a.
    rewrite xdiv_zero_pos by done. apply rsi_of_rs_zero.
Qed.

(** X4. On finite prices that fall at every step the RSI is 0 at every
    index from [window] on: the average gain stays 0 and the average loss
    positive. *)
Theorem calculate_rsi_falling ps window :
  (1 <= window < length ps)%nat ->
  (forall i a b, ps !! i = Some a -> ps !! S i = Some b -> b < a) ->
  exists rsi, calculate_rsi (Fin <$> ps) window = Ok rsi /\
    forall i, (window <= i < length ps)%nat -> rsi !! i = Some (Fin 0).
Proof. exact (rsi_falling_entries ps window). Qed.

(** X2. Whatever the prices, the entries of the RSI before index
    [window] are NaN: there both averages are still the zeros of
    [np.zeros_like], and 0/0 is NaN. *)
Theorem calculate_rsi_prefix_nan (prices : list xreal) window :
  (window < length prices)%nat ->
  exists rsi, calculate_rsi prices window = Ok rsi /\
    forall i, (i < window)%nat -> rsi !! i = Some NaN.
Proof.
  intros Hlen.
  destruct (rsi_averages_inv (fun _ => True) prices window Hlen)
    as (ag & al & Hrun & [Hag1 Hag] & [Hal1 Hal]); try done.
  destruct (calculate_rsi_lookup _ _ _ _ Hrun) as (rsi & Hrsi & _ & Hlk).
  exists rsi. split; [done|]. intros i Hi. rewrite Hlk.
  destruct (lookup_lt_is_Some_2 ag i) as [a Ha]; [lia|].
  destruct (lookup_lt_is_Some_2 al i) as [b Hb]; [lia|].
  rewrite Ha, Hb. cbn [mbind option_bind]. f_equal.
  specialize (Hag i a Ha). specialize (Hal i b Hb).
  rewrite decide_False in Hag, Hal by lia. subst a b.
  apply rsi_of_rs_nan.
Qed.

(** X5. On a constant series the RSI is NaN at every index: no gain and
    no loss, so every ratio is 0/0. *)
Theorem calculate_rsi_constant (c : R) (n window : nat) :
  (1 <= window < n)%nat ->
  calculate_rsi (Fin <$> replicate n c) window = Ok (replicate n NaN).
Proof.
  intros [Hw Hlen].
  assert (Forall (fun d => d = 0) (Rdiff (replicate n c))) as Hds.
  { apply Forall_Rdiff. intros i a b Ha Hb.
    apply lookup_replicate in Ha as [-> _]. apply lookup_replicate in Hb as [-> _]. lra. }
  destruct (rsi_averages_signs (eq (Fin 0)) (eq (Fin 0)) (replicate n c) window)
    as (ag & al & Hrun & [Hag1 Hag] & [Hal1 Hal]); try done.
  - by rewrite length_replicate.
  - apply rsi_gains_zero. eapply Forall_impl; [exact Hds|]. intros d Hd. simpl in *. lra.
  - apply rsi_losses_zero. eapply Forall_impl; [exact Hds|]. intros d Hd. simpl in *. lra.
  - apply zero_mean.
  - apply zero_mean.
  - intros v g. by apply zero_wilder.
  - intros v g. by apply zero_wilder.
  - destruct (calculate_rsi_lookup _ _ _ _ Hrun) as (rsi & Hrsi & Hl & Hlk).
    rewrite Hrsi. f_equal. rewrite length_fmap, length_replicate in *.
    apply list_eq. intros i. rewrite Hlk.
    destruct (decide (i < n)%nat) as [Hi|Hi].
    + destruct (lookup_lt_is_Some_2 ag i) as [a Ha]; [lia|].
      destruct (lookup_lt_is_Some_2 al i) as [b Hb]; [lia|].
      rewrite Ha, Hb, lookup_replicate_2 by done. cbn [mbind option_bind]. f_equal.
      specialize (Hag i a Ha). specialize (Hal i b Hb).
      assert (a = Fin 0) as -> by (destruct (decide (window <= i < n)%nat); done).
      assert (b = Fin 0) as -> by (destruct (decide (window <= i < n)%nat); done).
      apply rsi_of_rs_nan.
    + rewrite (lookup_ge_None_2 ag) by lia.
      symmetry. apply lookup_ge_None_2. rewrite length_replicate. lia.
Qed.

End RsiMonotone.

(** ** MACD: when it returns and when it raises *)

Section MacdShape.
Context {A : Type} `{Num A}.
Implicit Types (prices : list A).

Lemma broadcast2_nil_l (f : A -> A -> A) (b : list A) :
  2 <= length b -> broadcast2 f [] b = Raise ValueError.
Proof.
  intros Hl. unfold broadcast2.
  destruct b as [|x [|y b]]; simpl in Hl; try lia.
  case_decide; [simpl in *; lia | done].
Qed.

Lemma macd_long_lines prices short_window long_window signal_window :
  1 <= short_window <= length prices ->
  1 <= long_window <= length prices ->
  1 <= signal_window ->
  exists ema_short ema_long macd signal,
    calculate_ema prices short_window = Ok ema_short /\
    calculate_ema prices long_window = Ok ema_long /\
    calculate_macd prices short_window long_window signal_window = Ok (macd, signal) /\
    length macd = length prices /\
    (forall i, i < length prices ->
       exists a b, ema_short !! i = Some a /\ ema_long !! i = Some b /\
                   macd !! i = Some (a -^ b)) /\
    calculate_ema macd signal_window = Ok signal /\
    length signal = (if length prices <? signal_window then 0 else length prices).
Proof.
  intros Hs Hl Hg. unfold calculate_macd.
  destruct (calculate_ema_long prices short_window Hs) as (es & Hes & Hles & _).
  destruct (calculate_ema_long prices long_window Hl) as (el & Hel & Hlel & _).
  rewrite Hes, Hel. cbn [rbind].
  rewrite broadcast2_same by congruence. cbn [rbind].
  assert (length (zip_with nsub es el) = length prices) as Hlm
    by (rewrite length_zip_with; lia).
  assert (exists signal, calculate_ema (zip_with nsub es el) signal_window = Ok signal /\
            length signal = (if length prices <? signal_window then 0 else length prices))
    as (signal & Hsig & Hlsig).
  { destruct (Nat.ltb_spec (length prices) signal_window) as [Hlt|Hge].
    - exists []. split; [|done]. apply calculate_ema_short. lia.
    - destruct (calculate_ema_long (zip_with nsub es el) signal_window)
        as (sg & Hsg & Hlsg & _); [lia|].
      exists sg. split; [done | congruence]. }
  exists es, el, (zip_with nsub es el), signal.
  rewrite Hsig. cbn [rbind]. repeat split; try done.
  intros i Hi.
  destruct (lookup_lt_is_Some_2 es i) as [a Ha]; [lia|].
  destruct (lookup_lt_is_Some_2 el i) as [b Hb]; [lia|].
  exists a, b. repeat split; try done.
  apply lookup_zip_with_Some. by exists a, b.
Qed.

(** X6. When both windows fit the prices, [calculate_macd] returns for
    any arithmetic: the MACD line has the length of the prices and is,
    entry by entry, the short EMA minus the long one; the signal line is
    the EMA of the MACD line, of the same length, or empty when the signal
    window is longer than the prices. *)
Theorem calculate_macd_long prices short_window long_window signal_window :
  1 <= short_window <= length prices ->
  1 <= long_window <= length prices ->
  1 <= signal_window ->
  exists ema_short ema_long macd signal,
    calculate_ema prices short_window = Ok ema_short /\
    calculate_ema prices long_window = Ok ema_long /\
    calculate_macd prices short_window long_window signal_window = Ok (macd, signal) /\
    length macd = length prices /\
    (forall i, i < length prices ->
       exists a b, ema_short !! i = Some a /\ ema_long !! i = Some b /\
                   macd !! i = Some (a -^ b)) /\
    calculate_ema macd signal_window = Ok signal /\
    length signal = (if length prices <? signal_window then 0 else length prices).
Proof. exact (macd_long_lines prices short_window long_window signal_window). Qed.

(** X7. For at least two prices, [calculate_macd] raises exactly when
    one of the two windows fits the prices and the other does not, and the
    exception is the [ValueError] of the subtraction; in every other case
    it returns two lines. *)
Theorem calculate_macd_raises_iff prices short_window long_window signal_window :
  2 <= length prices ->
  1 <= short_window -> 1 <= long_window -> 1 <= signal_window ->
  (short_window <= length prices < long_window \/
   long_window <= length prices < short_window ->
   calculate_macd prices short_window long_window signal_window = Raise ValueError) /\
  (~ (short_window <= length prices < long_window \/
      long_window <= length prices < short_window) ->
   exists macd signal,
     calculate_macd prices short_window long_window signal_window = Ok (macd, signal)).
Proof.
  intros Hn Hs Hl Hg. split.
  - intros [[Hs1 Hl1]|[Hl1 Hs1]].
    + by apply calculate_macd_between.
    + unfold calculate_macd. rewrite calculate_ema_short by done. cbn [rbind].
      destruct (calculate_ema_long prices long_window) as (el & -> & Hlel & _); [lia|].
      cbn [rbind]. rewrite broadcast2_nil_l by lia. done.
  - intros Hno.
    destruct (decide (short_window <= length prices)) as [Hs1|Hs1].
    + destruct (calculate_macd_long prices short_window long_window signal_window)
        as (_ & _ & macd & signal & _ & _ & Hrun & _); [lia..|].
      by exists macd, signal.
    + exists [], []. apply calculate_macd_shorter_than_both; lia.
Qed.

End MacdShape.

(** ** The moving averages stay within the range of the prices *)

Section Bounds.
Implicit Types (ps l : list R) (window : nat) (lo hi : R).
Local Open Scope R_scope.

Lemma Rsum_bounds l lo hi :
  Forall (fun p => lo <= p <= hi) l ->
  INR (length l) * lo <= Rsum l <= INR (length l) * hi.
Proof.
  induction 1 as [|p l Hp Hl IH]; [simpl; lra|].
  rewrite length_cons, S_INR. simpl. lra.
Qed.

Lemma arith_mean_bounds l lo hi :
  l <> [] -> Forall (fun p => lo <= p <= hi) l -> lo <= arith_mean l <= hi.
Proof.
  intros Hne Hl. pose proof (Rsum_bounds l lo hi Hl) as [Hlo Hhi].
  assert (0 < INR (length l)) as Hn by (apply lt_0_INR; destruct l; simpl; [done | lia]).
  pose proof (Rinv_0_lt_compat _ Hn) as Hi.
  assert (INR (length l) * / INR (length l) = 1) as Hni by (apply Rinv_r; lra).
  unfold arith_mean, Rdiv.
  pose proof (Rmult_le_compat_r _ _ _ (Rlt_le _ _ Hi) Hlo) as H1.
  pose proof (Rmult_le_compat_r _ _ _ (Rlt_le _ _ Hi) Hhi) as H2.
  rewrite (Rmult_comm _ lo), Rmult_assoc, Hni in H1.
  rewrite (Rmult_comm _ hi), Rmult_assoc, Hni in H2.
  lra.
Qed.

Lemma alpha_Fin window :
  (1 <= window)%nat ->
  exists a, (of_Z 2 /^ of_Z (Z.of_nat window + 1) : xreal) = Fin a /\ 0 <= a <= 1.
Proof.
  intros Hw. simpl.
  assert (2 <= IZR (Z.of_nat window + 1)) as Hd by (apply IZR_le; lia).
  destruct (Req_dec_T (IZR (Z.of_nat window + 1)) 0) as [Hz|_]; [lra|].
  eexists; split; [done|].
  assert (0 < / IZR (Z.of_nat window + 1) <= / 2) as [Hi1 Hi2].
  { split; [apply Rinv_0_lt_compat; lra | apply Rinv_le_contravar; lra]. }
  unfold Rdiv. lra.
Qed.

(** X8. Over exact arithmetic every entry of the EMA lies between the
    least and the greatest price: the seed is a mean of prices, and each
    step is a convex combination, [alpha = 2/(window+1)] being in (0, 1]. *)
Theorem calculate_ema_within_price_range ps window lo hi :
  (1 <= window <= length ps)%nat ->
  Forall (fun p => lo <= p <= hi) ps ->
  exists ema, calculate_ema (Fin <$> ps) window = Ok ema /\
    length ema = length ps /\
    Forall (within lo hi) ema.
Proof.
  intros Hw Hps.
  destruct (calculate_ema_long (Fin <$> ps) window) as (ema & Hrun & Hlen & Hseed & Hrec).
  { by rewrite length_fmap. }
  rewrite length_fmap in *.
  exists ema. split; [done|]. split; [done|].
  destruct (alpha_Fin window) as (a & Ha & Ha01); [lia|].
  cbv zeta in Hrec. rewrite Ha in Hrec.
  assert (take window ps <> []) as Htake.
  { intros Hnil. apply (f_equal length) in Hnil. rewrite length_take in Hnil.
    simpl in Hnil. lia. }
  assert (forall i, (i < length ps)%nat -> exists v, ema !! i = Some v /\ within lo hi v)
    as Hall.
  { intros i. induction i as [|i IH]; intros Hi.
    - destruct (decide (0 < window)%nat) as [H0|H0]; [|lia].
      rewrite (Hseed 0%nat H0). eexists; split; [done|].
      rewrite <- fmap_take, np_mean_Fin by done.
      eexists; split; [done|]. apply arith_mean_bounds.
      + done.
      + by apply Forall_take.
    - destruct (decide (S i < window)%nat) as [Hlt|Hge].
      + rewrite (Hseed (S i) Hlt). eexists; split; [done|].
        rewrite <- fmap_take, np_mean_Fin by done.
        eexists; split; [done|]. apply arith_mean_bounds.
        * done.
        * by apply Forall_take.
      + destruct (Hrec (S i)) as (p & e & Hp & He & Hv); [lia|].
        replace (S i - 1)%nat with i in He by lia.
        destruct IH as (v & Hv' & r & -> & Hr); [lia|].
        assert (e = Fin r) as -> by congruence.
        rewrite list_lookup_fmap in Hp.
        destruct (ps !! S i) as [q|] eqn:Hq; [|done]. simplify_eq/=.
        eapply Forall_lookup in Hps; [|exact Hq].
        rewrite Hv. eexists; split; [done|]. eexists; split; [done|].
        nra. }
  apply Forall_lookup. intros i v Hv.
  destruct (Hall i) as (v' & Hv' & Hw'); [rewrite <- Hlen; by eapply lookup_lt_Some|].
  congruence.
Qed.

(** X9. Over exact arithmetic every entry of the SMA lies between the
    least and the greatest price. *)
Theorem calculate_sma_within_price_range ps window lo hi :
  (1 <= window <= length ps)%nat ->
  Forall (fun p => lo <= p <= hi) ps ->
  exists sma, calculate_sma (Fin <$> ps) window = Ok sma /\
    length sma = (length ps - window + 1)%nat /\
    Forall (within lo hi) sma.
Proof.
  intros Hw Hps. rewrite calculate_sma_long by done.
  eexists; split; [done|]. split; [by rewrite length_fmap, length_seq|].
  apply Forall_fmap, Forall_forall. intros i Hi. apply elem_of_seq in Hi.
  eexists; split; [done|]. apply arith_mean_bounds.
  - intros Hnil. apply (f_equal length) in Hnil.
    rewrite length_py_slice in Hnil by lia. simpl in Hnil. lia.
  - unfold py_slice. by apply Forall_take, Forall_drop.
Qed.

Lemma Rsum_replicate n c : Rsum (replicate n c) = INR n * c.
Proof. induction n as [|n IH]; [simpl; lra|]. rewrite S_INR. simpl. rewrite IH. lra. Qed.

Lemma arith_mean_replicate n c : (1 <= n)%nat -> arith_mean (replicate n c) = c.
Proof.
  intros Hn. unfold arith_mean. rewrite Rsum_replicate, length_replicate.
  field. apply not_0_INR. lia.
Qed.

Lemma pop_std_replicate n c : (1 <= n)%nat -> pop_std (replicate n c) = 0.
Proof.
  intros Hn. unfold pop_std. rewrite arith_mean_replicate by done.
  rewrite fmap_replicate, arith_mean_replicate by done.
  replace ((c - c) * (c - c)) with 0 by lra. apply sqrt_0.
Qed.

Lemma py_slice_replicate {T : Type} (n i w : nat) (c : T) :
  (i + w <= n)%nat -> py_slice (replicate n c) i w = replicate w c.
Proof.
  intros Hi. unfold py_slice. rewrite drop_replicate, take_replicate.
  f_equal. lia.
Qed.

(** X10. On a constant series the three Bollinger bands coincide, at the
    constant, whatever [num_std]: every rolling deviation is 0. *)
Theorem calculate_bollinger_bands_constant (c k : R) (n window : nat) :
  (1 <= window <= n)%nat ->
  let flat := replicate (n - window + 1) (Fin c) in
  calculate_bollinger_bands (Fin <$> replicate n c) window (Fin k)
  = Ok (flat, flat, flat).
Proof.
  intros Hw flat.
  rewrite calculate_bollinger_bands_long by (by rewrite length_replicate).
  rewrite length_replicate. unfold flat.
  assert (forall (f : nat -> xreal),
    (forall i, (i < n - window + 1)%nat -> f i = Fin c) ->
    f <$> seq 0 (n - window + 1) = replicate (n - window + 1) (Fin c)) as Hflat.
  { intros f Hf. apply list_eq. intros i. rewrite list_lookup_fmap.
    destruct (decide (i < n - window + 1)%nat) as [Hi|Hi].
    - rewrite lookup_seq_lt by done. rewrite lookup_replicate_2 by done.
      simpl. f_equal. by apply Hf.
    - rewrite lookup_seq_ge by lia. symmetry. apply lookup_replicate_None. lia. }
  rewrite !Hflat; [done|..]; intros i Hi;
    rewrite ?py_slice_replicate, ?arith_mean_replicate, ?pop_std_replicate by lia;
    f_equal; lra.
Qed.

End Bounds.

(** ** The correlation matrix for any arithmetic *)

Section KeyOrder.

Lemma add_key_NoDup keys k : NoDup keys -> NoDup (add_key keys k).
Proof.
  intros Hnd. unfold add_key. case_decide as Hk; [done|].
  apply NoDup_app. split; [done|]. split; [|apply NoDup_singleton].
  intros x Hx Hxk. apply list_elem_of_singleton in Hxk as ->. done.
Qed.

Lemma foldl_add_key_NoDup keys l : NoDup keys -> NoDup (foldl add_key keys l).
Proof.
  revert keys. induction l as [|k l IH]; intros keys Hnd; simpl; [done|].
  by apply IH, add_key_NoDup.
Qed.

Lemma elem_of_add_key s keys k : s ∈ add_key keys k <-> s ∈ keys \/ s = k.
Proof.
  unfold add_key. case_decide as Hk.
  - split; [by left|]. by intros [?| ->].
  - by rewrite elem_of_app, list_elem_of_singleton.
Qed.

Lemma elem_of_foldl_add_key s keys l :
  s ∈ foldl add_key keys l <-> s ∈ keys \/ s ∈ l.
Proof.
  revert keys. induction l as [|k l IH]; intros keys; simpl.
  - rewrite elem_of_nil. tauto.
  - rewrite IH, elem_of_add_key, elem_of_cons. tauto.
Qed.

Lemma foldl_add_key_fresh keys l :
  NoDup (keys ++ l) -> foldl add_key keys l = keys ++ l.
Proof.
  revert keys. induction l as [|k l IH]; intros keys Hnd; simpl.
  - by rewrite app_nil_r.
  - assert (k ∉ keys) as Hk.
    { apply NoDup_app in Hnd as (_ & Hdisj & _). intros Hin.
      apply (Hdisj k Hin). by left. }
    unfold add_key at 2. rewrite decide_False by done.
    rewrite IH; rewrite <- (assoc_L (++)); done.
Qed.

Lemma dict_keys_set_add_key {V : Type} k (v : V) d :
  dict_keys (dict_set k v d) = add_key (dict_keys d) k.
Proof. apply dict_keys_set. Qed.

End KeyOrder.

Section CorrelationTotal.
Context {A : Type} `{Num A}.
Implicit Types (stocks : gmap string (StockData A)) (symbols : list string).
Implicit Types (price_data aligned : dict (list A)) (min_length : option nat).

Lemma first_pass_key_order stocks symbols price_data min_length pd ml :
  first_pass stocks symbols price_data min_length = Some (pd, ml) ->
  dict_keys pd = foldl add_key (dict_keys price_data) symbols.
Proof.
  revert price_data min_length.
  induction symbols as [|s symbols IH]; intros price_data min_length; simpl.
  - by intros [= <- <-].
  - destruct (stocks !! s) as [sd|]; [|done].
    destruct (0 <? length (get_closing_prices sd)); [|done].
    intros Hrun. rewrite (IH _ _ Hrun). by rewrite dict_keys_set_add_key.
Qed.

Lemma second_pass_key_order price_data min_length aligned :
  second_pass price_data min_length = Ok aligned ->
  dict_keys aligned = foldl add_key [] (dict_keys price_data).
Proof.
  unfold second_pass.
  assert (forall acc : dict (list A),
    for_each price_data
      (fun '(symbol, prices) aligned_returns =>
         let* trimmed_prices := trim prices min_length in
         let* returns :=
           broadcast2 ndiv (np_diff trimmed_prices)
             (take (length trimmed_prices - 1) trimmed_prices) in
         Ok (dict_set symbol returns aligned_returns))
      acc = Ok aligned ->
    dict_keys aligned = foldl add_key (dict_keys acc) (dict_keys price_data))
    as Hgen.
  { induction price_data as [|[symbol prices] pd IH]; intros acc; cbn [for_each].
    - by intros [= <-].
    - destruct (trim prices min_length) as [t|]; [|done]. cbn [rbind].
      destruct (broadcast2 ndiv (np_diff t) (take (length t - 1) t)) as [r|]; [|done].
      cbn [rbind]. intros Hrun.
      rewrite (IH _ Hrun). by rewrite dict_keys_set_add_key. }
  apply Hgen.
Qed.

(** a missing symbol is the only reason for the early return *)
Lemma first_pass_None stocks symbols price_data min_length :
  first_pass stocks symbols price_data min_length = None ->
  exists s, s ∈ symbols /\ missing_data stocks s.
Proof.
  revert price_data min_length.
  induction symbols as [|s symbols IH]; intros price_data min_length; simpl; [done|].
  destruct (stocks !! s) as [sd|] eqn:Hs.
  - destruct (Nat.ltb_spec 0 (length (get_closing_prices sd))) as [Hpos|Hzero].
    + intros Hrun. destruct (IH _ _ Hrun) as (s' & Hin & Hmiss).
      exists s'. split; [by right | done].
    + intros _. exists s. split; [by left|]. unfold missing_data. rewrite Hs. lia.
  - intros _. exists s. split; [by left|]. unfold missing_data. by rewrite Hs.
Qed.

(** series of one length always have a coefficient (possibly NaN) *)
Lemma corr_at_total aligned (L i j : nat) :
  Forall (fun kv : string * list A => length kv.2 = L) aligned ->
  i < length aligned -> j < length aligned ->
  exists c, corr_at aligned i j = Ok c.
Proof.
  intros HL Hi Hj. unfold corr_at.
  destruct (lookup_lt_is_Some_2 (dict_keys aligned) i) as [s1 Hs1].
  { unfold dict_keys. by rewrite length_fmap. }
  destruct (lookup_lt_is_Some_2 (dict_keys aligned) j) as [s2 Hs2].
  { unfold dict_keys. by rewrite length_fmap. }
  rewrite (py_get_nat _ _ _ Hs1), (py_get_nat _ _ _ Hs2). cbn [rbind].
  destruct (dict_get_ok s1 aligned) as (r1 & -> & Hin1);
    [by eapply list_elem_of_lookup_2|].
  destruct (dict_get_ok s2 aligned) as (r2 & -> & Hin2);
    [by eapply list_elem_of_lookup_2|].
  cbn [rbind].
  eapply Forall_forall in Hin1; [|exact HL].
  eapply Forall_forall in Hin2; [|exact HL]. simpl in Hin1, Hin2.
  unfold np_corrcoef01. rewrite decide_True by congruence. by eexists.
Qed.

Lemma after_first_pass stocks symbols pd ml :
  first_pass stocks symbols [] None = Some (pd, ml) ->
  exists aligned m,
    second_pass pd ml = Ok aligned /\
    build_matrix aligned = Ok (dict_keys aligned, m) /\
    dict_keys aligned = foldl add_key [] symbols /\
    length m = length (dict_keys aligned) /\
    Forall (fun row => length row = length (dict_keys aligned)) m.
Proof.
  intros Hfirst.
  pose proof (first_pass_lengths_ok _ _ _ _ _ _ Hfirst lengths_ok_init) as Hok.
  destruct (second_pass_ok pd ml Hok) as (aligned & Hsecond & Hlens).
  assert (exists L, Forall (fun kv : string * list A => length kv.2 = L) aligned)
    as [L HL].
  { destruct ml as [m|].
    - exists (m - 1). eapply Forall_impl; [exact Hlens|].
      intros kv (m' & [= <-] & Hm). done.
    - exists 0. eapply Forall_impl; [exact Hlens|]. by intros kv (m' & [=] & _). }
  destruct (build_matrix_entries aligned
              (fun i j => match corr_at aligned i j with
                          | Ok c => c
                          | Raise _ => of_Z 0
                          end)) as (m & Hbuild & Hlen & Hrows).
  { intros i j Hi Hj.
    by destruct (corr_at_total aligned L i j HL Hi Hj) as (c & ->). }
  assert (length (dict_keys aligned) = length aligned) as Hk
    by (unfold dict_keys; by rewrite length_fmap).
  exists aligned, m. split; [done|]. split; [done|]. split.
  - rewrite (second_pass_key_order _ _ _ Hsecond).
    rewrite (first_pass_key_order _ _ _ _ _ _ Hfirst).
    change (dict_keys []) with (@nil string).
    apply foldl_add_key_fresh. simpl.
    apply (foldl_add_key_NoDup [] symbols). constructor.
  - split; [congruence|]. apply Forall_lookup. intros i row Hrow.
    destruct (Hrows i) as (row' & Hrow' & Hrl & _).
    { rewrite <- Hlen. by eapply lookup_lt_Some. }
    congruence.
Qed.

(** X11. For any arithmetic: when at least two symbols are requested and
    each has price data, [calculate_correlation_matrix] returns a symbol
    list and a matrix, never [None] and never an exception.  The list has
    the requested symbols without repetition (it is the request itself when
    that has none), and the matrix is square, of the size of the list. *)
Theorem calculate_correlation_matrix_total stocks symbols :
  2 <= length symbols ->
  (forall s, s ∈ symbols -> ~ missing_data stocks s) ->
  exists symbols_list m,
    calculate_correlation_matrix stocks symbols = Ok (Some (symbols_list, m)) /\
    NoDup symbols_list /\
    (forall s, s ∈ symbols_list <-> s ∈ symbols) /\
    (NoDup symbols -> symbols_list = symbols) /\
    length m = length symbols_list /\
    Forall (fun row => length row = length symbols_list) m.
Proof.
  intros Hn Hpresent. unfold calculate_correlation_matrix.
  destruct (Nat.ltb_spec (length symbols) 2) as [|_]; [lia|].
  destruct (first_pass_present stocks symbols [] None Hpresent) as (pd & ml & Hfirst).
  rewrite Hfirst.
  destruct (after_first_pass _ _ _ _ Hfirst)
    as (aligned & m & Hsecond & Hbuild & Hkeys & Hlen & Hrows).
  rewrite Hsecond. cbn [rbind]. rewrite Hbuild. cbn [rbind]. exists (dict_keys aligned), m. split; [done|].
  rewrite Hkeys in *. split; [apply foldl_add_key_NoDup; constructor|].
  split; [|split; [|done]].
  - intros s. rewrite elem_of_foldl_add_key, elem_of_nil. tauto.
  - intros Hnd. by apply (foldl_add_key_fresh []).
Qed.

(** X12. [calculate_correlation_matrix] returns [None] exactly when fewer
    than two symbols are requested or some requested symbol is not loaded
    or has no prices. *)
Theorem calculate_correlation_matrix_None_iff stocks symbols :
  calculate_correlation_matrix stocks symbols = Ok None <->
  length symbols < 2 \/ exists s, s ∈ symbols /\ missing_data stocks s.
Proof.
  unfold calculate_correlation_matrix.
  destruct (Nat.ltb_spec (length symbols) 2) as [Hlt|Hge].
  - split; [by left | done].
  - destruct (first_pass stocks symbols [] None) as [[pd ml]|] eqn:Hfirst.
    + destruct (after_first_pass _ _ _ _ Hfirst) as (aligned & m & Hsecond & Hbuild & _).
      rewrite Hsecond. cbn [rbind]. rewrite Hbuild. cbn [rbind]. split; [done|]. intros [Hlt|(s & Hin & Hmiss)]; [lia|].
      by rewrite (first_pass_missing _ _ s _ _ Hin Hmiss) in Hfirst.
    + split; [|done]. intros _. right. by eapply first_pass_None.
Qed.

End CorrelationTotal.

(** ** The symbol of a path, [load_data] and [add_stock] *)

Section SplitFacts.
Implicit Types (sep c : Ascii.ascii) (s : string).

Lemma py_split_nonempty sep s : py_split sep s <> [].
Proof.
  destruct s as [|c s]; simpl; [done|].
  destruct (Ascii.eqb c sep); [done|]. by destruct (py_split sep s).
Qed.

Lemma py_split_no_sep sep s : Forall (fun p => sep ∉ chars p) (py_split sep s).
Proof.
  induction s as [|c s IH]; simpl.
  - constructor; [|constructor]. unfold chars. simpl. apply not_elem_of_nil.
  - destruct (Ascii.eqb_spec c sep) as [->|Hne].
    + constructor; [|done]. unfold chars. simpl. apply not_elem_of_nil.
    + destruct (py_split sep s) as [|p ps]; inversion IH; subst.
      * constructor; [|constructor]. unfold chars. simpl.
        rewrite elem_of_cons, elem_of_nil. intros [?|[]]. by subst.
      * constructor; [|done]. unfold chars in *. simpl.
        rewrite elem_of_cons. intros [?|?]; [by subst | done].
Qed.

Lemma py_split_app sep a b :
  py_split sep (a +:+ String sep b) = py_split sep a ++ py_split sep b.
Proof.
  induction a as [|c a IH]; simpl.
  - by rewrite Ascii.eqb_refl.
  - destruct (Ascii.eqb c sep); [by rewrite IH|].
    rewrite IH. pose proof (py_split_nonempty sep a).
    by destruct (py_split sep a).
Qed.

Lemma py_split_whole sep s : sep ∉ chars s -> py_split sep s = [s].
Proof.
  unfold chars. induction s as [|c s IH]; simpl; [done|].
  rewrite elem_of_cons. intros Hni.
  destruct (Ascii.eqb_spec c sep) as [->|Hne]; [tauto|].
  rewrite IH by tauto. done.
Qed.

Lemma py_get_last {T : Type} (l : list T) (x : T) : py_get (l ++ [x]) (-1) = Ok x.
Proof.
  unfold py_get, py_index. rewrite length_app. simpl.
  destruct (Z.leb_spec 0 (-1)); [lia|].
  destruct (Z.leb_spec (- Z.of_nat (length l + 1)) (-1)); [|lia].
  replace (Z.to_nat (Z.of_nat (length l + 1) + -1)) with (length l + 0) by lia.
  by rewrite lookup_app_r, Nat.add_0_r, Nat.sub_diag by lia.
Qed.

Lemma py_get_last_ok {T : Type} (l : list T) :
  l <> [] -> exists x, py_get l (-1) = Ok x /\ x ∈ l.
Proof.
  intros Hne. destruct (decide (l = [])) as [|_]; [done|].
  induction l as [|y l IH] using rev_ind; [done|].
  exists y. split; [apply py_get_last|]. rewrite elem_of_app, list_elem_of_singleton. tauto.
Qed.

Lemma py_get_first_ok {T : Type} (l : list T) :
  l <> [] -> exists x, py_get l 0 = Ok x /\ x ∈ l.
Proof.
  destruct l as [|x l]; [done|]. intros _. exists x. split; [done | by left].
Qed.

Lemma symbol_of_path_file dir file :
  "/"%char ∉ chars file ->
  symbol_of_path (dir +:+ String "/"%char file) = py_get (py_split "."%char file) 0 /\
  symbol_of_path file = py_get (py_split "."%char file) 0.
Proof.
  intros Hfile. unfold symbol_of_path.
  rewrite py_split_app, (py_split_whole "/"%char file) by done.
  rewrite py_get_last. cbn [rbind]. split; [done|].
  change [file] with ([] ++ [file]). by rewrite py_get_last.
Qed.

Lemma chars_app a b : chars (a +:+ b) = chars a ++ chars b.
Proof. unfold chars. induction a as [|c a IH]; simpl; [done | by rewrite IH]. Qed.

Lemma symbol_of_path_pieces dir name ext :
  "/"%char ∉ chars name -> "."%char ∉ chars name -> "/"%char ∉ chars ext ->
  symbol_of_path (dir +:+ String "/"%char (name +:+ String "."%char ext)) = Ok name /\
  symbol_of_path (name +:+ String "."%char ext) = Ok name /\
  symbol_of_path (dir +:+ String "/"%char name) = Ok name /\
  symbol_of_path name = Ok name.
Proof.
  intros Hn1 Hn2 He.
  assert ("/"%char ∉ chars (name +:+ String "."%char ext)) as Hfile.
  { rewrite chars_app, elem_of_app. unfold chars at 2. simpl.
    rewrite elem_of_cons. intros [?|[?|?]]; done. }
  destruct (symbol_of_path_file dir _ Hfile) as [-> ->].
  destruct (symbol_of_path_file dir _ Hn1) as [-> ->].
  rewrite py_split_app, (py_split_whole "."%char name) by done. done.
Qed.

(** X14. The symbol of a path is the file name up to its first dot,
    whatever the directory and whatever follows the dot; a path without a
    directory or without an extension gives the same symbol. *)
Theorem symbol_of_path_basename dir name ext :
  "/"%char ∉ chars name -> "."%char ∉ chars name -> "/"%char ∉ chars ext ->
  symbol_of_path (dir +:+ String "/"%char (name +:+ String "."%char ext)) = Ok name /\
  symbol_of_path (name +:+ String "."%char ext) = Ok name /\
  symbol_of_path (dir +:+ String "/"%char name) = Ok name /\
  symbol_of_path name = Ok name.
Proof. exact (symbol_of_path_pieces dir name ext). Qed.

Lemma py_split_chars sep s :
  Forall (fun p => forall c, c ∈ chars p -> c ∈ chars s) (py_split sep s).
Proof.
  induction s as [|c s IH]; simpl.
  - by constructor.
  - destruct (Ascii.eqb c sep).
    + constructor.
      * unfold chars. simpl. intros c' Hc'. by apply elem_of_nil in Hc'.
      * eapply Forall_impl; [exact IH|]. intros p Hp c' Hc'.
        unfold chars in *. simpl. right. by apply Hp.
    + destruct (py_split sep s) as [|p ps]; inversion IH; subst.
      * constructor; [|constructor]. unfold chars. simpl. intros c' Hc'.
        apply elem_of_cons in Hc' as [->|Hc']; [by left | by apply elem_of_nil in Hc'].
      * constructor.
        -- unfold chars in *. simpl. intros c' Hc'.
           apply elem_of_cons in Hc' as [->|Hc']; [by left | right; auto].
        -- eapply Forall_impl; [eassumption|]. intros q Hq c' Hc'.
           unfold chars in *. simpl. right. by apply Hq.
Qed.

Lemma symbol_of_path_ok file_path :
  exists symbol, symbol_of_path file_path = Ok symbol /\
    ("/"%char ∉ chars symbol) /\ ("."%char ∉ chars symbol) /\
    forall c, c ∈ chars symbol -> c ∈ chars file_path.
Proof.
  unfold symbol_of_path.
  destruct (py_get_last_ok (py_split "/"%char file_path)) as (name & -> & Hname);
    [apply py_split_nonempty|].
  cbn [rbind].
  destruct (py_get_first_ok (py_split "."%char name)) as (symbol & -> & Hsym);
    [apply py_split_nonempty|].
  exists symbol. split; [done|].
  pose proof (proj1 (Forall_forall _ _) (py_split_no_sep "/"%char file_path) _ Hname) as Hslash.
  pose proof (proj1 (Forall_forall _ _) (py_split_chars "/"%char file_path) _ Hname) as Hsub1.
  pose proof (proj1 (Forall_forall _ _) (py_split_no_sep "."%char name) _ Hsym) as Hdot.
  pose proof (proj1 (Forall_forall _ _) (py_split_chars "."%char name) _ Hsym) as Hsub2.
  simpl in *. repeat split; [|done|]; auto.
Qed.

(** X13. The symbol of a path is defined for every path: neither index
    is out of range.  It contains no slash and no dot, and every character
    of it comes from the path. *)
Theorem symbol_of_path_total file_path :
  exists symbol, symbol_of_path file_path = Ok symbol /\
    ("/"%char ∉ chars symbol) /\ ("."%char ∉ chars symbol) /\
    forall c, c ∈ chars symbol -> c ∈ chars file_path.
Proof. exact (symbol_of_path_ok file_path). Qed.

End SplitFacts.

Section LoadingFacts.
Context {A : Type} `{Num A}.
Context {D : Type} (strptime : string -> result D).
Implicit Types (raw : result (raw_array A)) (self sd : StockData A).
Implicit Types (names : list string) (rows : list (csv_row A)).
Implicit Types (stocks : gmap string (StockData A)).

Lemma dates_loop_ok (ds : list string) (acc : list D) :
  (exists dates,
     for_each ds (fun date dates => let* d := strptime date in Ok (dates ++ [d])) acc
     = Ok dates) <->
  Forall (fun date => exists d, strptime date = Ok d) ds.
Proof.
  revert acc. induction ds as [|date ds IH]; intros acc; cbn [for_each].
  - split; [by constructor | by eexists].
  - destruct (strptime date) as [d|e] eqn:Hd; cbn [rbind].
    + rewrite IH. split; [intros; constructor; eauto | by inversion 1].
    + split; [by intros [? ?]|]. inversion 1 as [|? ? [d Hd']]; congruence.
Qed.

Lemma np_column_stack_rows (bars : list (bar A)) :
  np_column_stack (bar_open <$> bars) (bar_high <$> bars) (bar_low <$> bars)
    (bar_close <$> bars) (bar_volume <$> bars) = bars.
Proof. induction bars as [|[o h l c v] bars IH]; csimpl; [done | by rewrite IH]. Qed.

Lemma load_prices_Rows names rows :
  load_prices (Rows names rows)
  = if decide (Forall (fun name => name ∈ names) price_fields)
    then Ok (row_bar <$> rows) else Raise ValueError.
Proof.
  unfold load_prices, np_field, price_fields. cbn [raw_names raw_rows].
  destruct (decide (Forall (fun name => name ∈ names)
                      ["Open"; "High"; "Low"; "Close"; "Volume"])) as [Hall|Hnot].
  - inversion Hall as [|? ? Ho Hall1]; subst. inversion Hall1 as [|? ? Hh Hall2]; subst.
    inversion Hall2 as [|? ? Hl Hall3]; subst. inversion Hall3 as [|? ? Hc Hall4]; subst.
    inversion Hall4 as [|? ? Hv _]; subst.
    rewrite !decide_True by done. cbn [rbind]. f_equal.
    etrans; [|apply (np_column_stack_rows (row_bar <$> rows))].
    by rewrite <- !list_fmap_compose.
  - repeat (case_decide; cbn [rbind]; [|done]).
    destruct Hnot. by repeat constructor.
Qed.

Lemma load_dates_Ok raw raw_data dates :
  load_dates strptime raw = Ok (raw_data, dates) ->
  exists names rows, raw = Ok (Rows names rows) /\ raw_data = Rows names rows /\
    rows <> [] /\ "Date" ∈ names /\
    Forall (fun r => exists d, strptime (row_date r) = Ok d) rows.
Proof.
  unfold load_dates, np_field.
  destruct raw as [[names rows|names row]|e]; cbn [rbind np_len raw_names raw_rows];
    [|done..].
  destruct rows as [|r rows]; cbn [length Nat.eqb]; [done|].
  case_decide as Hdate; cbn [rbind]; [|done].
  destruct (for_each _ _ []) as [ds|e] eqn:Hds; cbn [rbind]; [|done].
  intros [= <- <-]. exists names, (r :: rows). repeat split; try done.
  apply (proj1 (Forall_fmap row_date
                  (fun date => exists d, strptime date = Ok d) (r :: rows))).
  apply (proj1 (dates_loop_ok _ [])). by eexists.
Qed.

Lemma load_dates_Rows names rows :
  rows <> [] -> "Date" ∈ names ->
  Forall (fun r => exists d, strptime (row_date r) = Ok d) rows ->
  exists dates, load_dates strptime (Ok (Rows names rows)) = Ok (Rows names rows, dates).
Proof.
  intros Hne Hdate Hall. unfold load_dates, np_field.
  cbn [rbind np_len raw_names raw_rows].
  destruct rows as [|r rows]; [done|]. cbn [length Nat.eqb].
  rewrite decide_True by done. cbn [rbind].
  apply (proj2 (Forall_fmap row_date
                  (fun date => exists d, strptime date = Ok d) (r :: rows))) in Hall.
  apply (proj2 (dates_loop_ok _ [])) in Hall as [dates ->]. cbn [rbind]. by eexists.
Qed.

(** X15. [load_data] keeps the symbol.  It returns [True] exactly when
    the read gave a 1-d array with at least one row, with the six fields
    Date, Open, High, Low, Close and Volume, and every date of it parses;
    then the closing prices are the Close column, not empty.  When it
    returns [False], [symbol] and [data] are as they were; [self.dates]
    has still been assigned whenever the array has rows and a Date field
    whose dates parse, also when a price field is then missing. *)
Theorem load_data_outcome raw self :
  let '(loaded, self') := load_data strptime raw self in
  symbol self' = symbol self /\
  (loaded = true <->
     exists names rows, raw = Ok (Rows names rows) /\ rows <> [] /\
       Forall (fun name => name ∈ names)
         ["Date"; "Open"; "High"; "Low"; "Close"; "Volume"] /\
       Forall (fun r => exists d, strptime (row_date r) = Ok d) rows) /\
  (loaded = true ->
     exists names rows, raw = Ok (Rows names rows) /\
       get_closing_prices self' = (fun r => bar_close (row_bar r)) <$> rows /\
       1 <= length (get_closing_prices self')) /\
  (loaded = false -> self' = self) /\
  (is_Some (load_data_dates strptime raw) <->
     exists names rows, raw = Ok (Rows names rows) /\ rows <> [] /\ "Date" ∈ names /\
       Forall (fun r => exists d, strptime (row_date r) = Ok d) rows).
Proof.
  unfold load_data, load_data_try, load_data_dates.
  destruct (load_dates strptime raw) as [[raw_data dates]|e] eqn:Hd; cbn [rbind].
  - destruct (load_dates_Ok _ _ _ Hd) as (names & rows & -> & -> & Hne & Hdate & Hall).
    rewrite load_prices_Rows.
    destruct (decide (Forall (fun name => name ∈ names) price_fields)) as [Hf|Hf];
      cbn [rbind].
    + split; [done|]. split; [|split; [|split; [done|]]].
      * split; [|done]. intros _. exists names, rows. split; [done|]. split; [done|].
        split; [by constructor | done].
      * intros _. exists names, rows. split; [done|].
        unfold get_closing_prices. simpl. rewrite <- list_fmap_compose.
        split; [done|]. rewrite length_fmap. destruct rows; simpl; [done | lia].
      * split; [|by eexists]. intros _. by exists names, rows.
    + split; [done|]. split; [|split; [done|split; [done|]]].
      * split; [done|]. intros (names' & rows' & [= <- <-] & _ & Hall' & _).
        inversion Hall'; subst. done.
      * split; [|by eexists]. intros _. by exists names, rows.
  - split; [done|].
    assert (~ exists names rows, raw = Ok (Rows names rows) /\ rows <> [] /\
              "Date" ∈ names /\
              Forall (fun r => exists d, strptime (row_date r) = Ok d) rows) as Hno.
    { intros (names & rows & -> & Hne & Hdate & Hall).
      destruct (load_dates_Rows names rows Hne Hdate Hall) as [dates Hok]. congruence. }
    split; [|split; [done|split; [done|]]].
    + split; [done|]. intros (names & rows & Hraw & Hne & Hall & Hparse).
      destruct Hno. exists names, rows. inversion Hall; subst. done.
    + split; [by intros [? [=]] | by intros ?].
Qed.

Lemma load_data_cases raw self :
  (exists rows, load_data strptime raw self
     = (true, {| symbol := symbol self; data := Some (row_bar <$> rows) |}) /\
     rows <> []) \/
  load_data strptime raw self = (false, self).
Proof.
  unfold load_data, load_data_try.
  destruct (load_dates strptime raw) as [[raw_data dates]|e] eqn:Hd; cbn [rbind];
    [|by right].
  destruct (load_dates_Ok _ _ _ Hd) as (names & rows & -> & -> & Hne & _).
  rewrite load_prices_Rows. case_decide; cbn [rbind]; [|by right].
  left. by exists rows.
Qed.

Lemma analyzer_ok_empty : analyzer_ok (∅ : gmap string (StockData A)).
Proof. intros s sd Hs. by rewrite lookup_empty in Hs. Qed.

Lemma add_stock_ok raw stocks sd :
  analyzer_ok stocks -> analyzer_ok (add_stock strptime raw stocks sd).
Proof.
  intros Hok. unfold add_stock.
  destruct (load_data_cases raw sd) as [(rows & -> & Hne)| ->]; [|done].
  cbn [symbol]. intros s sd' Hs.
  destruct (decide (s = symbol sd)) as [->|Hne'].
  - rewrite lookup_insert_eq in Hs. injection Hs as <-. split; [done|].
    unfold get_closing_prices. simpl. rewrite !length_fmap.
    destruct rows; simpl; [done | lia].
  - rewrite lookup_insert_ne in Hs by done. by apply Hok.
Qed.

Lemma add_stock_keeps raw stocks sd s :
  is_Some (stocks !! s) -> is_Some (add_stock strptime raw stocks sd !! s).
Proof.
  intros Hs. unfold add_stock.
  destruct (load_data strptime raw sd) as [[|] sd']; [|done].
  destruct (decide (s = symbol sd')) as [->|Hne].
  - rewrite lookup_insert_eq. by eexists.
  - by rewrite lookup_insert_ne.
Qed.

(** X16. Loading a list of files never raises, and keeps the analyzer
    well formed: every stock is stored under its own symbol and has at
    least one closing price.  A stock that was there stays. *)
Theorem load_files_ok (genfromtxt : string -> result (raw_array A)) stock_files stocks :
  analyzer_ok stocks ->
  exists stocks', load_files strptime genfromtxt stock_files stocks = Ok stocks' /\
    analyzer_ok stocks' /\
    forall s, is_Some (stocks !! s) -> is_Some (stocks' !! s).
Proof.
  intros Hok. unfold load_files.
  apply (for_each_inv
    (fun st => analyzer_ok st /\ forall s, is_Some (stocks !! s) -> is_Some (st !! s)));
    [done|].
  intros stock_file st _ [Hst Hkeep]. unfold StockData_init.
  destruct (symbol_of_path_ok stock_file) as (symbol & -> & _). cbn [rbind].
  eexists; split; [done|]. split; [by apply add_stock_ok|].
  intros s Hs. by apply add_stock_keeps, Hkeep.
Qed.

(** X17. Two files with the same name up to the first dot, in whatever
    directories, share one symbol: when both load, the analyzer holds one
    stock under it, with the data of the second file. *)
Theorem load_files_same_name (genfromtxt : string -> result (raw_array A))
    dir1 dir2 name ext1 ext2 (rows1 rows2 : list (bar A)) :
  ("/"%char ∉ chars name) -> ("."%char ∉ chars name) ->
  ("/"%char ∉ chars ext1) -> ("/"%char ∉ chars ext2) ->
  let path1 := dir1 +:+ String "/"%char (name +:+ String "."%char ext1) in
  let path2 := dir2 +:+ String "/"%char (name +:+ String "."%char ext2) in
  load_data strptime (genfromtxt path1) {| symbol := name; data := None |}
    = (true, {| symbol := name; data := Some rows1 |}) ->
  load_data strptime (genfromtxt path2) {| symbol := name; data := None |}
    = (true, {| symbol := name; data := Some rows2 |}) ->
  load_files strptime genfromtxt [path1; path2] ∅
  = Ok {[ name := {| symbol := name; data := Some rows2 |} ]}.
Proof.
  intros Hn1 Hn2 He1 He2 path1 path2 Hl1 Hl2. subst path1 path2.
  unfold load_files, StockData_init. cbn [for_each].
  destruct (symbol_of_path_pieces dir1 name ext1) as (-> & _); [done..|].
  cbn [rbind].
  destruct (symbol_of_path_pieces dir2 name ext2) as (-> & _); [done..|].
  cbn [rbind]. unfold add_stock. rewrite Hl1, Hl2. cbn [symbol].
  f_equal. by rewrite insert_insert_eq.
Qed.

End LoadingFacts.

(** ** The console loops *)

Section Console.
Implicit Types (keys selected : list string) (inputs rest : list (option Z)).

Lemma menu_choice_key keys choice :
  ((1 <=? choice) && (choice <=? Z.of_nat (length keys)))%Z = true ->
  exists symbol, py_get keys (choice - 1) = Ok symbol /\ symbol ∈ keys.
Proof.
  intros Hc. apply andb_prop in Hc as [H1 H2].
  apply Z.leb_le in H1, H2.
  destruct (lookup_lt_is_Some_2 keys (Z.to_nat (choice - 1))) as [symbol Hs]; [lia|].
  exists symbol. split; [|by eapply list_elem_of_lookup_2].
  replace (choice - 1)%Z with (Z.of_nat (Z.to_nat (choice - 1))) by lia.
  by apply py_get_nat.
Qed.

(** X19. [show_stock_options] raises nothing, what it returns is a key of
    [stocks], and with no stock loaded it never returns. *)
Theorem show_stock_options_returns_key keys inputs :
  (forall e, show_stock_options keys inputs <> Failed e) /\
  (forall symbol rest,
     show_stock_options keys inputs = Returned symbol rest -> symbol ∈ keys) /\
  (keys = [] -> show_stock_options keys inputs = Waiting).
Proof.
  induction inputs as [|[choice|] inputs (IH1 & IH2 & IH3)]; simpl; [done| |done].
  destruct ((1 <=? choice) && (choice <=? Z.of_nat (length keys)))%Z eqn:Hc; [|done].
  destruct (menu_choice_key keys choice Hc) as (symbol & -> & Hin).
  split; [done|]. split; [by intros ? ? [= <- <-]|].
  intros ->. by apply elem_of_nil in Hin.
Qed.

Lemma display_menu_range inputs choice rest :
  display_menu inputs = Returned choice rest -> (1 <= choice <= 7)%Z.
Proof.
  induction inputs as [|[c|] inputs IH]; simpl; [done| |done].
  destruct ((1 <=? c) && (c <=? 7))%Z eqn:Hc; [|done].
  intros [= <- <-]. apply andb_prop in Hc as [H1 H2]. lia.
Qed.

Lemma select_loop_inv keys min_count max_count inputs selected :
  NoDup selected -> (forall s, s ∈ selected -> s ∈ keys) ->
  length selected <= max_count ->
  (forall e, select_loop keys min_count max_count inputs selected <> Failed e) /\
  forall result rest,
    select_loop keys min_count max_count inputs selected = Returned result rest ->
    NoDup result /\ (forall s, s ∈ result -> s ∈ keys) /\
    length result <= max_count /\
    (min_count <= length result \/ length result = max_count) /\
    selected `prefix_of` result.
Proof.
  revert selected.
  induction inputs as [|[choice|] inputs IH]; intros selected Hnd Hsub Hlen; simpl.
  - destruct (Nat.ltb_spec (length selected) max_count); [done|].
    split; [done|]. intros ? ? [= <- <-]. repeat split; (done || lia || auto).
  - destruct (Nat.ltb_spec (length selected) max_count) as [Hlt|Hge].
    + destruct (Z.eqb_spec choice 0) as [->|Hnz].
      * destruct (Nat.leb_spec min_count (length selected)); [|by apply IH].
        split; [done|]. intros ? ? [= <- <-]. repeat split; (done || lia || auto).
      * destruct ((1 <=? choice) && (choice <=? Z.of_nat (length keys)))%Z eqn:Hc;
          [|by apply IH].
        destruct (menu_choice_key keys choice Hc) as (symbol & -> & Hin).
        destruct (decide (symbol ∈ selected)) as [Hsel|Hsel]; [by apply IH|].
        destruct (IH (selected ++ [symbol])) as [IHf IHr].
        -- apply NoDup_app. split; [done|]. split; [|apply NoDup_singleton].
           intros x Hx Hxs. by apply list_elem_of_singleton in Hxs as ->.
        -- intros s Hs. apply elem_of_app in Hs as [Hs|Hs]; [auto|].
           by apply list_elem_of_singleton in Hs as ->.
        -- rewrite length_app. simpl. lia.
        -- split; [done|]. intros result rest Hrun.
           destruct (IHr _ _ Hrun) as (? & ? & ? & ? & Hpre).
           repeat split; try done. etrans; [|exact Hpre]. by apply prefix_app_r.
    + split; [done|]. intros ? ? [= <- <-]. repeat split; (done || lia || auto).
  - destruct (Nat.ltb_spec (length selected) max_count); [by apply IH|].
    split; [done|]. intros ? ? [= <- <-]. repeat split; (done || lia || auto).
Qed.

Lemma select_multiple_stocks_result_aux keys min_count max_count inputs selected rest :
  min_count <= max_count ->
  select_multiple_stocks keys min_count max_count inputs = Returned selected rest ->
  selected <> [] ->
  NoDup selected /\ (forall s, s ∈ selected -> s ∈ keys) /\
  min_count <= length selected <= max_count.
Proof.
  intros Hmm. unfold select_multiple_stocks.
  destruct (Nat.ltb_spec (length keys) min_count) as [Hlt|Hge].
  - by intros [= <- <-].
  - destruct (select_loop_inv keys min_count max_count inputs []) as [_ Hr];
      [constructor | by intros s Hs; apply elem_of_nil in Hs | simpl; lia |].
    intros Hrun _. destruct (Hr _ _ Hrun) as (Hnd & Hsub & Hmax & Hmin & _).
    split; [done|]. split; [done|]. lia.
Qed.

(** the user who types 1, 2, ... up to [min_count] and then 0 *)
Lemma select_loop_first keys min_count max_count inputs (j : nat) :
  NoDup keys -> j <= min_count -> min_count <= length keys ->
  min_count <= max_count ->
  select_loop keys min_count max_count
    (((fun i => Some (Z.of_nat i)) <$> seq (j + 1) (min_count - j)) ++ Some 0%Z :: inputs)
    (take j keys)
  = Returned (take min_count keys)
      (if min_count <? max_count then inputs else Some 0%Z :: inputs).
Proof.
  intros Hnd Hj Hmin Hmax.
  remember (min_count - j) as d eqn:Hd. revert j Hj Hd.
  induction d as [|d IH]; intros j Hj Hd.
  - assert (j = min_count) as -> by lia. csimpl.
    rewrite length_take, Nat.min_l by lia.
    destruct (Nat.ltb_spec min_count max_count) as [Hlt|Hge]; [|done].
    by destruct (Nat.leb_spec min_count min_count); [|lia].
  - cbn [seq fmap list_fmap app]. csimpl.
    rewrite length_take, Nat.min_l by lia.
    destruct (Nat.ltb_spec j max_count) as [_|]; [|lia].
    destruct (Z.eqb_spec (Z.of_nat (j + 1)) 0) as [|_]; [lia|].
    destruct (lookup_lt_is_Some_2 keys j) as [k Hk]; [lia|].
    assert (((1 <=? Z.of_nat (j + 1)) && (Z.of_nat (j + 1) <=? Z.of_nat (length keys)))%Z
            = true) as ->.
    { apply andb_true_intro. split; apply Z.leb_le; lia. }
    replace (Z.of_nat (j + 1) - 1)%Z with (Z.of_nat j) by lia.
    rewrite (py_get_nat _ _ _ Hk).
    rewrite decide_False.
    + rewrite <- (take_S_r _ _ _ Hk).
      replace (S (j + 1)) with (S j + 1) by lia. apply IH; lia.
    + intros Hin. apply list_elem_of_lookup in Hin as [i Hi].
      apply lookup_take_Some in Hi as [Hi Hlt].
      pose proof (NoDup_lookup _ _ _ _ Hnd Hi Hk). lia.
Qed.

(** X18. [select_multiple_stocks] raises nothing (the index
    [choice - 1] is in range).  When fewer than [min_count] stocks are
    loaded it returns the empty list, whatever is typed and without
    reading a line.  What it returns has no repetition and only keys of
    [stocks], and otherwise between [min_count] and [max_count] symbols.
    It does return: typing 1, 2, ... up to [min_count] and then 0 selects
    the first [min_count] keys, and the 0 is read unless the selection is
    already full. *)
Theorem select_multiple_stocks_result keys min_count max_count inputs :
  min_count <= max_count ->
  (forall e, select_multiple_stocks keys min_count max_count inputs <> Failed e) /\
  (length keys < min_count ->
   select_multiple_stocks keys min_count max_count inputs = Returned [] inputs) /\
  (forall selected rest,
     select_multiple_stocks keys min_count max_count inputs = Returned selected rest ->
     NoDup selected /\ (forall s, s ∈ selected -> s ∈ keys) /\
     ((length keys < min_count /\ selected = [] /\ rest = inputs) \/
      (min_count <= length keys /\ min_count <= length selected <= max_count))) /\
  (min_count <= length keys -> NoDup keys ->
   select_multiple_stocks keys min_count max_count
     (((fun i => Some (Z.of_nat i)) <$> seq 1 min_count) ++ Some 0%Z :: inputs)
   = Returned (take min_count keys)
       (if min_count <? max_count then inputs else Some 0%Z :: inputs)).
Proof.
  intros Hmm. unfold select_multiple_stocks.
  destruct (Nat.ltb_spec (length keys) min_count) as [Hlt|Hge].
  - split; [done|]. split; [done|]. split; [|intros; lia].
    intros ? ? [= <- <-]. split; [constructor|].
    split; [by intros s Hs; apply elem_of_nil in Hs|]. by left.
  - destruct (select_loop_inv keys min_count max_count inputs []) as [Hf Hr];
      [constructor | by intros s Hs; apply elem_of_nil in Hs | simpl; lia |].
    split; [done|]. split; [intros; lia|]. split.
    + intros selected rest Hrun.
      destruct (Hr _ _ Hrun) as (Hnd & Hsub & Hmax & Hmin & _).
      split; [done|]. split; [done|]. right. lia.
    + intros _ Hnd.
      pose proof (select_loop_first keys min_count max_count inputs 0 Hnd) as Hfirst.
      rewrite Nat.sub_0_r in Hfirst. apply Hfirst; lia.
Qed.

End Console.

Section CorrelationMenu.
Context {A : Type} `{Num A}.
Implicit Types (stocks : gmap string (StockData A)).

Lemma analyzer_ok_present stocks s :
  analyzer_ok stocks -> is_Some (stocks !! s) -> ~ missing_data stocks s.
Proof.
  intros Hok [sd Hsd]. unfold missing_data. rewrite Hsd.
  destruct (Hok s sd Hsd) as [_ Hlen]. lia.
Qed.

(** X20. In the correlation menu, the non-empty selection of
    [select_multiple_stocks(analyzer.stocks, 2, 5)] on a well-formed
    analyzer always has a correlation matrix: the call returns a pair, so
    the unpacking of its result cannot fail, the symbol list is the
    selection itself, and the matrix is square of that size. *)
Theorem correlation_menu_matrix stocks keys inputs selected rest :
  analyzer_ok stocks ->
  (forall s, s ∈ keys -> is_Some (stocks !! s)) ->
  select_multiple_stocks keys 2 5 inputs = Returned selected rest ->
  selected <> [] ->
  exists m,
    calculate_correlation_matrix stocks selected = Ok (Some (selected, m)) /\
    2 <= length selected <= 5 /\
    length m = length selected /\
    Forall (fun row => length row = length selected) m.
Proof.
  intros Hok Hkeys Hsel Hne.
  destruct (select_multiple_stocks_result_aux keys 2 5 inputs selected rest)
    as (Hnd & Hsub & Hlen); [lia | done | done |].
  unfold calculate_correlation_matrix.
  destruct (Nat.ltb_spec (length selected) 2) as [|_]; [lia|].
  destruct (first_pass_present stocks selected [] None) as (pd & ml & Hfirst).
  { intros s Hs. apply analyzer_ok_present; auto. }
  rewrite Hfirst.
  destruct (after_first_pass _ _ _ _ Hfirst)
    as (aligned & m & Hsecond & Hbuild & Hk & Hlm & Hrows).
  rewrite Hsecond. cbn [rbind]. rewrite Hbuild. cbn [rbind].
  rewrite Hk, (foldl_add_key_fresh [] selected) in * by done.
  simpl in *. by exists m.
Qed.

End CorrelationMenu.

(** ** The coefficient of the scatter plot *)

Section ScatterFacts.
Context {A : Type} `{Num A}.
Implicit Types (stocks : gmap string (StockData A)).

(** X21. For two distinct symbols with price data, the coefficient of
    the scatter plot is entry [0, 1] of the correlation matrix of the same
    two symbols, for any arithmetic. *)
Theorem scatter_corr_is_matrix_entry stocks sym1 sym2 :
  sym1 <> sym2 ->
  ~ missing_data stocks sym1 -> ~ missing_data stocks sym2 ->
  exists corr m row,
    scatter_corr stocks [sym1; sym2] = Ok (Some corr) /\
    calculate_correlation_matrix stocks [sym1; sym2] = Ok (Some ([sym1; sym2], m)) /\
    m !! 0 = Some row /\ row !! 1 = Some corr.
Proof.
  intros Hne Hp1 Hp2. unfold missing_data in Hp1, Hp2.
  unfold scatter_corr, calculate_correlation_matrix.
  change (length [sym1; sym2] <? 2) with false. cbn [first_pass].
  destruct (stocks !! sym1) as [sd1|]; [|done].
  destruct (stocks !! sym2) as [sd2|]; [|done].
  set (p1 := get_closing_prices sd1) in *. set (p2 := get_closing_prices sd2) in *.
  destruct (Nat.ltb_spec 0 (length p1)) as [Hl1|]; [|lia].
  destruct (Nat.ltb_spec 0 (length p2)) as [Hl2|]; [|lia].
  cbn [dict_set py_min_length]. rewrite decide_False by congruence.
  set (n := Nat.min (length p1) (length p2)).
  assert (length (py_last p1 n) = n) as Ht1 by (apply length_py_last; lia).
  assert (length (py_last p2 n) = n) as Ht2 by (apply length_py_last; lia).
  unfold second_pass. cbn [for_each trim rbind].
  rewrite (broadcast2_same _ (np_diff (py_last p1 n)))
    by (rewrite length_np_diff, length_take, Ht1; lia).
  cbn [rbind dict_set].
  rewrite (broadcast2_same _ (np_diff (py_last p2 n)))
    by (rewrite length_np_diff, length_take, Ht2; lia).
  cbn [rbind dict_set]. rewrite decide_False by congruence.
  set (r1 := zip_with ndiv (np_diff (py_last p1 n)) _).
  set (r2 := zip_with ndiv (np_diff (py_last p2 n)) _).
  assert (length r1 = n - 1) as Hr1
    by (unfold r1; rewrite length_zip_with, length_np_diff, length_take, Ht1; lia).
  assert (length r2 = n - 1) as Hr2
    by (unfold r2; rewrite length_zip_with, length_np_diff, length_take, Ht2; lia).
  set (aligned := [(sym1, r1); (sym2, r2)]).
  assert (Forall (fun kv : string * list A => length kv.2 = n - 1) aligned) as HL
    by (repeat constructor; done).
  destruct (build_matrix_entries aligned
              (fun i j => match corr_at aligned i j with
                          | Ok c => c
                          | Raise _ => of_Z 0
                          end)) as (m & Hbuild & Hlen & Hrows).
  { intros i j Hi Hj.
    by destruct (corr_at_total aligned (n - 1) i j HL Hi Hj) as (c & ->). }
  rewrite Hbuild. cbn [rbind].
  destruct (Hrows 0) as (row & Hrow & _ & Hent); [simpl; lia|].
  specialize (Hent 1 ltac:(simpl; lia)).
  assert (corr_at aligned 0 1 = np_corrcoef01 r1 r2) as Hc.
  { unfold corr_at, aligned. cbn [dict_keys fmap list_fmap fst].
    change (py_get [sym1; sym2] (Z.of_nat 0)) with (Ok sym1 : result string).
    change (py_get [sym1; sym2] (Z.of_nat 1)) with (Ok sym2 : result string).
    cbn [rbind dict_get]. rewrite decide_True by done.
    rewrite decide_False by congruence. rewrite decide_True by done. done. }
  rewrite Hc in Hent.
  destruct (np_corrcoef01 r1 r2) as [corr|e] eqn:Hcorr.
  - exists corr, m, row. done.
  - exfalso. unfold np_corrcoef01 in Hcorr. rewrite decide_True in Hcorr by congruence.
    done.
Qed.

End ScatterFacts.

(** ** The comprehensive report *)

Section ReportFacts.
Context {A : Type} `{Num A}.
Implicit Types (prices : list A) (stocks : gmap string (StockData A)).

Lemma latest_last (l : list A) : latest l = Ok (last l).
Proof.
  unfold latest. destruct l as [|x l] using rev_ind; [done|].
  rewrite length_app. simpl.
  destruct (Nat.ltb_spec 0 (length l + 1)); [|lia].
  by rewrite py_get_last, last_snoc.
Qed.

Lemma calculate_bollinger_bands_short prices window (num_std : A) :
  length prices < window ->
  calculate_bollinger_bands prices window num_std = Ok ([], [], []).
Proof.
  intros Hlt. unfold calculate_bollinger_bands.
  destruct (Nat.ltb_spec (length prices) window); [done | lia].
Qed.

Lemma calculate_bollinger_bands_shape prices window (num_std : A) :
  1 <= window <= length prices ->
  exists sma upper_band lower_band,
    calculate_bollinger_bands prices window num_std = Ok (sma, upper_band, lower_band) /\
    length sma = length prices - window + 1 /\
    length upper_band = length prices - window + 1 /\
    length lower_band = length prices - window + 1.
Proof.
  intros [Hw Hlen]. unfold calculate_bollinger_bands, calculate_sma.
  destruct (Nat.ltb_spec (length prices) window); [lia|].
  rewrite np_convolve_valid_ok
    by (unfold np_ones; rewrite length_fmap, length_replicate; lia).
  cbn [rbind].
  set (sma := np_correlate_valid _ _).
  assert (length sma = length prices - window + 1) as Hsma.
  { unfold sma, np_correlate_valid, np_ones.
    by rewrite length_fmap, length_seq, length_reverse, length_fmap, length_replicate. }
  rewrite !broadcast2_same by (rewrite !length_fmap, length_seq; done).
  cbn [rbind]. eexists _, _, _. split; [done|].
  rewrite !length_zip_with, !length_fmap, length_seq. lia.
Qed.

(** the entry, once the three indicators are there *)
Lemma stock_report_assemble symbol prices rsi macd signal sma upper_band lower_band :
  calculate_rsi prices 14 = Ok rsi ->
  calculate_macd prices 12 26 9 = Ok (macd, signal) ->
  calculate_bollinger_bands prices 20 (of_Z 2) = Ok (sma, upper_band, lower_band) ->
  (upper_band <> [] -> prices <> []) ->
  exists b3 s3,
    bollinger_votes (last prices) (last upper_band) (last lower_band) = Ok (b3, s3) /\
    stock_report symbol prices
    = Ok {| report_symbol := symbol;
            report_price := last prices;
            report_rsi := last rsi;
            report_rsi_status := rsi_status (last rsi);
            report_macd := last macd;
            report_signal := last signal;
            report_trend := macd_trend (last macd) (last signal);
            report_upper := last upper_band;
            report_lower := last lower_band;
            report_bollinger_status :=
              bollinger_status (last prices) (last upper_band) (last lower_band);
            report_recommendation :=
              recommendation_of
                ((rsi_votes (last rsi)).1 + (macd_votes (last macd) (last signal)).1 + b3)
                ((rsi_votes (last rsi)).2 + (macd_votes (last macd) (last signal)).2 + s3)
         |}.
Proof.
  intros Hrsi Hmacd Hboll Hne. unfold stock_report.
  rewrite Hrsi, Hmacd, Hboll. cbn [rbind]. rewrite !latest_last. cbn [rbind].
  assert (exists b3 s3,
    bollinger_votes (last prices) (last upper_band) (last lower_band) = Ok (b3, s3))
    as (b3 & s3 & Hv).
  { unfold bollinger_votes.
    destruct (last upper_band) as [u|] eqn:Hu; [|by eexists _, _].
    destruct (last lower_band) as [l|]; [|by eexists _, _].
    destruct (last prices) as [p|] eqn:Hp.
    - destruct (p <?^ l); [by eexists _, _|]. destruct (u <?^ p); by eexists _, _.
    - apply last_None in Hp. destruct Hne; [|done]. intros ->. done. }
  exists b3, s3. split; [done|]. rewrite Hv. cbn [rbind].
  destruct (rsi_votes (last rsi)) as [b1 s1].
  by destruct (macd_votes (last macd) (last signal)) as [b2 s2].
Qed.

(** X23. With fewer than 12 prices no indicator has a value; the entry
    still carries the labels Neutral for the RSI, Bearish for the MACD
    trend, and the Neutral recommendation. *)
Theorem stock_report_short symbol prices :
  length prices < 12 ->
  stock_report symbol prices
  = Ok {| report_symbol := symbol;
          report_price := last prices;
          report_rsi := None;
          report_rsi_status := "Neutral";
          report_macd := None;
          report_signal := None;
          report_trend := "Bearish";
          report_upper := None;
          report_lower := None;
          report_bollinger_status := "Price within bands";
          report_recommendation := "Neutral - Monitor for clearer signals" |}.
Proof.
  intros Hlen.
  destruct (stock_report_assemble symbol prices [] [] [] [] [] [])
    as (b3 & s3 & Hv & ->); [| | |done|].
  - apply calculate_rsi_short. lia.
  - apply calculate_macd_shorter_than_both; lia.
  - apply calculate_bollinger_bands_short. lia.
  - injection Hv as <- <-. f_equal. unfold bollinger_status. simpl.
    by destruct (last prices).
Qed.

Lemma stock_report_long symbol prices :
  26 <= length prices -> exists entry, stock_report symbol prices = Ok entry.
Proof.
  intros Hlen.
  destruct (calculate_rsi_long prices 14) as (rsi & Hrsi & _); [lia|].
  destruct (macd_long_lines prices 12 26 9)
    as (_ & _ & macd & signal & _ & _ & Hmacd & _); [lia..|].
  destruct (calculate_bollinger_bands_shape prices 20 (of_Z 2))
    as (sma & ub & lb & Hboll & _); [lia|].
  destruct (stock_report_assemble symbol prices _ _ _ _ _ _ Hrsi Hmacd Hboll)
    as (b3 & s3 & _ & ->); [|by eexists].
  intros _ ->. simpl in Hlen. lia.
Qed.

Lemma stock_report_between symbol prices :
  12 <= length prices <= 25 ->
  stock_report symbol prices
  = Raise (if decide (length prices = 14) then IndexError else ValueError).
Proof.
  intros Hlen. unfold stock_report.
  assert (calculate_macd prices 12 26 9 = Raise ValueError) as Hmacd
    by (apply calculate_macd_between; lia).
  destruct (decide (length prices = 14)) as [H14|H14].
  - by rewrite calculate_rsi_IndexError.
  - destruct (decide (length prices < 14)) as [Hlt|Hge].
    + rewrite calculate_rsi_short by done. cbn [rbind]. by rewrite Hmacd.
    + destruct (calculate_rsi_long prices 14) as (rsi & -> & _); [lia|].
      cbn [rbind]. by rewrite Hmacd.
Qed.

(** X22. The report entry of a stock by the number of its prices, for
    any arithmetic: 14 prices raise [IndexError] (from the RSI), 12 to 25
    prices other than 14 raise [ValueError] (from the MACD), and fewer than
    12 or at least 26 prices give an entry. *)
Theorem stock_report_raises_iff symbol prices :
  (length prices = 14 -> stock_report symbol prices = Raise IndexError) /\
  (12 <= length prices <= 25 -> length prices <> 14 ->
   stock_report symbol prices = Raise ValueError) /\
  (length prices < 12 \/ 26 <= length prices ->
   exists entry, stock_report symbol prices = Ok entry).
Proof.
  split; [|split].
  - intros H14. rewrite stock_report_between by lia. by rewrite decide_True.
  - intros Hlen H14. rewrite stock_report_between by lia. by rewrite decide_False.
  - intros [Hlt|Hge]; [|by apply stock_report_long].
    destruct (stock_report_assemble symbol prices [] [] [] [] [] [])
      as (b3 & s3 & _ & ->); [| | |done|by eexists].
    + apply calculate_rsi_short. lia.
    + apply calculate_macd_shorter_than_both; lia.
    + apply calculate_bollinger_bands_short. lia.
Qed.

Lemma stock_report_cases symbol prices :
  (12 <= length prices <= 25 /\ exists e, stock_report symbol prices = Raise e) \/
  (~ 12 <= length prices <= 25 /\ exists entry, stock_report symbol prices = Ok entry).
Proof.
  destruct (decide (12 <= length prices <= 25)) as [Hin|Hout].
  - left. split; [done|]. rewrite stock_report_between by done. by eexists.
  - right. split; [done|].
    destruct (decide (length prices < 12)) as [Hlt|Hge].
    + destruct (stock_report_assemble symbol prices [] [] [] [] [] [])
        as (b3 & s3 & _ & ->); [| | |done|by eexists].
      * apply calculate_rsi_short. lia.
      * apply calculate_macd_shorter_than_both; lia.
      * apply calculate_bollinger_bands_short. lia.
    + apply stock_report_long. lia.
Qed.

Lemma report_loop stocks symbols (report_data : dict (report_entry A)) :
  ((exists e,
      for_each symbols
        (fun symbol report_data =>
           match stocks !! symbol with
           | None => Ok report_data
           | Some stock =>
               let* stock_data := stock_report symbol (get_closing_prices stock) in
               Ok (dict_set symbol stock_data report_data)
           end) report_data = Raise e) <->
   exists s, s ∈ symbols /\ unreportable stocks s) /\
  (forall report,
      for_each symbols
        (fun symbol report_data =>
           match stocks !! symbol with
           | None => Ok report_data
           | Some stock =>
               let* stock_data := stock_report symbol (get_closing_prices stock) in
               Ok (dict_set symbol stock_data report_data)
           end) report_data = Ok report ->
      forall s, s ∈ dict_keys report <->
        s ∈ dict_keys report_data \/ (s ∈ symbols /\ is_Some (stocks !! s))).
Proof.
  revert report_data.
  induction symbols as [|symbol symbols IH]; intros report_data; cbn [for_each].
  - split.
    + split; [by intros [e ?]|]. intros (s & Hs & _). by apply elem_of_nil in Hs.
    + intros report [= <-] s. rewrite elem_of_nil. tauto.
  - destruct (stocks !! symbol) as [stock|] eqn:Hstock; cbn [rbind].
    + destruct (stock_report_cases symbol (get_closing_prices stock))
        as [(Hin & e & ->)|(Hout & entry & ->)]; cbn [rbind].
      * split; [|done]. split; [|by eexists]. intros _.
        exists symbol. split; [by left|]. by exists stock.
      * destruct (IH (dict_set symbol entry report_data)) as [IHr IHk]. split.
        -- rewrite IHr. split; intros (s & Hs & Hun).
           ++ exists s. split; [by right | done].
           ++ apply elem_of_cons in Hs as [->|Hs]; [|by exists s].
              destruct Hun as (sd & Hsd & Hlen).
              assert (sd = stock) as -> by congruence. done.
        -- intros report Hrun s. rewrite (IHk report Hrun s).
           rewrite elem_of_dict_keys_set, elem_of_cons. split.
           ++ intros [[->|?]|[? ?]]; [|tauto..]. right. split; [by left | by eexists].
           ++ intros [?|[[->|?] ?]]; tauto.
    + destruct (IH report_data) as [IHr IHk]. split.
      * rewrite IHr. split; intros (s & Hs & Hun).
        -- exists s. split; [by right | done].
        -- apply elem_of_cons in Hs as [->|Hs]; [|by exists s].
           destruct Hun as (sd & Hsd & _). congruence.
      * intros report Hrun s. rewrite (IHk report Hrun s), elem_of_cons. split.
        -- intros [?|[? ?]]; tauto.
        -- intros [?|[[->|?] Hsome]]; [tauto| |tauto].
           destruct Hsome as [? ?]. congruence.
Qed.

(** X24. The data loop of [generate_comprehensive_report] raises exactly
    when some requested symbol is loaded with 12 to 25 prices; symbols that
    are not loaded are skipped, and when the loop returns, the report has
    an entry for every requested symbol that is loaded, and no other. *)
Theorem generate_comprehensive_report_raises_iff stocks symbols :
  ((exists e, generate_comprehensive_report stocks symbols = Raise e) <->
   exists s, s ∈ symbols /\ unreportable stocks s) /\
  (forall report, generate_comprehensive_report stocks symbols = Ok report ->
     forall s, s ∈ dict_keys report <-> s ∈ symbols /\ is_Some (stocks !! s)).
Proof.
  unfold generate_comprehensive_report.
  destruct (report_loop stocks symbols []) as [Hr Hk]. split; [done|].
  intros report Hrun s. rewrite (Hk report Hrun s).
  change (dict_keys []) with (@nil string). rewrite elem_of_nil. tauto.
Qed.

End ReportFacts.

Section ReportExact.
Local Open Scope R_scope.

(** X25. On at least 26 finite prices that fall at every step the last
    RSI is 0, and since 0 is false in the test [current_rsi and ...] the
    entry labels it Neutral, not Oversold, while the same value counts as a
    bullish signal for the recommendation. *)
Theorem stock_report_falling symbol (ps : list R) :
  (26 <= length ps)%nat ->
  (forall i a b, ps !! i = Some a -> ps !! S i = Some b -> b < a) ->
  exists entry, stock_report symbol (Fin <$> ps) = Ok entry /\
    report_rsi entry = Some (Fin 0) /\
    report_rsi_status entry = "Neutral" /\
    rsi_votes (report_rsi entry) = (1%nat, 0%nat).
Proof.
  intros Hlen Hdown.
  destruct (rsi_falling_entries ps 14) as (rsi & Hrsi & Hzero); [lia | done |].
  destruct (calculate_rsi_long (Fin <$> ps) 14) as (rsi' & Hrsi' & Hl);
    [rewrite length_fmap; lia|].
  assert (rsi' = rsi) as -> by congruence. rewrite length_fmap in Hl.
  assert (last rsi = Some (Fin 0)) as Hlast.
  { rewrite last_lookup, Hl. apply Hzero. lia. }
  destruct (macd_long_lines (Fin <$> ps) 12 26 9)
    as (_ & _ & macd & signal & _ & _ & Hmacd & _); [rewrite ?length_fmap; lia..|].
  destruct (calculate_bollinger_bands_shape (Fin <$> ps) 20 (of_Z 2))
    as (sma & ub & lb & Hboll & _); [rewrite length_fmap; lia|].
  destruct (stock_report_assemble symbol (Fin <$> ps) _ _ _ _ _ _ Hrsi Hmacd Hboll)
    as (b3 & s3 & _ & ->).
  { intros _ Hnil. apply (f_equal length) in Hnil.
    rewrite length_fmap in Hnil. simpl in Hnil. lia. }
  eexists; split; [done|]. cbn [report_rsi report_rsi_status]. rewrite Hlast.
  split; [done|]. split.
  - unfold rsi_status, truthy. simpl. xreal_dec; simpl; (done || (exfalso; lra)).
  - unfold rsi_votes. simpl. xreal_dec; simpl; (done || (exfalso; lra)).
Qed.

End ReportExact.

(** ** Instances of the theorems on the rest of the program *)

(** X1 on two, three and four prices against window 3 *)
Lemma calculate_rsi_cases_witness :
  calculate_rsi [1; 2]%float 3 = Ok [] /\
  calculate_rsi [1; 2; 3]%float 3 = Raise IndexError /\
  exists rsi, calculate_rsi [1; 2; 3; 4]%float 3 = Ok rsi /\
    length rsi = length [1; 2; 3; 4]%float.
Proof.
  split; [apply (calculate_rsi_cases [1; 2]%float 3); simpl; lia|].
  split; [by apply (calculate_rsi_cases [1; 2; 3]%float 3)|].
  apply (calculate_rsi_cases [1; 2; 3; 4]%float 3). simpl. lia.
Defined.

(** X2 on four prices with window 2 *)
Lemma calculate_rsi_prefix_nan_witness :
  2 < length [Fin 1; Fin 2; Fin 3; Fin 2] /\
  exists rsi, calculate_rsi [Fin 1; Fin 2; Fin 3; Fin 2] 2 = Ok rsi /\
    forall i, i < 2 -> rsi !! i = Some NaN.
Proof.
  split; [simpl; lia|].
  apply (calculate_rsi_prefix_nan [Fin 1; Fin 2; Fin 3; Fin 2] 2). simpl. lia.
Defined.

Lemma rising_123 i (a b : R) :
  [1; 2; 3]%R !! i = Some a -> [1; 2; 3]%R !! S i = Some b -> (a < b)%R.
Proof.
  destruct i as [|[|[|i]]]; simpl; intros [= <-] [= <-]; lra.
Qed.

(** X3 on the prices 1, 2, 3 with window 1 *)
Lemma calculate_rsi_rising_witness :
  1 <= 1 < length [1; 2; 3]%R /\
  (forall i a b, [1; 2; 3]%R !! i = Some a -> [1; 2; 3]%R !! S i = Some b -> (a < b)%R) /\
  exists rsi, calculate_rsi (Fin <$> [1; 2; 3]%R) 1 = Ok rsi /\
    forall i, 1 <= i < length [1; 2; 3]%R -> rsi !! i = Some (Fin 100).
Proof.
  split; [simpl; lia|]. split; [exact rising_123|].
  apply (calculate_rsi_rising [1; 2; 3]%R 1); [simpl; lia | exact rising_123].
Defined.

Lemma falling_prices_fall i (a b : R) :
  falling_prices !! i = Some a -> falling_prices !! S i = Some b -> (b < a)%R.
Proof.
  unfold falling_prices. rewrite !list_lookup_fmap. intros Ha Hb.
  apply fmap_Some in Ha as (k & Hk & ->). apply fmap_Some in Hb as (k' & Hk' & ->).
  apply lookup_seq in Hk as [-> _]. apply lookup_seq in Hk' as [-> _].
  rewrite !Nat.add_0_l, S_INR. lra.
Qed.

(** X4 on twenty-six falling prices with the default window *)
Lemma calculate_rsi_falling_witness :
  1 <= 14 < length falling_prices /\
  (forall i a b, falling_prices !! i = Some a -> falling_prices !! S i = Some b ->
     (b < a)%R) /\
  exists rsi, calculate_rsi (Fin <$> falling_prices) 14 = Ok rsi /\
    forall i, 14 <= i < length falling_prices -> rsi !! i = Some (Fin 0).
Proof.
  split; [simpl; lia|]. split; [exact falling_prices_fall|].
  apply (calculate_rsi_falling falling_prices 14); [simpl; lia | exact falling_prices_fall].
Defined.

(** X5 on five prices of 7 with window 2 *)
Lemma calculate_rsi_constant_witness :
  1 <= 2 < 5 /\
  calculate_rsi (Fin <$> replicate 5 7%R) 2 = Ok (replicate 5 NaN).
Proof. split; [lia|]. apply (calculate_rsi_constant 7 5 2). lia. Defined.

(** X6 on binary64: four prices with the windows 2, 3 and 2 *)
Lemma calculate_macd_long_witness :
  1 <= 2 <= length [1; 2; 4; 3]%float /\ 1 <= 3 <= length [1; 2; 4; 3]%float /\ 1 <= 2 /\
  exists ema_short ema_long macd signal,
    calculate_ema [1; 2; 4; 3]%float 2 = Ok ema_short /\
    calculate_ema [1; 2; 4; 3]%float 3 = Ok ema_long /\
    calculate_macd [1; 2; 4; 3]%float 2 3 2 = Ok (macd, signal) /\
    length macd = length [1; 2; 4; 3]%float /\
    (forall i, i < length [1; 2; 4; 3]%float ->
       exists a b, ema_short !! i = Some a /\ ema_long !! i = Some b /\
                   macd !! i = Some (a -^ b)) /\
    calculate_ema macd 2 = Ok signal /\
    length signal = (if length [1; 2; 4; 3]%float <? 2 then 0
                     else length [1; 2; 4; 3]%float).
Proof.
  split; [simpl; lia|]. split; [simpl; lia|]. split; [lia|].
  apply (calculate_macd_long [1; 2; 4; 3]%float 2 3 2); simpl; lia.
Defined.

(** X7 on three prices: the windows 2 and 5, and 2 and 3 *)
Lemma calculate_macd_raises_iff_witness :
  2 <= length [1; 2; 4]%float /\ 1 <= 2 /\ 1 <= 5 /\ 1 <= 2 /\
  calculate_macd [1; 2; 4]%float 2 5 2 = Raise ValueError /\
  exists macd signal, calculate_macd [1; 2; 4]%float 2 3 2 = Ok (macd, signal).
Proof.
  split; [simpl; lia|]. split; [lia|]. split; [lia|]. split; [lia|]. split.
  - apply (calculate_macd_raises_iff [1; 2; 4]%float 2 5 2); simpl; lia.
  - apply (calculate_macd_raises_iff [1; 2; 4]%float 2 3 2); simpl; lia.
Defined.

Lemma prices_1_3_5_9_range : Forall (fun p => 1 <= p <= 9)%R [1; 3; 5; 9]%R.
Proof. repeat constructor; lra. Qed.

(** X8 on the prices 1, 3, 5, 9 with window 2 *)
Lemma calculate_ema_within_price_range_witness :
  1 <= 2 <= length [1; 3; 5; 9]%R /\
  Forall (fun p => 1 <= p <= 9)%R [1; 3; 5; 9]%R /\
  exists ema, calculate_ema (Fin <$> [1; 3; 5; 9]%R) 2 = Ok ema /\
    length ema = length [1; 3; 5; 9]%R /\ Forall (within 1 9) ema.
Proof.
  split; [simpl; lia|]. split; [exact prices_1_3_5_9_range|].
  apply (calculate_ema_within_price_range [1; 3; 5; 9]%R 2 1 9);
    [simpl; lia | exact prices_1_3_5_9_range].
Defined.

(** X9 on the prices 1, 3, 5, 9 with window 2 *)
Lemma calculate_sma_within_price_range_witness :
  1 <= 2 <= length [1; 3; 5; 9]%R /\
  Forall (fun p => 1 <= p <= 9)%R [1; 3; 5; 9]%R /\
  exists sma, calculate_sma (Fin <$> [1; 3; 5; 9]%R) 2 = Ok sma /\
    length sma = length [1; 3; 5; 9]%R - 2 + 1 /\ Forall (within 1 9) sma.
Proof.
  split; [simpl; lia|]. split; [exact prices_1_3_5_9_range|].
  apply (calculate_sma_within_price_range [1; 3; 5; 9]%R 2 1 9);
    [simpl; lia | exact prices_1_3_5_9_range].
Defined.

(** X10 on four prices of 7 with window 2 *)
Lemma calculate_bollinger_bands_constant_witness :
  1 <= 2 <= 4 /\
  calculate_bollinger_bands (Fin <$> replicate 4 7%R) 2 (Fin 2)
  = Ok (replicate 3 (Fin 7), replicate 3 (Fin 7), replicate 3 (Fin 7)).
Proof. split; [lia|]. apply (calculate_bollinger_bands_constant 7 2 4 2). lia. Defined.

(** X11 on two stocks of three prices each *)
Lemma calculate_correlation_matrix_total_witness :
  2 <= length ["A"; "B"] /\
  (forall s, s ∈ ["A"; "B"] -> ~ missing_data exact_stocks s) /\
  exists symbols_list m,
    calculate_correlation_matrix exact_stocks ["A"; "B"] = Ok (Some (symbols_list, m)) /\
    NoDup symbols_list /\
    (forall s, s ∈ symbols_list <-> s ∈ ["A"; "B"]) /\
    (NoDup ["A"; "B"] -> symbols_list = ["A"; "B"]) /\
    length m = length symbols_list /\
    Forall (fun row => length row = length symbols_list) m.
Proof.
  split; [simpl; lia|]. split; [exact exact_stocks_present|].
  apply (calculate_correlation_matrix_total exact_stocks ["A"; "B"]);
    [simpl; lia | exact exact_stocks_present].
Defined.

(** X14 on a path with two directories and two dots *)
Lemma symbol_of_path_basename_witness :
  ("/"%char ∉ chars "AAPL") /\ ("."%char ∉ chars "AAPL") /\ ("/"%char ∉ chars "NS.csv") /\
  symbol_of_path "data/2024/AAPL.NS.csv" = Ok "AAPL" /\
  symbol_of_path "AAPL.NS.csv" = Ok "AAPL" /\
  symbol_of_path "data/2024/AAPL" = Ok "AAPL" /\
  symbol_of_path "AAPL" = Ok "AAPL".
Proof.
  assert ("/"%char ∉ chars "AAPL") as H1 by no_char.
  assert ("."%char ∉ chars "AAPL") as H2 by no_char.
  assert ("/"%char ∉ chars "NS.csv") as H3 by no_char.
  split; [exact H1|]. split; [exact H2|]. split; [exact H3|].
  exact (symbol_of_path_basename "data/2024" "AAPL" "NS.csv" H1 H2 H3).
Defined.

(** X16 from the empty analyzer *)
Lemma load_files_ok_witness :
  analyzer_ok (∅ : gmap string (StockData float)) /\
  exists stocks',
    load_files any_date two_rows ["AAPL.csv"; "data/MSFT.csv"] ∅ = Ok stocks' /\
    analyzer_ok stocks' /\
    forall s, is_Some ((∅ : gmap string (StockData float)) !! s) -> is_Some (stocks' !! s).
Proof.
  split; [exact analyzer_ok_empty|].
  apply (load_files_ok any_date two_rows ["AAPL.csv"; "data/MSFT.csv"] ∅).
  exact analyzer_ok_empty.
Defined.

(** X17 on the same name in two directories, with two extensions *)
Lemma load_files_same_name_witness :
  ("/"%char ∉ chars "TCS") /\ ("."%char ∉ chars "TCS") /\
  ("/"%char ∉ chars "NS.csv") /\ ("/"%char ∉ chars "BO.csv") /\
  load_data any_date (two_rows "nse/TCS.NS.csv") {| symbol := "TCS"; data := None |}
    = (true, {| symbol := "TCS"; data := Some [row_bar sample_row; row_bar sample_row] |}) /\
  load_data any_date (two_rows "bse/TCS.BO.csv") {| symbol := "TCS"; data := None |}
    = (true, {| symbol := "TCS"; data := Some [row_bar sample_row; row_bar sample_row] |}) /\
  load_files any_date two_rows ["nse/TCS.NS.csv"; "bse/TCS.BO.csv"] ∅
  = Ok {[ "TCS" := {| symbol := "TCS";
                      data := Some [row_bar sample_row; row_bar sample_row] |} ]}.
Proof.
  assert ("/"%char ∉ chars "TCS") as H1 by no_char.
  assert ("."%char ∉ chars "TCS") as H2 by no_char.
  assert ("/"%char ∉ chars "NS.csv") as H3 by no_char.
  assert ("/"%char ∉ chars "BO.csv") as H4 by no_char.
  split; [exact H1|]. split; [exact H2|]. split; [exact H3|]. split; [exact H4|].
  split; [reflexivity|]. split; [reflexivity|].
  exact (load_files_same_name any_date two_rows "nse" "bse" "TCS" "NS.csv" "BO.csv"
           _ _ H1 H2 H3 H4 eq_refl eq_refl).
Defined.

(** X18 on three stocks: a repeated choice, a line that is no number, and an early 0 *)
Lemma select_multiple_stocks_result_witness :
  2 <= 5 /\
  select_multiple_stocks ["A"; "B"; "C"] 2 5 [Some 1; None; Some 1; Some 0; Some 3; Some 0; Some 2]%Z
  = Returned ["A"; "C"] [Some 2%Z] /\
  (NoDup ["A"; "C"] /\ (forall s, s ∈ ["A"; "C"] -> s ∈ ["A"; "B"; "C"]) /\
   ((length ["A"; "B"; "C"] < 2 /\ ["A"; "C"] = [] /\
     [Some 2%Z] = [Some 1; None; Some 1; Some 0; Some 3; Some 0; Some 2]%Z) \/
    (2 <= length ["A"; "B"; "C"] /\ 2 <= length ["A"; "C"] <= 5))) /\
  (length ["A"] < 2 /\
   select_multiple_stocks ["A"] 2 5 [Some 1%Z] = Returned [] [Some 1%Z]) /\
  (2 <= length ["A"; "B"; "C"] /\ NoDup ["A"; "B"; "C"] /\
   select_multiple_stocks ["A"; "B"; "C"] 2 5
     (((fun i => Some (Z.of_nat i)) <$> seq 1 2) ++ Some 0%Z :: [Some 3%Z])
   = Returned (take 2 ["A"; "B"; "C"]) (if 2 <? 5 then [Some 3%Z] else [Some 0; Some 3]%Z)).
Proof.
  assert (2 <= 5) as Hmm by lia.
  assert (NoDup ["A"; "B"; "C"]) as Hnd.
  { repeat (apply NoDup_cons; split;
      [repeat (apply not_elem_of_cons; split; [done|]); apply not_elem_of_nil|]).
    apply NoDup_nil_2. }
  split; [exact Hmm|]. split; [reflexivity|]. split; [|split].
  - apply (proj1 (proj2 (proj2 (select_multiple_stocks_result ["A"; "B"; "C"] 2 5
                    [Some 1; None; Some 1; Some 0; Some 3; Some 0; Some 2]%Z Hmm)))
             ["A"; "C"] [Some 2%Z]).
    reflexivity.
  - split; [simpl; lia|].
    apply (proj1 (proj2 (select_multiple_stocks_result ["A"] 2 5 [Some 1%Z] Hmm))).
    simpl. lia.
  - split; [simpl; lia|]. split; [exact Hnd|].
    apply (proj2 (proj2 (proj2 (select_multiple_stocks_result ["A"; "B"; "C"] 2 5
                    [Some 3%Z] Hmm)))); [simpl; lia | exact Hnd].
Defined.

Lemma exact_stocks_ok : analyzer_ok exact_stocks.
Proof.
  intros s sd Hs. unfold exact_stocks in Hs.
  apply lookup_insert_Some in Hs as [[<- <-]|[_ Hs]]; [split; [done | simpl; lia]|].
  apply lookup_insert_Some in Hs as [[<- <-]|[_ Hs]]; [split; [done | simpl; lia]|].
  by rewrite lookup_empty in Hs.
Qed.

Lemma exact_stocks_keys s : s ∈ ["A"; "B"] -> is_Some (exact_stocks !! s).
Proof.
  intros Hs. apply elem_of_cons in Hs as [->|Hs]; [|apply list_elem_of_singleton in Hs as ->].
  - by eexists.
  - by eexists.
Qed.

(** X20 with the second stock chosen first *)
Lemma correlation_menu_matrix_witness :
  analyzer_ok exact_stocks /\
  (forall s, s ∈ ["A"; "B"] -> is_Some (exact_stocks !! s)) /\
  select_multiple_stocks ["A"; "B"] 2 5 [Some 2; Some 1; Some 0]%Z = Returned ["B"; "A"] [] /\
  ["B"; "A"] <> [] /\
  exists m,
    calculate_correlation_matrix exact_stocks ["B"; "A"] = Ok (Some (["B"; "A"], m)) /\
    2 <= length ["B"; "A"] <= 5 /\
    length m = length ["B"; "A"] /\
    Forall (fun row => length row = length ["B"; "A"]) m.
Proof.
  split; [exact exact_stocks_ok|]. split; [exact exact_stocks_keys|].
  split; [reflexivity|]. split; [done|].
  apply (correlation_menu_matrix exact_stocks ["A"; "B"] [Some 2; Some 1; Some 0]%Z
           ["B"; "A"] [] exact_stocks_ok exact_stocks_keys eq_refl). done.
Defined.

Lemma two_stocks_present_A : ~ missing_data two_stocks "A".
Proof.
  unfold missing_data.
  change (two_stocks !! "A") with (Some (stock_of_closes "A" [1; 2; 4; 3; 5]%float)).
  simpl. lia.
Qed.

Lemma two_stocks_present_B : ~ missing_data two_stocks "B".
Proof.
  unfold missing_data.
  change (two_stocks !! "B") with (Some (stock_of_closes "B" [9; 7; 8; 7; 6; 2]%float)).
  simpl. lia.
Qed.

(** X21 on binary64, on two stocks of five and six prices *)
Lemma scatter_corr_is_matrix_entry_witness :
  "A" <> "B" /\ ~ missing_data two_stocks "A" /\ ~ missing_data two_stocks "B" /\
  exists corr m row,
    scatter_corr two_stocks ["A"; "B"] = Ok (Some corr) /\
    calculate_correlation_matrix two_stocks ["A"; "B"] = Ok (Some (["A"; "B"], m)) /\
    m !! 0 = Some row /\ row !! 1 = Some corr.
Proof.
  assert ("A" <> "B") as Hne by done.
  split; [exact Hne|]. split; [exact two_stocks_present_A|].
  split; [exact two_stocks_present_B|].
  exact (scatter_corr_is_matrix_entry two_stocks "A" "B" Hne
           two_stocks_present_A two_stocks_present_B).
Defined.

(** X23 on three prices *)
Lemma stock_report_short_witness :
  length [10; 11; 12]%float < 12 /\
  stock_report "A" [10; 11; 12]%float
  = Ok {| report_symbol := "A";
          report_price := Some 12%float;
          report_rsi := None;
          report_rsi_status := "Neutral";
          report_macd := None;
          report_signal := None;
          report_trend := "Bearish";
          report_upper := None;
          report_lower := None;
          report_bollinger_status := "Price within bands";
          report_recommendation := "Neutral - Monitor for clearer signals" |}.
Proof.
  split; [simpl; lia|].
  apply (stock_report_short "A" [10; 11; 12]%float). simpl. lia.
Defined.

(** X25 on twenty-six falling prices *)
Lemma stock_report_falling_witness :
  26 <= length falling_prices /\
  (forall i a b, falling_prices !! i = Some a -> falling_prices !! S i = Some b ->
     (b < a)%R) /\
  exists entry, stock_report "A" (Fin <$> falling_prices) = Ok entry /\
    report_rsi entry = Some (Fin 0) /\
    report_rsi_status entry = "Neutral" /\
    rsi_votes (report_rsi entry) = (1, 0).
Proof.
  split; [simpl; lia|]. split; [exact falling_prices_fall|].
  apply (stock_report_falling "A" falling_prices); [simpl; lia | exact falling_prices_fall].
Defined.

